(** * dcontroller: the delta engine of the pipeline, Normalize, and the
    expression evaluator's dict literals

    A shallow embedding of [pkg/pipeline] (engine.go, normalize.go, errors.go)
    over the packages it calls ([pkg/object], [pkg/cache], [pkg/expression]),
    followed by the properties of the specification that concern them. *)

From stdpp Require Import gmap strings list fin_maps sorting.
From Stdlib Require Import ZArith Ascii OrderedTypeEx.

#[local] Set Warnings "-register-all".

(** ** Documents ([any] values reachable from [map[string]any]) *)

(** A semi-structured value: null, bool, int64, float64 (kept as its IEEE-754
    bit pattern), string, []any, map[string]any. *)
Inductive Doc : Type :=
  | DNull
  | DBool (b : bool)
  | DInt (z : Z)
  | DFloat (bits : Z)
  | DString (s : string)
  | DList (l : list Doc)
  | DMap (m : gmap string Doc).

(** [type unstruct = map[string]any] *)
Abbreviation unstruct := (gmap string Doc).

(** [reflect.ValueOf(v).Kind() == reflect.String] *)
Definition is_string (v : Doc) : bool :=
  match v with DString _ => true | _ => false end.

(** Structural (deep) equality of documents, by recursion through lists and maps. *)
Fixpoint Doc_eqb (a b : Doc) {struct a} : bool :=
  match a, b with
  | DNull, DNull => true
  | DBool x, DBool y => bool_decide (x = y)
  | DInt x, DInt y => bool_decide (x = y)
  | DFloat x, DFloat y => bool_decide (x = y)
  | DString x, DString y => bool_decide (x = y)
  | DList l1, DList l2 =>
      (fix go (l1 l2 : list Doc) : bool :=
         match l1, l2 with
         | [], [] => true
         | x :: l1, y :: l2 => Doc_eqb x y && go l1 l2
         | _, _ => false
         end) l1 l2
  | DMap m1, DMap m2 =>
      bool_decide (dom m1 = dom m2) &&
      map_fold (λ k x acc,
                match m2 !! k with Some y => Doc_eqb x y | None => false end && acc)
               true m1
  | _, _ => false
  end.

(** The size of a document, the measure for induction through lists and maps. *)
Fixpoint Doc_size (d : Doc) : nat :=
  match d with
  | DList l => S (foldr (λ n acc, n + acc) 0 (Doc_size <$> l))
  | DMap m => S (map_fold (λ _ n acc, n + acc) 0 (Doc_size <$> m))
  | _ => 1
  end.

(** ** Go errors and results *)

(** An [error] value, kept unrendered: [errors.New(text)] or
    [fmt.Errorf(format, args...)] with the operands of its verbs ([%s]/[%q] of
    a string or of any value, [%w] of a wrapped error, a nested
    [fmt.Sprintf]). *)
Inductive error : Type :=
  | errors_New (text : string)
  | fmt_Errorf (format : string) (args : list fmt_arg)
with fmt_arg : Type :=
  | fmt_s (s : string)
  | fmt_v (v : Doc)
  | fmt_w (e : error)
  | fmt_Sprintf (format : string) (args : list fmt_arg).

(** What a call produces: a value, a returned error, or a run-time panic (a
    method called on a nil object or on the nil store of a missing map key). *)
Inductive result (A : Type) : Type :=
  | Ok (a : A)
  | Err (e : error)
  | Panic.
Arguments Ok {A} a.
Arguments Err {A} e.
Arguments Panic {A}.

Definition is_Err {A} (r : result A) : Prop := ∃ e, r = Err e.

(** ** k8s.io/apimachinery/pkg/runtime/schema *)

Module schema.

Record GroupVersionKind : Type :=
  mkGVK { Group : string; Version : string; Kind : string }.

#[global] Instance GroupVersionKind_eq_dec : EqDecision GroupVersionKind.
Proof. solve_decision. Defined.

#[global] Instance GroupVersionKind_countable : Countable GroupVersionKind.
Proof.
  refine (inj_countable' (λ g, (Group g, Version g, Kind g))
                         (λ t, mkGVK t.1.1 t.1.2 t.2) _).
  by intros [].
Defined.

Record GroupVersion : Type := mkGV { gvGroup : string; gvVersion : string }.

Record GroupKind : Type := mkGK { gkGroup : string; gkKind : string }.

(** [GroupKind.String()]: the kind alone for the empty group, [Kind.Group] otherwise. *)
Definition GroupKind_String (gk : GroupKind) : string :=
  if decide (gkGroup gk = "") then gkKind gk else gkKind gk +:+ "." +:+ gkGroup gk.

Record GroupVersionResource : Type :=
  mkGVR { gvrGroup : string; gvrVersion : string; gvrResource : string }.

End schema.

(** [type gvk = schema.GroupVersionKind] *)
Abbreviation gvk := schema.GroupVersionKind.

(** ** pkg/object *)

Module object.

(** The operations of [pkg/object] and of the unstructured objects it wraps
    that the pipeline calls. The implementation of the package is not in the
    sources: its operations are parameters of the development. A setter [o.SetX(v)]
    is the function returning the updated object. *)
Class Pkg : Type := {
  Object : Type;
  NewViewObject : string → Object;
  GroupVersionKind : Object → gvk;
  GetName : Object → string;
  GetNamespace : Object → string;
  SetName : Object → string → Object;
  SetNamespace : Object → string → Object;
  SetContent : Object → unstruct → Object;
  UnstructuredContent : Object → unstruct;
  DeepCopy : Object → Object;
  DeepEqual : Object → Object → bool;
}.

End object.

(** ** k8s.io/client-go/tools/cache *)

Module toolscache.

(** [ObjectName], the result of [MetaObjectToName]. *)
Record ObjectName : Type := mkObjectName { Namespace : string; Name : string }.

#[global] Instance ObjectName_eq_dec : EqDecision ObjectName.
Proof. solve_decision. Defined.

(** [ObjectName.String()]: [namespace/name], or the bare name when the
    namespace is empty. *)
Definition String (n : ObjectName) : string :=
  if decide (Namespace n = "") then Name n else Namespace n +:+ "/" +:+ Name n.

Section WithObjects.
Context `{object.Pkg}.

Definition MetaObjectToName (obj : object.Object) : ObjectName :=
  mkObjectName (object.GetNamespace obj) (object.GetName obj).

End WithObjects.

End toolscache.

(** ** pkg/cache *)

Module cache.

Inductive DeltaType : Type :=
  | Added | Deleted | Updated | Replaced | Upserted | Unchanged.

#[global] Instance DeltaType_eq_dec : EqDecision DeltaType.
Proof. solve_decision. Defined.

(** The text a [%q] verb prints for a delta type. *)
Definition DeltaType_String (t : DeltaType) : string :=
  match t with
  | Added => "Added" | Deleted => "Deleted" | Updated => "Updated"
  | Replaced => "Replaced" | Upserted => "Upserted" | Unchanged => "Unchanged"
  end.

Section WithObjects.
Context `{object.Pkg}.

(** [Delta{Type, Object}]; a nil [Object] is [None]. *)
Record Delta : Type := mkDelta { Type_ : DeltaType; Object : option object.Object }.

(** Modelled from the spec: [Delta.IsUnchanged] and [NilDelta] of pkg/cache are
    not in the sources; "Unchanged carries no work" (spec, section 3). *)
Definition IsUnchanged (d : Delta) : bool := bool_decide (Type_ d = Unchanged).

Definition NilDelta : Delta := mkDelta Unchanged None.

(** Modelled from the spec: the view store of pkg/cache is not in the sources.
    Spec, section 4.2: a mapping from identity-key string (namespace/name) to
    object; [Add] replaces any entry under the same key, [Delete] is a no-op
    on an absent object, [List] is a snapshot (here in the map's key order).
    The operations keep the signatures the engine calls them with, the
    returned error being nil throughout. *)
Definition KeyFunc (obj : object.Object) : string :=
  toolscache.String (toolscache.MetaObjectToName obj).

Definition NewStore : gmap string object.Object := ∅.

Definition Add (s : gmap string object.Object) (obj : object.Object)
  : result (gmap string object.Object) :=
  Ok (<[KeyFunc obj := obj]> s).

Definition Delete (s : gmap string object.Object) (obj : object.Object)
  : result (gmap string object.Object) :=
  Ok (delete (KeyFunc obj) s).

(** [item, exists, err := s.GetByKey(key)] *)
Definition GetByKey (s : gmap string object.Object) (key : string)
  : result (option object.Object) :=
  Ok (s !! key).

Definition Get (s : gmap string object.Object) (obj : object.Object)
  : result (option object.Object) :=
  GetByKey s (KeyFunc obj).

Definition List (s : gmap string object.Object) : list object.Object :=
  (map_to_list s).*2.

End WithObjects.

End cache.

(** [*cache.Store] *)
Abbreviation Store := (gmap string object.Object).

(** ** pkg/expression: syntax and interface *)

Module expression.

(** [Expression{Op, Arg, Literal}]: [Literal] holds a scalar, a list of
    sub-expressions ([@list]) or a mapping from keys to sub-expressions
    ([@dict], kept in source order); [Arg] is the operand, nil for a literal. *)
Inductive Expression : Type :=
  | mkExpression (op : string) (arg : option Expression) (lit : literal)
with literal : Type :=
  | LitNil
  | LitBool (b : bool)
  | LitInt (z : Z)
  | LitFloat (bits : Z)
  | LitString (s : string)
  | LitList (es : list Expression)
  | LitDict (kvs : list (string * Expression)).

Definition Op (e : Expression) : string :=
  match e with mkExpression op _ _ => op end.
Definition Arg (e : Expression) : option Expression :=
  match e with mkExpression _ arg _ => arg end.
Definition Literal (e : Expression) : literal :=
  match e with mkExpression _ _ lit => lit end.

(** [EvalCtx{Object, Local, Log}]: the document [$] paths resolve against and
    the one [$$] paths resolve against (the logger has no part in a result). *)
Record EvalCtx : Type := mkEvalCtx { Object : unstruct; LocalObject : option Doc }.

(** The entry points of the evaluator that the pipeline calls:
    [e.Evaluate(ctx)], [AsBool], [AsObject] and [e.String()]. *)
Class Pkg : Type := {
  Evaluate : Expression → EvalCtx → result Doc;
  AsBool : Doc → result bool;
  AsObject : Doc → result unstruct;
  String : Expression → string;
}.

Section WithEvaluator.
Context `{Pkg}.

(** Modelled from the spec: [expression.NewExpressionError(expr, err)] is not
    in the sources; an Expression error "wraps the offending expression and a
    cause" (spec, section 6). *)
Definition NewExpressionError (e : Expression) (err : error) : error :=
  fmt_Errorf "failed to evaluate expression %q: %w" [fmt_s (String e); fmt_w err].

End WithEvaluator.

End expression.

(** ** Sequencing of fallible steps *)

#[global] Instance result_ret : MRet result := λ A a, Ok a.
#[global] Instance result_bind : MBind result := λ A B f r,
  match r with Ok a => f a | Err e => Err e | Panic => Panic end.

(** [if err != nil { return nil, wrap(err) }] *)
Definition wrap_err {A} (wrap : error → error) (r : result A) : result A :=
  match r with Err e => Err (wrap e) | _ => r end.

(** A [for] loop over [l] that threads [acc] and returns at the first error. *)
Fixpoint foldlM {A B} (f : B → A → result B) (acc : B) (l : list A) : result B :=
  match l with
  | [] => Ok acc
  | x :: l => match f acc x with
              | Ok acc' => foldlM f acc' l
              | Err e => Err e
              | Panic => Panic
              end
  end.

(** [slices.Sort] on strings (byte-wise lexicographic order). *)
Definition slices_Sort (ids : list string) : list string :=
  merge_sort (λ a b, Is_true (String.leb a b)) ids.

(** [strings.Join] *)
Definition strings_Join (elems : list string) (sep : string) : string :=
  String.concat sep elems.

(** ** pkg/pipeline *)

Module pipeline.

(** errors.go *)
Definition NewAggregationError (err : error) : error :=
  fmt_Errorf "failed to evaluate aggregation expression: %w" [fmt_w err].

Definition NewJoinError (err : error) : error :=
  fmt_Errorf "failed to evaluate join expression: %w" [fmt_w err].

Definition NewInvalidObjectError (message : fmt_arg) : error :=
  fmt_Errorf "invalid object: %s" [message].

(** [opv1a1.Aggregation{Expressions}] and [Join{Expression}] *)
Record Aggregation : Type := mkAggregation { Expressions : list expression.Expression }.
Record Join : Type := mkJoin { Expression : expression.Expression }.

Section Engine.
Context `{object.Pkg} `{expression.Pkg}.

(** [defaultEngine{targetView, baseviews, baseViewStore, log}] *)
Record defaultEngine : Type := mkEngine {
  targetView : string;
  baseviews : list gvk;
  baseViewStore : gmap gvk Store;
}.

Definition View (eng : defaultEngine) : string := targetView eng.

(** [var ObjectKey = toolscache.MetaObjectToName] *)
Definition ObjectKey (obj : object.Object) : toolscache.ObjectName :=
  toolscache.MetaObjectToName obj.

(** *** normalize.go *)

(** [Normalize] (the current one). The writes [metaMap["namespace"] = ...] and
    [metaMap["name"] = ...] go through the map that [content["metadata"]]
    aliases: [content] is rebuilt around the updated [metaMap]. *)
Definition Normalize (eng : defaultEngine) (content : unstruct) : result object.Object :=
  (* Normalize always produces Views! *)
  let obj := object.NewViewObject (View eng) in
  (* metadata: must exist *)
  match content !! "metadata" with
  | None => Err (NewInvalidObjectError (fmt_s "no metadata in object"))
  | Some meta =>
    match meta with
    | DMap metaMap =>
      (* namespace: can be empty *)
      match
        match metaMap !! "namespace" with
        | Some namespace =>
            match namespace with
            | DString namespaceStr =>
                Ok (namespaceStr, <["namespace" := DString namespaceStr]> metaMap)
            | _ => Err (NewInvalidObjectError
                          (fmt_Sprintf "metadata/namespace must be a string (current value %q)"
                                       [fmt_v namespace]))
            end
        | None => Ok ("", metaMap)
        end
      with
      | Err e => Err e
      | Panic => Panic
      | Ok (namespaceStr, metaMap) =>
        (* name must be defined *)
        match metaMap !! "name" with
        | None => Err (NewInvalidObjectError (fmt_s "missing /metadata/name"))
        | Some name =>
          match name with
          | DString nameStr =>
            if decide (nameStr = "")
            then Err (NewInvalidObjectError (fmt_s "empty metadata/name in aggregation result"))
            else
              let metaMap := <["name" := DString nameStr]> metaMap in
              let content := <["metadata" := DMap metaMap]> content in
              let obj := object.SetContent obj content in
              (* still needed *)
              let obj := object.SetName obj nameStr in
              let obj := object.SetNamespace obj namespaceStr in
              Ok obj
          | _ => Err (NewInvalidObjectError
                        (fmt_Sprintf "metadata/name must be a string (current value %q)"
                                     [fmt_v name]))
          end
        end
      end
    | _ => Err (NewInvalidObjectError (fmt_s "invalid metadata in object"))
    end
  end.

(** The earlier [Normalize]: name first, then namespace, both set on the
    object before its content. *)
Definition Normalize_earlier (eng : defaultEngine) (content : unstruct)
  : result object.Object :=
  let obj := object.NewViewObject (View eng) in
  match content !! "metadata" with
  | None => Err (NewInvalidObjectError (fmt_s "no metadata in object"))
  | Some meta =>
    match meta with
    | DMap metaMap =>
      (* name must be defined *)
      match metaMap !! "name" with
      | None => Err (NewInvalidObjectError (fmt_s "missing /metadata/name"))
      | Some name =>
        match name with
        | DString nameStr =>
          if decide (nameStr = "")
          then Err (NewInvalidObjectError (fmt_s "empty metadata/name in aggregation result"))
          else
            let obj := object.SetName obj nameStr in
            (* namespace: can be empty *)
            match
              match metaMap !! "namespace" with
              | None => Ok (object.SetNamespace obj "")
              | Some namespace =>
                  match namespace with
                  | DString namespaceStr => Ok (object.SetNamespace obj namespaceStr)
                  | _ => Err (NewInvalidObjectError
                                (fmt_Sprintf
                                   "metadata/namespace must be a string (current value %q)"
                                   [fmt_v namespace]))
                  end
              end
            with
            | Err e => Err e
            | Panic => Panic
            | Ok obj => Ok (object.SetContent obj content)
            end
        | _ => Err (NewInvalidObjectError
                      (fmt_Sprintf "metadata/name must be a string (current value %q)"
                                   [fmt_v name]))
        end
      end
    | _ => Err (NewInvalidObjectError (fmt_s "invalid metadata in object"))
    end
  end.

(** *** engine.go: the engine as a state transformer

    A method of [*defaultEngine] maps the engine before the call to its
    outcome and the engine after it: an error (or a panic) leaves the stores
    as the steps before it made them. *)
Definition M (A : Type) : Type := defaultEngine → result A * defaultEngine.

#[global] Instance M_ret : MRet M := λ A a eng, (Ok a, eng).
#[global] Instance M_bind : MBind M := λ A B f m eng,
  match m eng with
  | (Ok a, eng') => f a eng'
  | (Err e, eng') => (Err e, eng')
  | (Panic, eng') => (Panic, eng')
  end.

(** The outcome of a call that does not touch the engine. *)
Definition lift {A} (r : result A) : M A := λ eng, (r, eng).
(** The receiver [eng], for a method that only reads it. *)
Definition ask : M defaultEngine := λ eng, (Ok eng, eng).
(** [if err != nil { return nil, wrap(err) }] around a call on the engine. *)
Definition wrap {A} (f : error → error) (m : M A) : M A := λ eng,
  match m eng with
  | (Err e, eng') => (Err (f e), eng')
  | r => r
  end.

(** [eng.baseViewStore[gvk]] as the receiver of a store method: the nil store
    of a missing key panics. *)
Definition getStore (g : gvk) : M Store := λ eng,
  match baseViewStore eng !! g with
  | Some store => (Ok store, eng)
  | None => (Panic, eng)
  end.

(** The effect of a mutating method of the store held at [eng.baseViewStore[gvk]]. *)
Definition putStore (g : gvk) (store : Store) : M unit := λ eng,
  (Ok (), mkEngine (targetView eng) (baseviews eng) (<[g := store]> (baseViewStore eng))).

Definition initViewStore (g : gvk) : M unit := λ eng,
  match baseViewStore eng !! g with
  | Some _ => (Ok (), eng)
  | None => putStore g cache.NewStore eng
  end.

Definition IsValidEvent (delta : cache.Delta) : M bool :=
  match cache.Object delta with
  | None => mret false
  | Some obj =>
      let g := object.GroupVersionKind obj in
      initViewStore g ;;
      match cache.Type_ delta with
      | cache.Added | cache.Updated | cache.Upserted | cache.Replaced =>
          store ← getStore g;
          match cache.GetByKey store (toolscache.String (ObjectKey obj)) with
          | Ok (Some old) =>
              (* duplicate: not valid *)
              mret (negb (object.DeepEqual obj old))
          | _ => mret true
          end
      | _ => mret true
      end
  end.

(** find out whether an upsert is an add or an update/replace *)
Definition handleUpsertEvent (delta : cache.Delta) : M cache.Delta :=
  if decide (cache.Type_ delta ≠ cache.Upserted) then mret delta
  else
    match cache.Object delta with
    | None => lift Panic
    | Some obj =>
        store ← getStore (object.GroupVersionKind obj);
        match cache.Get store obj with
        | Ok (Some _) => mret (cache.mkDelta cache.Updated (Some obj))
        | _ => mret (cache.mkDelta cache.Added (Some obj))
        end
    end.

(** *** Aggregation *)

Definition evalStage (e : expression.Expression) (u : unstruct) : result (list unstruct) :=
  match expression.Arg e with
  | None =>
      Err (NewAggregationError
             (fmt_Errorf "no expression found in aggregation stage %s"
                         [fmt_s (expression.String e)]))
  | Some arg =>
      if decide (expression.Op e = "@select") then
        (* @select is one-to-one or one-to-zero *)
        res ← expression.Evaluate arg (expression.mkEvalCtx u None);
        b ← wrap_err (λ err, NewAggregationError
                        (fmt_Errorf
                           "expected conditional expression to evaluate to boolean: %w"
                           [fmt_w err]))
                     (expression.AsBool res);
        (* default is no change *)
        Ok (if b : bool then [u] else [])
      else if decide (expression.Op e = "@project") then
        (* @project is one-to-one *)
        res ← expression.Evaluate arg (expression.mkEvalCtx u None);
        v ← wrap_err NewAggregationError (expression.AsObject res);
        Ok [v]
      else
        Err (NewAggregationError (errors_New "unknown aggregation stage"))
  end.

Definition evalAggregation (eng : defaultEngine) (a : Aggregation) (obj : object.Object)
  : result (list object.Object) :=
  args ← foldlM (λ args s,
                 foldlM (λ sres u, ret ← evalStage s u; Ok (sres ++ ret)) [] args)
                [object.UnstructuredContent obj] (Expressions a);
  foldlM (λ ret u, obj ← Normalize eng u; Ok (ret ++ [obj])) [] args.

(** [evaluateAggregation], with [self] for its two calls to itself. *)
Definition evaluateAggregation_body
    (self : Aggregation → cache.Delta → M (list cache.Delta))
    (a : Aggregation) (delta : cache.Delta) : M (list cache.Delta) :=
  match cache.Object delta with
  | None => lift Panic
  | Some obj =>
    let g := object.GroupVersionKind obj in
    (* update local view cache *)
    match cache.Type_ delta with
    | cache.Added =>
        eng ← ask;
        objs ← lift (wrap_err
                  (λ err, NewAggregationError
                     (fmt_Errorf
                        "processing event %q: could not evaluate aggregation for new object %s: %w"
                        [fmt_s (cache.DeltaType_String (cache.Type_ delta));
                         fmt_s (toolscache.String (ObjectKey obj)); fmt_w err]))
                  (evalAggregation eng a (object.DeepCopy obj)));
        store ← getStore g;
        store ← lift (wrap_err
                  (λ err, NewAggregationError
                     (fmt_Errorf "processing event %q: could not add object %s to store: %w"
                        [fmt_s (cache.DeltaType_String (cache.Type_ delta));
                         fmt_s (toolscache.String (ObjectKey obj)); fmt_w err]))
                  (cache.Add store obj));
        putStore g store ;;
        (* @select shortcuts *)
        mret ((λ obj, cache.mkDelta cache.Added (Some obj)) <$> objs)
    | cache.Updated | cache.Replaced =>
        delDeltas ← wrap NewAggregationError
                      (self a (cache.mkDelta cache.Deleted (Some obj)));
        let delDelta := match delDeltas with [d] => d | _ => cache.NilDelta end in
        addDeltas ← wrap NewAggregationError
                      (self a (cache.mkDelta cache.Added (Some obj)));
        let addDelta := match addDeltas with [d] => d | _ => cache.NilDelta end in
        (* consolidate: objects both in the deleted and added cache are updated *)
        if cache.IsUnchanged delDelta && cache.IsUnchanged addDelta then
          (* nothing happened: object wasn't in the view and it still isn't *)
          mret []
        else if cache.IsUnchanged delDelta && negb (cache.IsUnchanged addDelta) then
          (* object added into the view *)
          mret [addDelta]
        else if negb (cache.IsUnchanged delDelta) && cache.IsUnchanged addDelta then
          (* object removed from the view *)
          mret [delDelta]
        else
          match cache.Object delDelta, cache.Object addDelta with
          | Some delObj, Some addObj =>
              if decide (ObjectKey delObj = ObjectKey addObj) then
                (* object updated *)
                mret [cache.mkDelta cache.Updated (Some addObj)]
              else
                (* aggregation affects the name and the name has changed! *)
                mret [delDelta; addDelta]
          | _, _ => lift Panic
          end
    | cache.Deleted =>
        store ← getStore g;
        old ← lift (wrap_err NewAggregationError
                      (cache.GetByKey store (toolscache.String (ObjectKey obj))));
        match old with
        | None => mret []
        | Some old =>
            eng ← ask;
            objs ← lift (wrap_err
                      (λ err, NewAggregationError
                         (fmt_Errorf
                            "processing event %q: could not evaluate aggregation for deleted object %s: %w"
                            [fmt_s (cache.DeltaType_String (cache.Type_ delta));
                             fmt_s (toolscache.String (ObjectKey obj)); fmt_w err]))
                      (evalAggregation eng a (object.DeepCopy old)));
            store ← getStore g;
            store ← lift (wrap_err
                      (λ err, NewAggregationError
                         (fmt_Errorf
                            "procesing event %q: could not delete object %s from store: %w"
                            [fmt_s (cache.DeltaType_String (cache.Type_ delta));
                             fmt_s (toolscache.String (ObjectKey obj)); fmt_w err]))
                      (cache.Delete store old));
            putStore g store ;;
            (* @select shortcuts *)
            mret ((λ obj, cache.mkDelta cache.Deleted (Some obj)) <$> objs)
        end
    | _ => mret []
    end
  end.

(** The calls of [evaluateAggregation] to itself pass a [Deleted] or an
    [Added] delta, on which it calls itself no further: two unfoldings of the
    body are the whole function (see [evaluateAggregation_unfold]). *)
Definition evaluateAggregation (a : Aggregation) (delta : cache.Delta)
  : M (list cache.Delta) :=
  evaluateAggregation_body
    (evaluateAggregation_body (λ _ _, lift Panic)) a delta.

Definition EvaluateAggregation (a : Aggregation) (delta : cache.Delta)
  : M (list cache.Delta) :=
  if cache.IsUnchanged delta then mret [delta]
  else
    match cache.Object delta with
    | None => lift Panic
    | Some obj =>
        let g := object.GroupVersionKind obj in
        initViewStore g ;;
        valid ← IsValidEvent delta;
        if negb valid then mret []
        else
          (* find out whether an upsert is an update/replace or an add *)
          delta ← handleUpsertEvent delta;
          evaluateAggregation a delta
    end.

(** *** Join *)

(** [type joinEvalFunc = func(object.Object, []object.Object) (object.Object, bool, error)];
    the object and the flag of a result are one [option]. *)
Definition joinEvalFunc : Type :=
  object.Object → list (option object.Object) → result (option object.Object).

(** [recurseProd], by recursion on [views = eng.baseviews[depth:]]; the slice
    behind the pointer [ret] is threaded through and returned. *)
Fixpoint recurseProd (eng : defaultEngine) (obj : object.Object)
    (current : list (option object.Object)) (ret : list object.Object)
    (eval : joinEvalFunc) (views : list gvk) {struct views}
  : result (list object.Object) :=
  match views with
  | [] =>
      newObj ← eval obj current;
      match newObj with
      | Some newObj => Ok (ret ++ [newObj])
      | None => Ok ret
      end
  | view :: views =>
      (* skip object's view *)
      if decide (object.GroupVersionKind obj = view) then
        recurseProd eng obj (current ++ [Some obj]) ret eval views
      else
        match baseViewStore eng !! view with
        | None =>
            (* no element seen yet: go on with an empty object *)
            recurseProd eng obj (current ++ [None]) ret eval views
        | Some store =>
            foldlM (λ ret o, recurseProd eng obj (current ++ [Some o]) ret eval views)
                   ret (cache.List store)
        end
  end.

(** product takes an object and a condition expression, generates the
    Cartesian product of the object stored in all the baseviews, applies the
    expression to each combination, and if it evalutates to true then it adds
    the combined object to the result set *)
Definition product (eng : defaultEngine) (obj : object.Object) (eval : joinEvalFunc)
  : result (list object.Object) :=
  if decide (length (baseviews eng) < 2)%nat then
    Err (errors_New "at least two views required")
  else
    recurseProd eng obj [] [] eval (baseviews eng).

(** The synthetic input document of a combination, as the closure that
    [evalJoin] passes to [product] builds it: the content of each object under
    its kind, and the sorted ids joined by [--] as the name. *)
Definition joinInput (current : list (option object.Object)) : unstruct :=
  (* temporary view name: Normalize will eventually recast the object into the target view *)
  let newObj := object.NewViewObject "__tmp_join_view" in
  let input := object.UnstructuredContent newObj in
  let '(input, ids) :=
    foldl (λ '(input, ids) v,
           match v with
           | None => (input, ids)
           | Some v =>
               (* this may break when working on native K8s objects in different groups
                  that have the same kind (don't do join on native objects!) *)
               let kind := schema.Kind (object.GroupVersionKind v) in
               (<[kind := DMap (object.UnstructuredContent v)]> input,
                ids ++ [kind +:+ ":" +:+ object.GetNamespace v +:+ ":" +:+ object.GetName v])
           end)
          (input, []) current in
  (* set id: this is needed so that we can disambiguate objects in diffDeltas *)
  let ids := slices_Sort ids in
  <["metadata" := DMap {["name" := DString (strings_Join ids "--")]}]> input.

(** The closure [evalJoin] passes to [product]. *)
Definition joinEval (j : Join) : joinEvalFunc := λ _ current,
  let newObj := object.NewViewObject "__tmp_join_view" in
  let input := joinInput current in
  (* evalutate conditional expression on the input *)
  res ← wrap_err (expression.NewExpressionError (Expression j))
         (expression.Evaluate (Expression j) (expression.mkEvalCtx input None));
  arg ← wrap_err (expression.NewExpressionError (Expression j)) (expression.AsBool res);
  if negb arg then Ok None
  else
    let newObj := object.SetContent newObj input in
    (* add input to the join list *)
    Ok (Some (object.DeepCopy newObj)).

Definition evalJoin (eng : defaultEngine) (j : Join) (obj : object.Object)
  : result (list object.Object) :=
  wrap_err (expression.NewExpressionError (Expression j)) (product eng obj (joinEval j)).

Definition containsDelta (ds : list cache.Delta) (delta : cache.Delta) : bool :=
  existsb (λ n,
           match cache.Object delta, cache.Object n with
           | Some dobj, Some nobj =>
               bool_decide (object.GroupVersionKind dobj = object.GroupVersionKind nobj)
               && bool_decide (object.GetName dobj = object.GetName nobj)
           | _, _ => false
           end) ds.

(** [diffDeltas] returns (added, modified, deleted). *)
Definition diffDeltas (dels adds : list cache.Delta)
  : list cache.Delta * list cache.Delta * list cache.Delta :=
  let d :=
    foldl (λ d delta,
           if negb (containsDelta adds delta)
           then d ++ [cache.mkDelta cache.Deleted (cache.Object delta)] else d)
          [] dels in
  let '(a, m) :=
    foldl (λ '(a, m) delta,
           if containsDelta dels delta
           then (a, m ++ [cache.mkDelta cache.Updated (cache.Object delta)])
           else (a ++ [cache.mkDelta cache.Added (cache.Object delta)], m))
          ([], []) adds in
  (a, m, d).

(** [evaluateJoin], with [self] for its two calls to itself. *)
Definition evaluateJoin_body
    (self : Join → cache.Delta → M (list cache.Delta))
    (j : Join) (delta : cache.Delta) : M (list cache.Delta) :=
  match cache.Object delta with
  | None => lift Panic
  | Some obj =>
    let g := object.GroupVersionKind obj in
    initViewStore g ;;
    valid ← IsValidEvent delta;
    if negb valid then mret []
    else
      (* find out whether an upsert is an update/replace or an add *)
      delta ← handleUpsertEvent delta;
      match cache.Object delta with
      | None => lift Panic
      | Some obj =>
        match cache.Type_ delta with
        | cache.Added =>
            eng ← ask;
            os ← lift (wrap_err
                    (λ err, NewJoinError
                       (fmt_Errorf
                          "processing event %q: could not evaluate join for new object %s: %w"
                          [fmt_s (cache.DeltaType_String (cache.Type_ delta));
                           fmt_s (toolscache.String (ObjectKey obj)); fmt_w err]))
                    (evalJoin eng j obj));
            store ← getStore g;
            store ← lift (wrap_err
                    (λ err, NewJoinError
                       (fmt_Errorf "processing event %q: could not add object %s to store: %w"
                          [fmt_s (cache.DeltaType_String (cache.Type_ delta));
                           fmt_s (toolscache.String (ObjectKey obj)); fmt_w err]))
                    (cache.Add store obj));
            putStore g store ;;
            mret ((λ o, cache.mkDelta cache.Added (Some o)) <$> os)
        | cache.Updated | cache.Replaced =>
            delDeltas ← wrap NewJoinError
                          (self j (cache.mkDelta cache.Deleted (Some obj)));
            addDeltas ← wrap NewJoinError
                          (self j (cache.mkDelta cache.Added (Some obj)));
            (* consolidate: objects both in the deleted and added cache are updated *)
            let '(a, m, d) := diffDeltas delDeltas addDeltas in
            mret (d ++ m ++ a)
        | cache.Deleted =>
            store ← getStore g;
            old ← lift (wrap_err NewJoinError
                          (cache.GetByKey store (toolscache.String (ObjectKey obj))));
            match old with
            | None => mret []
            | Some old =>
                eng ← ask;
                os ← lift (wrap_err
                        (λ err, NewJoinError
                           (fmt_Errorf
                              "procesing event %q: could not evaluate join for deleted object %s: %w"
                              [fmt_s (cache.DeltaType_String (cache.Type_ delta));
                               fmt_s (toolscache.String (ObjectKey obj)); fmt_w err]))
                        (evalJoin eng j old));
                store ← getStore g;
                store ← lift (wrap_err
                        (λ err, NewJoinError
                           (fmt_Errorf
                              "procesing event %q: could not delete object %s from store: %w"
                              [fmt_s (cache.DeltaType_String (cache.Type_ delta));
                               fmt_s (toolscache.String (ObjectKey obj)); fmt_w err]))
                        (cache.Delete store old));
                putStore g store ;;
                mret ((λ o, cache.mkDelta cache.Deleted (Some o)) <$> os)
            end
        | _ => mret []
        end
      end
  end.

(** As for [evaluateAggregation]: the inner calls pass [Deleted] and [Added]
    deltas only (see [evaluateJoin_unfold]). *)
Definition evaluateJoin (j : Join) (delta : cache.Delta) : M (list cache.Delta) :=
  evaluateJoin_body (evaluateJoin_body (λ _ _, lift Panic)) j delta.

Definition EvaluateJoin (j : Join) (delta : cache.Delta) : M (list cache.Delta) :=
  evaluateJoin j delta.

(** *** engine.go: construction *)

(** [NewDefaultEngine]: the engine holds no store yet. *)
Definition NewDefaultEngine (targetView : string) (baseviews : list gvk) : defaultEngine :=
  mkEngine targetView baseviews ∅.

(** [WithObjects]: each object is added to the store of its kind, which is
    created on its first object; the error of [Add] is dropped
    ([//nolint:errcheck]). *)
Fixpoint WithObjects (objs : list object.Object) : M unit :=
  match objs with
  | [] => mret ()
  | o :: objs =>
      let g := object.GroupVersionKind o in
      initViewStore g ;;
      store ← getStore g;
      match cache.Add store o with
      | Ok store => putStore g store
      | _ => mret ()
      end ;;
      WithObjects objs
  end.

(** *** aggregation.go *)

Definition aggregateOp : string := "@aggregate".

(** [NewAggregation]: nil for a nil config. *)
Definition NewAggregation (config : option Aggregation) : option Aggregation := config.

(** [Aggregation.String] *)
Definition Aggregation_String (a : Aggregation) : string :=
  aggregateOp +:+ ":[" +:+ strings_Join (expression.String <$> Expressions a) "," +:+ "]".

(** [Aggregation.Evaluate] processes an aggregation expression on the given delta. *)
Definition Aggregation_Evaluate (a : Aggregation) (delta : cache.Delta)
  : M (list cache.Delta) :=
  wrap (λ err, NewAggregationError (fmt_Errorf "aggregation error: %w" [fmt_w err]))
       (EvaluateAggregation a delta).

End Engine.

End pipeline.

(** ** The evaluator of pkg/expression, for dict literals and JSONPath *)

Module evaluator.

(** A step of a JSONPath: [.field] / [["field"]], or [[index]]. *)
Inductive step : Type :=
  | Field (name : string)
  | Index (i : nat).

Inductive pstate : Type :=
  | PStart
  | PField (acc : string)
  | PBracket
  | PIndex (n : nat)
  | PQuoted (q : Ascii.ascii) (acc : string)
  | PClose.

Definition is_digit (c : Ascii.ascii) : bool :=
  (48 <=? Ascii.nat_of_ascii c)%nat && (Ascii.nat_of_ascii c <=? 57)%nat.
Definition digit (c : Ascii.ascii) : nat := Ascii.nat_of_ascii c - 48.
Definition is_quote (c : Ascii.ascii) : bool :=
  bool_decide (Ascii.nat_of_ascii c = 34%nat) || bool_decide (Ascii.nat_of_ascii c = 39%nat).
Definition snoc (s : string) (c : Ascii.ascii) : string := s +:+ String c EmptyString.

Definition bad_path : error := errors_New "invalid JSONPath expression".

(** Modelled from the spec: the JSONPath parser of pkg/expression is not in
    the sources. Spec, section 4.1: "Paths begin with [$], optionally followed
    by [.] or [[...]] steps. Supported steps: [.field], [["field"]], [[index]]
    ... trailing [.] after [$] is accepted as equivalent to [$]". Filter steps
    [[?(pred)]] are outside this fragment and are refused. *)
Fixpoint lex (s : string) (st : pstate) (steps : list step) : result (list step) :=
  match s with
  | EmptyString =>
      match st with
      | PStart => Ok steps
      | PField acc => Ok (if decide (acc = "") then steps else steps ++ [Field acc])
      | _ => Err bad_path
      end
  | String c s =>
      match st with
      | PStart =>
          if Ascii.eqb c "."%char then lex s (PField "") steps
          else if Ascii.eqb c "["%char then lex s PBracket steps
          else Err bad_path
      | PField acc =>
          if Ascii.eqb c "."%char then
            if decide (acc = "") then Err bad_path
            else lex s (PField "") (steps ++ [Field acc])
          else if Ascii.eqb c "["%char then
            lex s PBracket (if decide (acc = "") then steps else steps ++ [Field acc])
          else lex s (PField (snoc acc c)) steps
      | PBracket =>
          if is_digit c then lex s (PIndex (digit c)) steps
          else if is_quote c then lex s (PQuoted c "") steps
          else Err bad_path
      | PIndex n =>
          if is_digit c then lex s (PIndex (10 * n + digit c)) steps
          else if Ascii.eqb c "]"%char then lex s PStart (steps ++ [Index n])
          else Err bad_path
      | PQuoted q acc =>
          if Ascii.eqb c q then lex s PClose (steps ++ [Field acc])
          else lex s (PQuoted q (snoc acc c)) steps
      | PClose =>
          if Ascii.eqb c "]"%char then lex s PStart steps else Err bad_path
      end
  end.

Definition parseJSONPath (path : string) : result (list step) :=
  match path with
  | String c rest => if Ascii.eqb c "$"%char then lex rest PStart [] else Err bad_path
  | EmptyString => Err bad_path
  end.

(** Modelled from the spec: reading a path. "Operators on missing paths
    return null" (spec, section 4.1). *)
Fixpoint GetJSONPath (steps : list step) (d : Doc) : Doc :=
  match steps with
  | [] => d
  | Field f :: steps =>
      match d with
      | DMap m => match m !! f with Some x => GetJSONPath steps x | None => DNull end
      | _ => DNull
      end
  | Index i :: steps =>
      match d with
      | DList l => match l !! i with Some x => GetJSONPath steps x | None => DNull end
      | _ => DNull
      end
  end.

(** [l] extended with nulls so that index [i] exists. *)
Definition pad (l : list Doc) (i : nat) : list Doc :=
  l ++ replicate (S i - length l) DNull.

(** Modelled from the spec: writing through a path. "As an lvalue in a dict
    literal the path constructs missing intermediate mappings; numeric steps
    in lvalue position create lists padded with null" (spec, section 4.1). *)
Fixpoint SetJSONPath (steps : list step) (value : Doc) (target : Doc) : result Doc :=
  match steps with
  | [] => Ok value
  | Field f :: steps =>
      match target with
      | DMap m =>
          child ← SetJSONPath steps value (default DNull (m !! f));
          Ok (DMap (<[f := child]> m))
      | DNull =>
          child ← SetJSONPath steps value DNull;
          Ok (DMap {[f := child]})
      | _ => Err (errors_New "cannot set a field of a value that is not a mapping")
      end
  | Index i :: steps =>
      match target with
      | DList l =>
          child ← SetJSONPath steps value (default DNull (pad l i !! i));
          Ok (DList (<[i := child]> (pad l i)))
      | DNull =>
          child ← SetJSONPath steps value DNull;
          Ok (DList (<[i := child]> (pad [] i)))
      | _ => Err (errors_New "cannot set an index of a value that is not a list")
      end
  end.

Definition is_path (s : string) : bool :=
  match s with String c _ => Ascii.eqb c "$"%char | EmptyString => false end.
Definition is_local_path (s : string) : bool :=
  match s with String c s => Ascii.eqb c "$"%char && is_path s | EmptyString => false end.
Definition is_op (s : string) : bool :=
  match s with String c _ => Ascii.eqb c "@"%char | EmptyString => false end.

(** One entry [key: value] of a dict literal written into the result [acc]:
    a key that is a path is a setter, with the root ([$.]) taking a mapping
    as the new contents; "later writes overlay earlier" (spec, section 4.1). *)
Definition setKey (key : string) (value : Doc) (acc : Doc) : result Doc :=
  if is_path key then
    steps ← parseJSONPath key;
    match steps with
    | [] =>
        match value with
        | DMap m => Ok (DMap m)
        | _ => Err (errors_New "cannot copy a value that is not a mapping into the root")
        end
    | _ => SetJSONPath steps value acc
    end
  else
    match acc with
    | DMap m => Ok (DMap (<[key := value]> m))
    | _ => Err (errors_New "cannot set a key of a value that is not a mapping")
    end.

Definition AsBool (d : Doc) : result bool :=
  match d with
  | DBool b => Ok b
  | _ => Err (fmt_Errorf "argument is not a boolean: %q" [fmt_v d])
  end.

Definition AsObject (d : Doc) : result unstruct :=
  match d with
  | DMap m => Ok m
  | _ => Err (fmt_Errorf "argument is not an object: %q" [fmt_v d])
  end.

Definition AsList (d : Doc) : result (list Doc) :=
  match d with
  | DList l => Ok l
  | _ => Err (fmt_Errorf "argument is not a list: %q" [fmt_v d])
  end.

(** Modelled from the spec: [Expression.Evaluate] of pkg/expression is not in
    the sources. Spec, section 4.1, for this fragment: the scalar literals; a
    [@string] whose content starts with [$] ([$$]) read as a path into the
    object (the local document); [@list]; [@dict] with setter keys; and, on a
    materialised list argument, [@eq] (2, structural equality), [@not] (1,
    bool), [@isnil] (1) and [@len] (1). Any other operator tag is refused as
    an Expression error, as unknown tags are. *)
Fixpoint Evaluate (e : expression.Expression) (ctx : expression.EvalCtx) {struct e}
  : result Doc :=
  match e with
  | expression.mkExpression op arg lit =>
    if decide (op = "@bool") then
      match lit with
      | expression.LitBool b => Ok (DBool b)
      | _ => Err (errors_New "invalid bool literal")
      end
    else if decide (op = "@int") then
      match lit with
      | expression.LitInt z => Ok (DInt z)
      | _ => Err (errors_New "invalid int literal")
      end
    else if decide (op = "@float") then
      match lit with
      | expression.LitFloat f => Ok (DFloat f)
      | _ => Err (errors_New "invalid float literal")
      end
    else if decide (op = "@string") then
      match lit with
      | expression.LitString s =>
          if is_local_path s then
            match s with
            | String _ s =>
                steps ← parseJSONPath s;
                Ok (GetJSONPath steps (default DNull (expression.LocalObject ctx)))
            | EmptyString => Ok (DString s)
            end
          else if is_path s then
            steps ← parseJSONPath s;
            Ok (GetJSONPath steps (DMap (expression.Object ctx)))
          else Ok (DString s)
      | _ => Err (errors_New "invalid string literal")
      end
    else if decide (op = "@list") then
      match lit with
      | expression.LitList es =>
          vs ← (fix go (es : list expression.Expression) : result (list Doc) :=
                  match es with
                  | [] => Ok []
                  | e :: es => v ← Evaluate e ctx; vs ← go es; Ok (v :: vs)
                  end) es;
          Ok (DList vs)
      | _ => Err (errors_New "invalid list literal")
      end
    else if decide (op = "@dict") then
      match lit with
      | expression.LitDict kvs =>
          (fix go (kvs : list (string * expression.Expression)) (acc : Doc) : result Doc :=
             match kvs with
             | [] => Ok acc
             | (k, e) :: kvs => v ← Evaluate e ctx; acc ← setKey k v acc; go kvs acc
             end) kvs (DMap ∅)
      | _ => Err (errors_New "invalid dict literal")
      end
    else
      match arg with
      | None => Err (fmt_Errorf "operator %q without argument" [fmt_s op])
      | Some arg =>
          v ← Evaluate arg ctx;
          args ← AsList v;
          if decide (op = "@eq") then
            match args with
            | [x; y] => Ok (DBool (Doc_eqb x y))
            | _ => Err (errors_New "@eq: expected 2 arguments")
            end
          else if decide (op = "@not") then
            match args with
            | [x] => b ← AsBool x; Ok (DBool (negb b))
            | _ => Err (errors_New "@not: expected 1 argument")
            end
          else if decide (op = "@isnil") then
            match args with
            | [x] => Ok (DBool (match x with DNull => true | _ => false end))
            | _ => Err (errors_New "@isnil: expected 1 argument")
            end
          else if decide (op = "@len") then
            match args with
            | [x] => l ← AsList x; Ok (DInt (Z.of_nat (length l)))
            | _ => Err (errors_New "@len: expected 1 argument")
            end
          else Err (fmt_Errorf "unknown operator %q" [fmt_s op])
      end
  end.

(** Modelled from the spec: the deserialiser of an expression is not in the
    sources. Spec, section 4.1, surface parsing rules: a scalar becomes the
    literal of its type, a sequence an [@list], a mapping whose keys all start
    with [@] the call of its single operator on the parsed operand ([@dict]
    taking the mapping literal itself), any other mapping a dict literal. *)
Fixpoint Unmarshal (d : Doc) {struct d} : result expression.Expression :=
  match d with
  | DNull => Err (errors_New "JSON parsing error: null")
  | DBool b => Ok (expression.mkExpression "@bool" None (expression.LitBool b))
  | DInt z => Ok (expression.mkExpression "@int" None (expression.LitInt z))
  | DFloat f => Ok (expression.mkExpression "@float" None (expression.LitFloat f))
  | DString s => Ok (expression.mkExpression "@string" None (expression.LitString s))
  | DList l =>
      es ← (fix go (l : list Doc) : result (list expression.Expression) :=
              match l with
              | [] => Ok []
              | d :: l => e ← Unmarshal d; es ← go l; Ok (e :: es)
              end) l;
      Ok (expression.mkExpression "@list" None (expression.LitList es))
  | DMap m =>
      let kvs := map_to_list (Unmarshal <$> m) in
      if forallb (λ kv, is_op kv.1) kvs && negb (bool_decide (kvs = [])) then
        match kvs with
        | [(op, operand)] =>
            arg ← operand;
            if decide (op = "@dict") then
              match arg with
              | expression.mkExpression "@dict" None lit => Ok arg
              | _ => Err (errors_New "JSON parsing error: @dict expects a mapping")
              end
            else Ok (expression.mkExpression op (Some arg) expression.LitNil)
        | _ => Err (errors_New "JSON parsing error: expected exactly one operator")
        end
      else
        kvs ← foldlM (λ acc kv, e ← kv.2; Ok (acc ++ [(kv.1, e)])) [] kvs;
        Ok (expression.mkExpression "@dict" None (expression.LitDict kvs))
  end.

(** [Expression.String()], here the operator tag alone. *)
Definition String (e : expression.Expression) : string := expression.Op e.

Definition pkg : expression.Pkg := {|
  expression.Evaluate := Evaluate;
  expression.AsBool := AsBool;
  expression.AsObject := AsObject;
  expression.String := String;
|}.

End evaluator.

(** ** View objects: an implementation of the object operations *)

Module viewobject.

(** Modelled from the spec: the view object of pkg/object is not in the
    sources. An object is its kind, the name and namespace set on it (if any),
    and the content it was given. The identity set through [SetName]/[SetNamespace]
    stays with the object when its content is replaced; an object that was
    given no name of its own is named by its content's [metadata]. *)
Record ViewObject : Type := mkViewObject {
  kind : gvk;
  name : option string;
  namespace : option string;
  content : unstruct;
}.

Definition nestedString (c : unstruct) (section field : string) : string :=
  match c !! section with
  | Some (DMap m) => match m !! field with Some (DString s) => s | _ => "" end
  | _ => ""
  end.

Definition NewViewObject (view : string) : ViewObject :=
  mkViewObject (schema.mkGVK "view.dcontroller.io" "v1alpha1" view) None None ∅.

(** An object of an arbitrary kind, as a source delivers it. *)
Definition New (g : gvk) (c : unstruct) : ViewObject := mkViewObject g None None c.

Definition GetName (o : ViewObject) : string :=
  match name o with Some n => n | None => nestedString (content o) "metadata" "name" end.

Definition GetNamespace (o : ViewObject) : string :=
  match namespace o with
  | Some ns => ns
  | None => nestedString (content o) "metadata" "namespace"
  end.

Definition SetName (o : ViewObject) (n : string) : ViewObject :=
  mkViewObject (kind o) (Some n) (namespace o) (content o).

Definition SetNamespace (o : ViewObject) (ns : string) : ViewObject :=
  mkViewObject (kind o) (name o) (Some ns) (content o).

Definition SetContent (o : ViewObject) (c : unstruct) : ViewObject :=
  mkViewObject (kind o) (name o) (namespace o) c.

Definition setField (field : string) (v : option string) (m : unstruct) : unstruct :=
  match v with Some s => <[field := DString s]> m | None => m end.

Definition UnstructuredContent (o : ViewObject) : unstruct :=
  let c := content o in
  let c :=
    match name o, namespace o with
    | None, None => c
    | n, ns =>
        let meta := match c !! "metadata" with Some (DMap m) => m | _ => ∅ end in
        <["metadata" := DMap (setField "namespace" ns (setField "name" n meta))]> c
    end in
  <["apiVersion" := DString (schema.Group (kind o) +:+ "/" +:+ schema.Version (kind o))]>
    (<["kind" := DString (schema.Kind (kind o))]> c).

Definition DeepEqual (a b : ViewObject) : bool :=
  Doc_eqb (DMap (UnstructuredContent a)) (DMap (UnstructuredContent b)).

Definition pkg : object.Pkg := {|
  object.Object := ViewObject;
  object.NewViewObject := NewViewObject;
  object.GroupVersionKind := kind;
  object.GetName := GetName;
  object.GetNamespace := GetNamespace;
  object.SetName := SetName;
  object.SetNamespace := SetNamespace;
  object.SetContent := SetContent;
  object.UnstructuredContent := UnstructuredContent;
  object.DeepCopy := λ o, o;
  object.DeepEqual := DeepEqual;
|}.

End viewobject.

(** ** pkg/object: copying and merging arbitrary values *)

Module objectutil.

(** [DeepCopyAny] clones an arbitrary value. *)
Fixpoint DeepCopyAny (value : Doc) : Doc :=
  match value with
  | DList v => DList (DeepCopyAny <$> v)
  | DMap v => DMap (DeepCopyAny <$> v)
  | v => v
  end.

(** [MergeAny] merges two arbitrary values. The two loops over the keys of
    [va] and of [vb] run here in the key order of the maps; Go leaves the
    order open, which shows only in which of several errors is returned. *)
Fixpoint MergeAny (a b : Doc) {struct b} : result Doc :=
  match a with
  | DNull => Ok b
  | _ =>
    match b with
    | DBool _ | DInt _ | DFloat _ | DString _ => Ok b
    | DList vb =>
        match a with
        | DList va => Ok (DList (va ++ vb))
        | _ => Ok (DList vb)
        end
    | DMap vb =>
        match a with
        | DMap va =>
            let merge := (λ mvb mva, MergeAny mva mvb) <$> vb in
            match DeepCopyAny (DMap va) with
            | DMap ret =>
                ret ← foldlM (λ ret kv,
                        match merge !! kv.1 with
                        | Some mergeWith =>
                            x ← mergeWith kv.2;
                            Ok (<[kv.1 := x]> ret)
                        | None => Ok (<[kv.1 := kv.2]> ret)
                        end) ret (map_to_list va);
                Ok (DMap (foldl (λ ret kv,
                                 match va !! kv.1 with
                                 | None => <[kv.1 := kv.2]> ret
                                 | Some _ => ret
                                 end) ret (map_to_list vb)))
            | _ => Panic
            end
        | _ => Ok (DMap vb)
        end
    | DNull =>
        Err (fmt_Errorf "could not merge argument %q and %q" [fmt_v a; fmt_v b])
    end
  end.

End objectutil.

(** ** pkg/reconciler: the resources a controller watches *)

Module reconciler.

(** [opv1a1.Resource{Group, Version, Kind}]; a nil [*string] is [None]. *)
Record Resource : Type := mkResource {
  Group : option string;
  Version : option string;
  Kind : string;
}.

Section Resource.
(** [viewv1a1.GroupVersion], the group and version of the views. *)
Variable GroupVersion : schema.GroupVersion.
(** [r.mgr.GetRESTMapper().KindFor], the lookup of a native kind. *)
Variable KindFor : schema.GroupVersionResource → result gvk.
(** [util.Stringify] of the resource *)
Variable Stringify : Resource → string.

Definition getGVKByGroupKind (gr : schema.GroupKind) : result gvk :=
  if decide (schema.gkGroup gr = schema.gvGroup GroupVersion) then
    Ok (schema.mkGVK (schema.gvGroup GroupVersion) (schema.gvVersion GroupVersion)
                     (schema.gkKind gr))
  else
    (* standard Kubernetes object *)
    wrap_err (λ err, fmt_Errorf "cannot find GVK for %s: %w"
                       [fmt_s (schema.GroupKind_String gr); fmt_w err])
             (KindFor (schema.mkGVR (schema.gkGroup gr) "" (schema.gkKind gr))).

Definition GetGVK (r : Resource) : result gvk :=
  if decide (Kind r = "") then
    Err (fmt_Errorf "empty Kind in %s" [fmt_s (Stringify r)])
  else
    match Group r with
    | None =>
        (* this will be a View, version is enforced *)
        getGVKByGroupKind (schema.mkGK (schema.gvGroup GroupVersion) (Kind r))
    | Some group =>
        if decide (group = schema.gvGroup GroupVersion) then
          getGVKByGroupKind (schema.mkGK (schema.gvGroup GroupVersion) (Kind r))
        else
          (* this will be a standard Kubernetes object *)
          match Version r with
          | None => getGVKByGroupKind (schema.mkGK group (Kind r))
          | Some version => Ok (schema.mkGVK group version (Kind r))
          end
    end.

(** [resource.String]: empty when the kind cannot be resolved. *)
Definition String (r : Resource) : result string :=
  match GetGVK r with
  | Err _ => Ok ""
  | Panic => Panic
  | Ok gvk =>
      (* do not use the standard notation: it adds spaces *)
      let gr := schema.Group gvk in
      let gr := if decide (gr = "") then "core" else gr in
      Ok (gr +:+ "/" +:+ schema.Version gvk +:+ ":" +:+ schema.Kind gvk)
  end.

End Resource.

End reconciler.

(** * Properties

    ** Vocabulary of the statements *)

Section Vocabulary.
Context `{object.Pkg} `{expression.Pkg}.

(** The engine once the store of kind [g] exists ([initViewStore]). *)
Definition withViewStore (g : gvk) (eng : pipeline.defaultEngine) : pipeline.defaultEngine :=
  (pipeline.initViewStore g eng).2.

(** The store of kind [g], empty when the engine holds none yet. *)
Definition storeOf (eng : pipeline.defaultEngine) (g : gvk) : Store :=
  default cache.NewStore (pipeline.baseViewStore eng !! g).

(** The version of an object the engine currently stores under a key. *)
Definition stored (eng : pipeline.defaultEngine) (g : gvk) (key : string)
  : option object.Object :=
  storeOf eng g !! key.

Definition key_of (obj : object.Object) : string :=
  toolscache.String (pipeline.ObjectKey obj).

(** The engine with [store] as its store of kind [g]. *)
Definition setStore (g : gvk) (store : Store) (eng : pipeline.defaultEngine)
  : pipeline.defaultEngine :=
  (pipeline.putStore g store eng).2.

(** The delta an upsert is handled as ([handleUpsertEvent]). *)
Definition reclassify (eng : pipeline.defaultEngine) (delta : cache.Delta)
    (obj : object.Object) : cache.Delta :=
  if decide (cache.Type_ delta = cache.Upserted) then
    match stored eng (object.GroupVersionKind obj) (key_of obj) with
    | Some _ => cache.mkDelta cache.Updated (Some obj)
    | None => cache.mkDelta cache.Added (Some obj)
    end
  else delta.

(** The object equals the version stored under its key. *)
Definition duplicate (eng : pipeline.defaultEngine) (obj : object.Object) : bool :=
  match stored eng (object.GroupVersionKind obj) (key_of obj) with
  | Some old => object.DeepEqual obj old
  | None => false
  end.

(** Two objects carry the same identity, as [containsDelta] compares them:
    by kind and name. *)
Definition sameIdentity (a b : object.Object) : bool :=
  bool_decide (object.GroupVersionKind a = object.GroupVersionKind b)
  && bool_decide (object.GetName a = object.GetName b).

(** [l] holds an object of the identity of [o]. *)
Definition present (l : list object.Object) (o : object.Object) : bool :=
  existsb (sameIdentity o) l.

Definition deltas (t : cache.DeltaType) (objs : list object.Object) : list cache.Delta :=
  (λ o, cache.mkDelta t (Some o)) <$> objs.

(** The deltas replayed as a delete followed by an add: [Updated],
    [Replaced], and an upsert of an object that is in the store. *)
Definition update_like (eng : pipeline.defaultEngine) (delta : cache.Delta)
    (obj : object.Object) : Prop :=
  cache.Type_ delta = cache.Updated ∨ cache.Type_ delta = cache.Replaced
  ∨ (cache.Type_ delta = cache.Upserted
     ∧ is_Some (stored eng (object.GroupVersionKind obj) (key_of obj))).

(** Every store holds after the event what it held before it. *)
Definition same_contents (eng eng' : pipeline.defaultEngine) : Prop :=
  ∀ g key, stored eng' g key = stored eng g key.

(** The engine once the delete half of an update of [obj] has removed the
    stored version [old]. *)
Definition delete_half_done (eng : pipeline.defaultEngine) (obj old : object.Object)
  : pipeline.defaultEngine :=
  setStore (object.GroupVersionKind obj)
    (delete (cache.KeyFunc old) (storeOf eng (object.GroupVersionKind obj)))
    (withViewStore (object.GroupVersionKind obj) eng).

(** What a base view contributes at its slot of a combination: the incoming
    object for its own kind, nil for a kind the engine holds no store of, the
    stored objects otherwise. *)
Definition slot (eng : pipeline.defaultEngine) (obj : object.Object) (view : gvk)
  : list (option object.Object) :=
  if decide (object.GroupVersionKind obj = view) then [Some obj]
  else match pipeline.baseViewStore eng !! view with
       | None => [None]
       | Some store => Some <$> cache.List store
       end.

(** The Cartesian product of the slots, in the order [recurseProd] visits it. *)
Fixpoint combinations (eng : pipeline.defaultEngine) (obj : object.Object)
    (views : list gvk) : list (list (option object.Object)) :=
  match views with
  | [] => [[]]
  | view :: views =>
      x ← slot eng obj view; (λ c, x :: c) <$> combinations eng obj views
  end.

(** One combination evaluated and, on a match, appended to the result. *)
Definition collect (eval : pipeline.joinEvalFunc) (obj : object.Object)
    (ret : list object.Object) (c : list (option object.Object))
  : result (list object.Object) :=
  newObj ← eval obj c;
  match newObj with
  | Some newObj => Ok (ret ++ [newObj])
  | None => Ok ret
  end.

(** What the tests of pkg/object state about the accessors: a name and a
    namespace set on an object are read back, and the kind of a view object
    is the view it was created for, whatever is set on it later. *)
Class IdentityLaws : Prop := {
  GetName_SetName o n : object.GetName (object.SetName o n) = n;
  GetName_SetNamespace o ns : object.GetName (object.SetNamespace o ns) = object.GetName o;
  GetNamespace_SetNamespace o ns : object.GetNamespace (object.SetNamespace o ns) = ns;
  Kind_NewViewObject view :
    schema.Kind (object.GroupVersionKind (object.NewViewObject view)) = view;
  GroupVersionKind_SetName o n :
    object.GroupVersionKind (object.SetName o n) = object.GroupVersionKind o;
  GroupVersionKind_SetNamespace o ns :
    object.GroupVersionKind (object.SetNamespace o ns) = object.GroupVersionKind o;
  GroupVersionKind_SetContent o c :
    object.GroupVersionKind (object.SetContent o c) = object.GroupVersionKind o;
}.

(** The non-empty string name held by the [metadata] mapping of a content. *)
Definition metadata_name (content : unstruct) : option string :=
  match content !! "metadata" with
  | Some (DMap metaMap) =>
      match metaMap !! "name" with
      | Some (DString n) => if decide (n = "") then None else Some n
      | _ => None
      end
  | _ => None
  end.

(** The [metadata] mapping has a namespace that is not a string. *)
Definition bad_namespace (content : unstruct) : bool :=
  match content !! "metadata" with
  | Some (DMap metaMap) =>
      match metaMap !! "namespace" with
      | Some v => negb (is_string v)
      | None => false
      end
  | _ => false
  end.

(** The namespace of the [metadata] mapping, empty when there is none. *)
Definition metadata_namespace (content : unstruct) : string :=
  match content !! "metadata" with
  | Some (DMap metaMap) =>
      match metaMap !! "namespace" with
      | Some (DString ns) => ns
      | _ => ""
      end
  | _ => ""
  end.

Definition is_invalid_object_error (e : error) : Prop :=
  ∃ message, e = pipeline.NewInvalidObjectError message.

End Vocabulary.

(** ** Vocabulary of the further properties *)

Section MoreVocabulary.
Context `{object.Pkg} `{expression.Pkg}.

(** Every stored object sits in the store of its kind under its own key. *)
Definition consistent (eng : pipeline.defaultEngine) : Prop :=
  ∀ g key o, stored eng g key = Some o →
             object.GroupVersionKind o = g ∧ cache.KeyFunc o = key.

(** The stores of [eng'] hold what those of [eng] held, except that entries
    may be gone and that [obj] may be stored under its own key. *)
Definition touches_only (obj : option object.Object) (eng eng' : pipeline.defaultEngine)
  : Prop :=
  ∀ g key o, stored eng' g key = Some o →
             stored eng g key = Some o
             ∨ (obj = Some o ∧ g = object.GroupVersionKind o ∧ key = cache.KeyFunc o).

End MoreVocabulary.

(** A document that is nil or holds a nil under its mappings, at any depth
    (the elements of lists are not looked into). *)
Fixpoint has_nil (d : Doc) : bool :=
  match d with
  | DNull => true
  | DMap m => map_fold (λ _ b acc, b || acc) false (has_nil <$> m)
  | _ => false
  end.

(** ** A running example

    Two base views, [pod] and [dep], the pipelines of the examples, and the
    engines they run on. The objects are view objects and the expressions are
    evaluated by the evaluator above. *)

Module scenario.

#[local] Existing Instance viewobject.pkg.
#[local] Existing Instance evaluator.pkg.

Definition view (kind : string) : gvk := schema.mkGVK "view.dcontroller.io" "v1alpha1" kind.

(** An object of a view with a namespace, a name and a [spec]. *)
Definition obj (kind ns name : string) (spec : unstruct) : viewobject.ViewObject :=
  viewobject.New (view kind)
    {[ "metadata" := DMap {[ "namespace" := DString ns; "name" := DString name ]};
       "spec" := DMap spec ]}.

Definition path (p : string) : expression.Expression :=
  expression.mkExpression "@string" None (expression.LitString p).

Definition call (op : string) (args : list expression.Expression) : expression.Expression :=
  expression.mkExpression op
    (Some (expression.mkExpression "@list" None (expression.LitList args)))
    expression.LitNil.

Definition stage (op : string) (arg : expression.Expression) : expression.Expression :=
  expression.mkExpression op (Some arg) expression.LitNil.

(** [@aggregate: [{"@select": "$.spec.ok"}]] *)
Definition selectOk : pipeline.Aggregation :=
  pipeline.mkAggregation [stage "@select" (path "$.spec.ok")].

(** [@join: {"@eq": ["$.pod.spec.app", "$.dep.spec.app"]}] *)
Definition sameApp : pipeline.Join :=
  pipeline.mkJoin (call "@eq" [path "$.pod.spec.app"; path "$.dep.spec.app"]).

(** [@join: {"@not": ["$.dep.spec.paused"]}], which does not tolerate a nil [dep]. *)
Definition notPaused : pipeline.Join :=
  pipeline.mkJoin (call "@not" [path "$.dep.spec.paused"]).

Definition oldPod := obj "pod" "default" "a" {[ "ok" := DBool true; "app" := DString "x" ]}.
Definition newPod := obj "pod" "default" "a" {[ "ok" := DString "yes"; "app" := DString "y" ]}.
Definition dep1 := obj "dep" "default" "d1" {[ "app" := DString "x" ]}.
Definition dep2 := obj "dep" "default" "d2" {[ "app" := DString "y" ]}.

Definition mkEngine (stores : gmap gvk (gmap string viewobject.ViewObject))
  : pipeline.defaultEngine :=
  pipeline.mkEngine "view" [view "pod"; view "dep"] stores.

(** No object seen yet. *)
Definition fresh := mkEngine ∅.

(** [oldPod] and the two deployments are stored. *)
Definition running :=
  mkEngine {[ view "pod" := {[ "default/a" := oldPod ]};
              view "dep" := {[ "default/d1" := dep1; "default/d2" := dep2 ]} ]}.

Definition updated (o : viewobject.ViewObject) : cache.Delta :=
  cache.mkDelta cache.Updated (Some o).
Definition added (o : viewobject.ViewObject) : cache.Delta :=
  cache.mkDelta cache.Added (Some o).

Definition upserted (o : viewobject.ViewObject) : cache.Delta :=
  cache.mkDelta cache.Upserted (Some o).
Definition unchanged (o : viewobject.ViewObject) : cache.Delta :=
  cache.mkDelta cache.Unchanged (Some o).

(** The update of the stored pod by a version on which [selectOk] fails. *)
Definition failedUpdate :=
  pipeline.EvaluateAggregation
    selectOk (updated newPod) running.

Definition failure : error :=
  match failedUpdate.1 with Err e => e | _ => errors_New "no error" end.

(** The outputs of the two halves of the update of the stored pod through [sameApp]. *)
Definition outputs (eng : pipeline.defaultEngine)
    (o : viewobject.ViewObject) : list viewobject.ViewObject :=
  match pipeline.evalJoin eng sameApp o with
  | Ok os => os
  | _ => []
  end.

Definition deleteHalf := outputs running oldPod.
Definition addHalf :=
  outputs (delete_half_done running newPod oldPod) newPod.

(** [{"$.y[3]": 12}] and the expression it deserialises to. *)
Definition setterDoc : Doc := DMap {[ "$.y[3]" := DInt 12 ]}.
Definition setter : expression.Expression :=
  expression.mkExpression "@dict" None
    (expression.LitDict
       [("$.y[3]", expression.mkExpression "@int" None (expression.LitInt 12))]).

(** A content with a name and no namespace. *)
Definition named : unstruct := {[ "metadata" := DMap {[ "name" := DString "n" ]} ]}.

(** The types and names of a list of deltas. *)
Definition summary (r : result (list (cache.Delta)))
  : list (cache.DeltaType * option string) :=
  match r with
  | Ok ds => (λ d, (cache.Type_ d, object.GetName <$> cache.Object d)) <$> ds
  | _ => []
  end.

(** *** Further objects and engines *)

Definition deleted (o : viewobject.ViewObject) : cache.Delta :=
  cache.mkDelta cache.Deleted (Some o).

(** The stored pod with another [spec], still selected by [selectOk]. *)
Definition okPod := obj "pod" "default" "a" {[ "ok" := DBool true; "app" := DString "z" ]}.
(** A pod that [selectOk] drops. *)
Definition offPod := obj "pod" "default" "b" {[ "ok" := DBool false ]}.

(** An engine with a single base view. *)
Definition lonely : pipeline.defaultEngine := pipeline.mkEngine "view" [view "pod"] ∅.
(** An engine whose store of deployments exists and is empty. *)
Definition drained := mkEngine {[ view "dep" := ∅ ]}.

(** The deltas and the engine of an evaluation. *)
Definition out (r : result (list cache.Delta) * pipeline.defaultEngine) : list cache.Delta :=
  match r.1 with Ok ds => ds | _ => [] end.

Definition addedOld := pipeline.EvaluateAggregation selectOk (added oldPod) fresh.

(** The objects [selectOk] maps an object to. *)
Definition aggregated (o : viewobject.ViewObject) : list viewobject.ViewObject :=
  match pipeline.evalAggregation running selectOk o with Ok objs => objs | _ => [] end.

(** The setup of the resources of a controller: the REST mapper knows no kind. *)
Definition viewGroupVersion : schema.GroupVersion := schema.mkGV "view.dcontroller.io" "v1alpha1".
Definition noMapper (gvr : schema.GroupVersionResource) : result gvk :=
  Err (errors_New "no matches for kind").

(** Two mappings with the key [a] in common, and one without. *)
Definition leftMap : gmap string Doc := {[ "a" := DInt 1 ]}.
Definition rightMap : gmap string Doc := {[ "a" := DInt 2; "b" := DInt 3 ]}.
Definition otherMap : gmap string Doc := {[ "c" := DInt 4 ]}.

(** A view resource that names a version of its own. *)
Definition podResource : reconciler.Resource := reconciler.mkResource None (Some "v9") "pod".

End scenario.

(** ** The delta engine *)

Section EngineFacts.
Context `{object.Pkg} `{expression.Pkg}.
Implicit Types (eng : pipeline.defaultEngine) (delta : cache.Delta) (obj : object.Object).

Ltac unfold_M :=
  unfold mbind, mret, pipeline.M_bind, pipeline.M_ret, pipeline.lift, pipeline.ask,
    pipeline.wrap in *.

(** The two unfoldings of the bodies are the recursive functions of the
    source: each satisfies its own defining equation. *)
Lemma evaluateAggregation_unfold a delta eng :
  pipeline.evaluateAggregation a delta eng
  = pipeline.evaluateAggregation_body pipeline.evaluateAggregation a delta eng.
Proof. destruct delta as [[] [obj|]]; reflexivity. Qed.

Lemma evaluateJoin_unfold j delta eng :
  pipeline.evaluateJoin j delta eng
  = pipeline.evaluateJoin_body pipeline.evaluateJoin j delta eng.
Proof. destruct delta as [t [obj|]]; reflexivity. Qed.

Lemma initViewStore_run g eng :
  pipeline.initViewStore g eng = (Ok (), withViewStore g eng).
Proof.
  unfold withViewStore, pipeline.initViewStore, pipeline.putStore.
  by destruct (pipeline.baseViewStore eng !! g).
Qed.

Lemma baseViewStore_withViewStore g eng :
  pipeline.baseViewStore (withViewStore g eng) !! g = Some (storeOf eng g).
Proof.
  unfold withViewStore, storeOf, pipeline.initViewStore, pipeline.putStore.
  destruct (pipeline.baseViewStore eng !! g) eqn:E; simpl; [done|].
  by rewrite lookup_insert_eq.
Qed.

Lemma withViewStore_idem g eng :
  withViewStore g (withViewStore g eng) = withViewStore g eng.
Proof.
  unfold withViewStore at 1. unfold pipeline.initViewStore.
  by rewrite baseViewStore_withViewStore.
Qed.

Lemma withViewStore_present g eng s :
  pipeline.baseViewStore eng !! g = Some s → withViewStore g eng = eng.
Proof.
  intros E. unfold withViewStore, pipeline.initViewStore. by rewrite E.
Qed.

Lemma storeOf_withViewStore g g' eng :
  storeOf (withViewStore g eng) g' = storeOf eng g'.
Proof.
  unfold storeOf, withViewStore, pipeline.initViewStore, pipeline.putStore.
  destruct (pipeline.baseViewStore eng !! g) eqn:E; simpl; [done|].
  destruct (decide (g = g')) as [->|Hne].
  - by rewrite lookup_insert_eq, E.
  - by rewrite lookup_insert_ne.
Qed.

Lemma stored_withViewStore g g' eng key :
  stored (withViewStore g eng) g' key = stored eng g' key.
Proof. unfold stored. by rewrite storeOf_withViewStore. Qed.

Lemma getStore_withViewStore g eng :
  pipeline.getStore g (withViewStore g eng) = (Ok (storeOf eng g), withViewStore g eng).
Proof.
  unfold pipeline.getStore. by rewrite baseViewStore_withViewStore.
Qed.

Lemma IsValidEvent_run delta obj eng :
  cache.Object delta = Some obj →
  pipeline.IsValidEvent delta eng =
  (Ok (match cache.Type_ delta with
       | cache.Added | cache.Updated | cache.Upserted | cache.Replaced =>
           match stored eng (object.GroupVersionKind obj) (key_of obj) with
           | Some old => negb (object.DeepEqual obj old)
           | None => true
           end
       | _ => true
       end), withViewStore (object.GroupVersionKind obj) eng).
Proof.
  intros Hobj. unfold pipeline.IsValidEvent. rewrite Hobj.
  unfold_M. rewrite initViewStore_run.
  unfold stored, key_of.
  destruct (cache.Type_ delta); try done;
    rewrite getStore_withViewStore; unfold cache.GetByKey;
    by destruct (storeOf eng _ !! _).
Qed.

Lemma handleUpsertEvent_run delta obj eng :
  cache.Object delta = Some obj →
  pipeline.handleUpsertEvent delta (withViewStore (object.GroupVersionKind obj) eng)
  = (Ok (reclassify eng delta obj), withViewStore (object.GroupVersionKind obj) eng).
Proof.
  intros Hobj. unfold pipeline.handleUpsertEvent, reclassify.
  destruct (decide (cache.Type_ delta ≠ cache.Upserted)) as [Hne|He].
  - by rewrite decide_False.
  - apply dec_stable in He. rewrite decide_True by done. rewrite Hobj.
    unfold_M. rewrite getStore_withViewStore. unfold cache.Get, cache.GetByKey, stored, key_of.
    by destruct (storeOf eng _ !! _).
Qed.

Lemma reclassify_Object eng delta obj :
  cache.Object delta = Some obj → cache.Object (reclassify eng delta obj) = Some obj.
Proof.
  intros Hobj. unfold reclassify. case_decide; [|done]. by destruct (stored _ _ _).
Qed.

Lemma storeOf_Some eng g s : pipeline.baseViewStore eng !! g = Some s → storeOf eng g = s.
Proof. intros E. unfold storeOf. by rewrite E. Qed.

(** The leaves of the replay: an [Added] and a [Deleted] delta write the store
    only once the pipeline has been evaluated. *)
Lemma evaluateAggregation_Added a obj eng s :
  pipeline.baseViewStore eng !! object.GroupVersionKind obj = Some s →
  pipeline.evaluateAggregation a (cache.mkDelta cache.Added (Some obj)) eng =
  match pipeline.evalAggregation eng a (object.DeepCopy obj) with
  | Ok objs =>
      (Ok (deltas cache.Added objs),
       setStore (object.GroupVersionKind obj) (<[cache.KeyFunc obj := obj]> s) eng)
  | Err err =>
      (Err (pipeline.NewAggregationError
              (fmt_Errorf
                 "processing event %q: could not evaluate aggregation for new object %s: %w"
                 [fmt_s "Added"; fmt_s (key_of obj); fmt_w err])), eng)
  | Panic => (Panic, eng)
  end.
Proof.
  intros Hs. unfold pipeline.evaluateAggregation, pipeline.evaluateAggregation_body.
  simpl. unfold_M. unfold pipeline.getStore.
  destruct (pipeline.evalAggregation eng a (object.DeepCopy obj)) as [objs|e|]; simpl;
    [by rewrite Hs|done..].
Qed.

Lemma evaluateAggregation_Deleted a obj eng s :
  pipeline.baseViewStore eng !! object.GroupVersionKind obj = Some s →
  pipeline.evaluateAggregation a (cache.mkDelta cache.Deleted (Some obj)) eng =
  match s !! key_of obj with
  | None => (Ok [], eng)
  | Some old =>
      match pipeline.evalAggregation eng a (object.DeepCopy old) with
      | Ok objs =>
          (Ok (deltas cache.Deleted objs),
           setStore (object.GroupVersionKind obj) (delete (cache.KeyFunc old) s) eng)
      | Err err =>
          (Err (pipeline.NewAggregationError
                  (fmt_Errorf
                     "processing event %q: could not evaluate aggregation for deleted object %s: %w"
                     [fmt_s "Deleted"; fmt_s (key_of obj); fmt_w err])), eng)
      | Panic => (Panic, eng)
      end
  end.
Proof.
  intros Hs. unfold pipeline.evaluateAggregation, pipeline.evaluateAggregation_body.
  simpl. unfold_M. unfold pipeline.getStore. rewrite Hs. simpl.
  unfold key_of. destruct (s !! _) as [old|]; simpl; [|done].
  destruct (pipeline.evalAggregation eng a (object.DeepCopy old)) as [objs|e|]; simpl;
    [by rewrite Hs|done..].
Qed.

Lemma evaluateJoin_Deleted j obj eng :
  pipeline.evaluateJoin j (cache.mkDelta cache.Deleted (Some obj)) eng =
  match stored eng (object.GroupVersionKind obj) (key_of obj) with
  | None => (Ok [], withViewStore (object.GroupVersionKind obj) eng)
  | Some old =>
      match pipeline.evalJoin (withViewStore (object.GroupVersionKind obj) eng) j old with
      | Ok os =>
          (Ok (deltas cache.Deleted os),
           setStore (object.GroupVersionKind obj)
             (delete (cache.KeyFunc old) (storeOf eng (object.GroupVersionKind obj)))
             (withViewStore (object.GroupVersionKind obj) eng))
      | Err err =>
          (Err (pipeline.NewJoinError
                  (fmt_Errorf
                     "procesing event %q: could not evaluate join for deleted object %s: %w"
                     [fmt_s "Deleted"; fmt_s (key_of obj); fmt_w err])),
           withViewStore (object.GroupVersionKind obj) eng)
      | Panic => (Panic, withViewStore (object.GroupVersionKind obj) eng)
      end
  end.
Proof.
  unfold pipeline.evaluateJoin, pipeline.evaluateJoin_body.
  simpl. unfold_M. rewrite initViewStore_run.
  rewrite (IsValidEvent_run _ obj) by done. simpl.
  rewrite withViewStore_idem.
  rewrite getStore_withViewStore. simpl. unfold stored, key_of.
  destruct (storeOf eng _ !! _) as [old|]; simpl; [|done].
  destruct (pipeline.evalJoin _ j old) as [os|e|]; simpl;
    [by rewrite getStore_withViewStore|done..].
Qed.

Lemma evaluateJoin_Added j obj eng :
  pipeline.evaluateJoin j (cache.mkDelta cache.Added (Some obj)) eng =
  if duplicate eng obj then (Ok [], withViewStore (object.GroupVersionKind obj) eng)
  else
    match pipeline.evalJoin (withViewStore (object.GroupVersionKind obj) eng) j obj with
    | Ok os =>
        (Ok (deltas cache.Added os),
         setStore (object.GroupVersionKind obj)
           (<[cache.KeyFunc obj := obj]> (storeOf eng (object.GroupVersionKind obj)))
           (withViewStore (object.GroupVersionKind obj) eng))
    | Err err =>
        (Err (pipeline.NewJoinError
                (fmt_Errorf
                   "processing event %q: could not evaluate join for new object %s: %w"
                   [fmt_s "Added"; fmt_s (key_of obj); fmt_w err])),
         withViewStore (object.GroupVersionKind obj) eng)
    | Panic => (Panic, withViewStore (object.GroupVersionKind obj) eng)
    end.
Proof.
  unfold pipeline.evaluateJoin, pipeline.evaluateJoin_body.
  simpl. unfold_M. rewrite initViewStore_run.
  rewrite (IsValidEvent_run _ obj) by done. simpl.
  rewrite withViewStore_idem, stored_withViewStore. unfold duplicate.
  destruct (stored eng _ (key_of obj)) as [old|]; simpl;
    [destruct (object.DeepEqual obj old); simpl; [done|]|];
    (destruct (pipeline.evalJoin _ j obj) as [os|e|]; simpl;
     [by rewrite getStore_withViewStore|done..]).
Qed.

Lemma EvaluateAggregation_run a delta obj eng :
  cache.Object delta = Some obj →
  cache.Type_ delta ≠ cache.Unchanged →
  let g := object.GroupVersionKind obj in
  pipeline.EvaluateAggregation a delta eng =
  if match cache.Type_ delta with
     | cache.Added | cache.Updated | cache.Upserted | cache.Replaced => duplicate eng obj
     | _ => false
     end
  then (Ok [], withViewStore g eng)
  else pipeline.evaluateAggregation a (reclassify eng delta obj) (withViewStore g eng).
Proof.
  intros Hobj Hty g. unfold pipeline.EvaluateAggregation, cache.IsUnchanged.
  rewrite bool_decide_eq_false_2 by done. rewrite Hobj. fold g.
  unfold_M. rewrite initViewStore_run. rewrite (IsValidEvent_run _ obj) by done.
  fold g. rewrite withViewStore_idem, stored_withViewStore.
  unfold duplicate. fold g.
  subst g.
  destruct (cache.Type_ delta) eqn:Ety; try done; simpl;
    try (by rewrite handleUpsertEvent_run);
    (destruct (stored eng _ (key_of obj)) as [old|]; simpl;
     [destruct (object.DeepEqual obj old); simpl; [done|]|];
     by rewrite handleUpsertEvent_run).
Qed.

(** [Updated]/[Replaced] (and an upsert of a stored object) through
    [evaluateJoin]: a [Deleted] and an [Added] delta in sequence, then the diff. *)
Lemma evaluateJoin_Updated j delta obj eng :
  cache.Object delta = Some obj →
  update_like eng delta obj →
  duplicate eng obj = false →
  pipeline.EvaluateJoin j delta eng =
  (delDeltas ← pipeline.wrap pipeline.NewJoinError
                 (pipeline.evaluateJoin j (cache.mkDelta cache.Deleted (Some obj)));
   addDeltas ← pipeline.wrap pipeline.NewJoinError
                 (pipeline.evaluateJoin j (cache.mkDelta cache.Added (Some obj)));
   let '(a, m, d) := pipeline.diffDeltas delDeltas addDeltas in
   mret (d ++ m ++ a)) (withViewStore (object.GroupVersionKind obj) eng).
Proof.
  intros Hobj Hup Hdup. unfold pipeline.EvaluateJoin.
  unfold pipeline.evaluateJoin at 1. unfold pipeline.evaluateJoin_body at 1.
  rewrite Hobj.
  unfold_M. rewrite initViewStore_run.
  rewrite (IsValidEvent_run _ obj) by done.
  rewrite stored_withViewStore, withViewStore_idem.
  unfold duplicate in Hdup.
  assert (Hv : match cache.Type_ delta with
       | cache.Deleted | cache.Unchanged => true
       | _ =>
           match stored eng (object.GroupVersionKind obj) (key_of obj) with
           | Some old => negb (object.DeepEqual obj old)
           | None => true
           end
       end = true).
  { destruct (cache.Type_ delta); try done;
      destruct (stored eng _ _); try done; by rewrite Hdup. }
  rewrite Hv. cbn [negb]. cbv beta iota.
  rewrite handleUpsertEvent_run by done.
  assert (Hr : cache.Object (reclassify eng delta obj) = Some obj
               ∧ (cache.Type_ (reclassify eng delta obj) = cache.Updated
                  ∨ cache.Type_ (reclassify eng delta obj) = cache.Replaced)).
  { split; [by apply reclassify_Object|]. unfold reclassify.
    destruct Hup as [E|[E|[E [old Hold]]]]; rewrite E; simpl.
    - by left. - by right. - rewrite Hold. by left. }
  destruct Hr as [Hro Hrt]. rewrite Hro.
  destruct Hrt as [-> | ->]; reflexivity.
Qed.

Lemma setStore_setStore g s s' eng :
  setStore g s' (setStore g s eng) = setStore g s' eng.
Proof. unfold setStore, pipeline.putStore. simpl. by rewrite insert_insert_eq. Qed.

Lemma withViewStore_setStore g s eng :
  withViewStore g (setStore g s eng) = setStore g s eng.
Proof.
  apply (withViewStore_present _ _ s). unfold setStore, pipeline.putStore. simpl.
  by rewrite lookup_insert_eq.
Qed.

Lemma storeOf_setStore g s eng : storeOf (setStore g s eng) g = s.
Proof.
  unfold storeOf, setStore, pipeline.putStore. simpl. by rewrite lookup_insert_eq.
Qed.

Lemma foldl_snoc_filter {A B} (p : A → bool) (f : A → B) (l : list A) (acc : list B) :
  foldl (λ d x, if negb (p x) then d ++ [f x] else d) acc l
  = acc ++ (f <$> filter (λ x, p x = false) l).
Proof.
  revert acc. induction l as [|x l IH]; intros acc; simpl.
  - by rewrite app_nil_r.
  - rewrite IH, filter_cons. destruct (p x); simpl; [done|].
    by rewrite <- app_assoc.
Qed.

Lemma foldl_split_filter {A B} (p : A → bool) (f g : A → B) (l : list A) (a m : list B) :
  foldl (λ '(a, m) x, if p x then (a, m ++ [g x]) else (a ++ [f x], m)) (a, m) l
  = (a ++ (f <$> filter (λ x, p x = false) l), m ++ (g <$> filter (λ x, p x = true) l)).
Proof.
  revert a m. induction l as [|x l IH]; intros a m; simpl.
  - by rewrite !app_nil_r.
  - rewrite !filter_cons. destruct (p x); simpl; rewrite IH;
      by rewrite <- app_assoc.
Qed.

Lemma containsDelta_deltas t t' os o :
  pipeline.containsDelta (deltas t os) (cache.mkDelta t' (Some o)) = present os o.
Proof.
  unfold pipeline.containsDelta, present, deltas. simpl.
  induction os as [|x os IH]; simpl; [done|]. f_equal. exact IH.
Qed.

Lemma filter_deltas t (p : cache.Delta → bool) (q : object.Object → bool) os :
  (∀ o, p (cache.mkDelta t (Some o)) = q o) →
  ∀ b, filter (λ x, p x = b) (deltas t os) = deltas t (filter (λ o, q o = b) os).
Proof.
  intros Hpq b. unfold deltas. induction os as [|o os IH]; [done|].
  rewrite fmap_cons, !filter_cons, IH, Hpq. by destruct (decide (q o = b)).
Qed.

(** [diffDeltas] on the outputs of a delete half and of an add half. *)
Lemma diffDeltas_spec dels adds :
  pipeline.diffDeltas (deltas cache.Deleted dels) (deltas cache.Added adds)
  = (deltas cache.Added (filter (λ o, present dels o = false) adds),
     deltas cache.Updated (filter (λ o, present dels o = true) adds),
     deltas cache.Deleted (filter (λ o, present adds o = false) dels)).
Proof.
  unfold pipeline.diffDeltas.
  rewrite foldl_snoc_filter, foldl_split_filter. simpl.
  rewrite !(filter_deltas cache.Deleted _ (present adds))
    by (intros; apply containsDelta_deltas).
  rewrite !(filter_deltas cache.Added _ (present dels))
    by (intros; apply containsDelta_deltas).
  unfold deltas. by rewrite <- !list_fmap_compose.
Qed.

Lemma duplicate_after_delete g obj old eng :
  g = object.GroupVersionKind obj →
  stored eng g (key_of obj) = Some old →
  object.DeepEqual obj old = false →
  duplicate (setStore g (delete (cache.KeyFunc old) (storeOf eng g)) (withViewStore g eng)) obj
  = false.
Proof.
  intros -> Hold Hne. unfold duplicate, stored. rewrite storeOf_setStore.
  destruct (decide (cache.KeyFunc old = key_of obj)) as [->|Hk].
  - by rewrite lookup_delete_eq.
  - rewrite lookup_delete_ne by done. unfold stored in Hold. by rewrite Hold.
Qed.

Lemma EvaluateJoin_Upserted_absent j obj eng :
  stored eng (object.GroupVersionKind obj) (key_of obj) = None →
  pipeline.EvaluateJoin j (cache.mkDelta cache.Upserted (Some obj)) eng
  = pipeline.EvaluateJoin j (cache.mkDelta cache.Added (Some obj)) eng.
Proof.
  intros Habs.
  unfold pipeline.EvaluateJoin, pipeline.evaluateJoin.
  unfold pipeline.evaluateJoin_body at 1 3. simpl.
  unfold_M. rewrite initViewStore_run.
  rewrite !(IsValidEvent_run _ obj) by done. simpl.
  rewrite stored_withViewStore, withViewStore_idem, Habs. simpl.
  rewrite !handleUpsertEvent_run by done.
  unfold reclassify. simpl. by rewrite Habs.
Qed.

Lemma withViewStore_stored g key old eng :
  stored eng g key = Some old → withViewStore g eng = eng.
Proof.
  unfold stored, storeOf. intros Hold.
  destruct (pipeline.baseViewStore eng !! g) as [s|] eqn:E.
  - by apply (withViewStore_present _ _ s).
  - simpl in Hold. unfold cache.NewStore in Hold. by rewrite lookup_empty in Hold.
Qed.

Lemma EvaluateAggregation_duplicate a delta obj eng :
  cache.Object delta = Some obj →
  cache.Type_ delta = cache.Added ∨ cache.Type_ delta = cache.Updated
  ∨ cache.Type_ delta = cache.Upserted ∨ cache.Type_ delta = cache.Replaced →
  duplicate eng obj = true →
  pipeline.EvaluateAggregation a delta eng
  = (Ok [], withViewStore (object.GroupVersionKind obj) eng).
Proof.
  intros Hobj Hty Hdup.
  rewrite (EvaluateAggregation_run _ _ obj) by
    (try done; by destruct Hty as [->|[->|[->| ->]]]).
  rewrite Hdup. by destruct Hty as [->|[->|[->| ->]]].
Qed.

(** A failed [Updated]/[Replaced] delta through [evaluateAggregation]: the
    failure is that of the delete half, or the delete half went through and
    removed the stored version before the add half failed. *)
Lemma evaluateAggregation_Updated_Err a t obj eng s e eng' :
  t = cache.Updated ∨ t = cache.Replaced →
  pipeline.baseViewStore eng !! object.GroupVersionKind obj = Some s →
  pipeline.evaluateAggregation a (cache.mkDelta t (Some obj)) eng = (Err e, eng') →
  eng' = eng
  ∨ ∃ old objs,
      s !! key_of obj = Some old
      ∧ pipeline.evalAggregation eng a (object.DeepCopy old) = Ok objs
      ∧ is_Err (pipeline.evalAggregation
                  (setStore (object.GroupVersionKind obj) (delete (cache.KeyFunc old) s) eng)
                  a (object.DeepCopy obj))
      ∧ eng' = setStore (object.GroupVersionKind obj) (delete (cache.KeyFunc old) s) eng.
Proof.
  intros Ht Hs.
  assert (Hbody : pipeline.evaluateAggregation a (cache.mkDelta t (Some obj)) eng
    = pipeline.evaluateAggregation_body pipeline.evaluateAggregation a
        (cache.mkDelta t (Some obj)) eng) by (by destruct Ht as [-> | ->]).
  rewrite Hbody. clear Hbody. unfold pipeline.evaluateAggregation_body.
  assert (Hs' : ∀ s', pipeline.baseViewStore
                   (setStore (object.GroupVersionKind obj) s' eng)
                   !! object.GroupVersionKind obj = Some s').
  { intros s'. unfold setStore, pipeline.putStore. simpl. by rewrite lookup_insert_eq. }
  destruct Ht as [-> | ->]; simpl; unfold_M;
    rewrite (evaluateAggregation_Deleted _ _ _ s) by done;
    (destruct (s !! key_of obj) as [old|] eqn:Hold;
     [destruct (pipeline.evalAggregation eng a (object.DeepCopy old)) as [objs|err|] eqn:Hdel;
      [rewrite (evaluateAggregation_Added _ _ _ (delete (cache.KeyFunc old) s)) by done;
       destruct (pipeline.evalAggregation _ a (object.DeepCopy obj)) as [objs'|err'|] eqn:Hadd
      | |]
     |rewrite (evaluateAggregation_Added _ _ _ s) by done;
      destruct (pipeline.evalAggregation eng a (object.DeepCopy obj)) as [objs'|err'|] eqn:Hadd]);
    intros Hres;
    try (left; congruence);
    try (right; exists old, objs; split_and!; [done|done|by eexists|congruence]);
    try (exfalso; repeat case_match; simplify_eq).
Qed.

Lemma duplicate_withViewStore g eng obj :
  duplicate (withViewStore g eng) obj = duplicate eng obj.
Proof. unfold duplicate. by rewrite stored_withViewStore. Qed.

Lemma EvaluateJoin_Updated_Err j delta obj eng e eng' :
  cache.Object delta = Some obj →
  update_like eng delta obj →
  duplicate eng obj = false →
  pipeline.EvaluateJoin j delta eng = (Err e, eng') →
  eng' = withViewStore (object.GroupVersionKind obj) eng
  ∨ ∃ old os,
      stored eng (object.GroupVersionKind obj) (key_of obj) = Some old
      ∧ pipeline.evalJoin (withViewStore (object.GroupVersionKind obj) eng) j old = Ok os
      ∧ is_Err (pipeline.evalJoin
                  (setStore (object.GroupVersionKind obj)
                     (delete (cache.KeyFunc old) (storeOf eng (object.GroupVersionKind obj)))
                     (withViewStore (object.GroupVersionKind obj) eng)) j obj)
      ∧ eng' = setStore (object.GroupVersionKind obj)
                 (delete (cache.KeyFunc old) (storeOf eng (object.GroupVersionKind obj)))
                 (withViewStore (object.GroupVersionKind obj) eng).
Proof.
  intros Hobj Hup Hdup.
  rewrite (evaluateJoin_Updated j delta obj) by done.
  unfold_M.
  rewrite evaluateJoin_Deleted, stored_withViewStore, withViewStore_idem, storeOf_withViewStore.
  destruct (stored eng _ (key_of obj)) as [old|] eqn:Hold.
  - destruct (pipeline.evalJoin _ j old) as [os|err|] eqn:Hdel.
    + rewrite evaluateJoin_Added, withViewStore_setStore.
      rewrite duplicate_after_delete;
        [|done|done|unfold duplicate in Hdup; by rewrite Hold in Hdup].
      destruct (pipeline.evalJoin _ j obj) as [os'|err'|] eqn:Hadd; intros Hres.
      * exfalso. destruct (pipeline.diffDeltas _ _) as [[? ?] ?]. simplify_eq.
      * right. exists old, os. split_and!; [done|done|by eexists|congruence].
      * congruence.
    + intros Hres. left. congruence.
    + congruence.
  - rewrite evaluateJoin_Added, withViewStore_idem, duplicate_withViewStore, Hdup.
    destruct (pipeline.evalJoin _ j obj) as [os'|err'|] eqn:Hadd; intros Hres.
    + exfalso. destruct (pipeline.diffDeltas _ _) as [[? ?] ?]. simplify_eq.
    + left. congruence.
    + congruence.
Qed.

Lemma EvaluateJoin_duplicate j delta obj eng :
  cache.Object delta = Some obj →
  cache.Type_ delta = cache.Added ∨ cache.Type_ delta = cache.Updated
  ∨ cache.Type_ delta = cache.Upserted ∨ cache.Type_ delta = cache.Replaced →
  duplicate eng obj = true →
  pipeline.EvaluateJoin j delta eng = (Ok [], withViewStore (object.GroupVersionKind obj) eng).
Proof.
  intros Hobj Hty Hdup.
  unfold pipeline.EvaluateJoin, pipeline.evaluateJoin, pipeline.evaluateJoin_body.
  rewrite Hobj. unfold_M. rewrite initViewStore_run.
  rewrite (IsValidEvent_run _ obj), withViewStore_idem, stored_withViewStore by done.
  unfold duplicate in Hdup.
  destruct (stored eng _ _) as [old|]; [|done]. rewrite Hdup.
  by destruct Hty as [->|[->|[->| ->]]].
Qed.

Lemma EvaluateJoin_Unchanged j delta obj eng :
  cache.Type_ delta = cache.Unchanged →
  cache.Object delta = Some obj →
  pipeline.EvaluateJoin j delta eng = (Ok [], withViewStore (object.GroupVersionKind obj) eng).
Proof.
  intros Hty Hobj.
  unfold pipeline.EvaluateJoin, pipeline.evaluateJoin, pipeline.evaluateJoin_body.
  rewrite Hobj. unfold_M. rewrite initViewStore_run.
  rewrite (IsValidEvent_run _ obj), Hty by done. simpl.
  rewrite withViewStore_idem, handleUpsertEvent_run by done.
  unfold reclassify. rewrite Hty. simpl. by rewrite Hobj, Hty.
Qed.

Lemma delta_eta delta t obj :
  cache.Type_ delta = t → cache.Object delta = Some obj → delta = cache.mkDelta t (Some obj).
Proof. destruct delta; simpl; congruence. Qed.

Lemma reclassify_cases eng delta obj :
  cache.Object delta = Some obj →
  (cache.Type_ delta ≠ cache.Upserted ∧ reclassify eng delta obj = delta)
  ∨ (cache.Type_ delta = cache.Upserted
     ∧ stored eng (object.GroupVersionKind obj) (key_of obj) = None
     ∧ reclassify eng delta obj = cache.mkDelta cache.Added (Some obj))
  ∨ (cache.Type_ delta = cache.Upserted
     ∧ is_Some (stored eng (object.GroupVersionKind obj) (key_of obj))
     ∧ reclassify eng delta obj = cache.mkDelta cache.Updated (Some obj)).
Proof.
  intros Hobj. unfold reclassify. case_decide as Hty; [|by left].
  right. destruct (stored eng _ _) eqn:E; [right|left]; eauto.
Qed.

(** ** The claims about the delta engine *)

(** C1 (as amended). A failed event and the stores. When [EvaluateAggregation]
    or [EvaluateJoin] returns an error for a delta, either every store holds
    what it held at the start of the event (the engine is the one of the start
    with, at most, the empty store of the delta's kind created), or the delta
    is an update (Updated, Replaced, or an upsert of a stored object) whose
    delete half was evaluated and removed the stored version before the
    evaluation of its add half failed. *)
Theorem C1_failed_event_and_stores a j delta obj eng e eng' :
  cache.Object delta = Some obj →
  (pipeline.EvaluateAggregation a delta eng = (Err e, eng') →
     eng' = withViewStore (object.GroupVersionKind obj) eng ∧ same_contents eng eng'
     ∨ update_like eng delta obj
       ∧ ∃ old objs,
           stored eng (object.GroupVersionKind obj) (key_of obj) = Some old
           ∧ pipeline.evalAggregation (withViewStore (object.GroupVersionKind obj) eng) a
               (object.DeepCopy old) = Ok objs
           ∧ is_Err (pipeline.evalAggregation (delete_half_done eng obj old) a
                       (object.DeepCopy obj))
           ∧ eng' = delete_half_done eng obj old)
  ∧ (pipeline.EvaluateJoin j delta eng = (Err e, eng') →
     eng' = withViewStore (object.GroupVersionKind obj) eng ∧ same_contents eng eng'
     ∨ update_like eng delta obj
       ∧ ∃ old os,
           stored eng (object.GroupVersionKind obj) (key_of obj) = Some old
           ∧ pipeline.evalJoin (withViewStore (object.GroupVersionKind obj) eng) j old = Ok os
           ∧ is_Err (pipeline.evalJoin (delete_half_done eng obj old) j obj)
           ∧ eng' = delete_half_done eng obj old).
Proof.
  intros Hobj.
  assert (Hsame : ∀ eng1, eng1 = withViewStore (object.GroupVersionKind obj) eng →
            eng1 = withViewStore (object.GroupVersionKind obj) eng ∧ same_contents eng eng1).
  { intros ? ->. split; [done|]. intros g key. apply stored_withViewStore. }
  set (g := object.GroupVersionKind obj) in *.
  assert (Hstore : pipeline.baseViewStore (withViewStore g eng) !! g = Some (storeOf eng g))
    by apply baseViewStore_withViewStore.
  split.
  - (* aggregation *)
    destruct (decide (cache.Type_ delta = cache.Unchanged)) as [Hun|Hun].
    { unfold pipeline.EvaluateAggregation, cache.IsUnchanged.
      by rewrite bool_decide_eq_true_2. }
    rewrite (EvaluateAggregation_run _ _ obj) by done. fold g.
    destruct (match cache.Type_ delta with
              | cache.Added | cache.Updated | cache.Upserted | cache.Replaced =>
                  duplicate eng obj
              | _ => false end) eqn:Hdup; [done|].
    assert (Hleaf : ∀ t, t = cache.Added ∨ t = cache.Deleted →
              pipeline.evaluateAggregation a (cache.mkDelta t (Some obj)) (withViewStore g eng)
              = (Err e, eng') → eng' = withViewStore g eng).
    { intros t [-> | ->].
      - rewrite (evaluateAggregation_Added _ _ _ (storeOf eng g)) by done.
        destruct (pipeline.evalAggregation _ _ _); congruence.
      - rewrite (evaluateAggregation_Deleted _ _ _ (storeOf eng g)) by done.
        destruct (storeOf eng g !! key_of obj); [|congruence].
        destruct (pipeline.evalAggregation _ _ _); congruence. }
    assert (Hupd : ∀ t, t = cache.Updated ∨ t = cache.Replaced →
              pipeline.evaluateAggregation a (cache.mkDelta t (Some obj)) (withViewStore g eng)
              = (Err e, eng') →
              eng' = withViewStore g eng
              ∨ ∃ old objs,
                  stored eng g (key_of obj) = Some old
                  ∧ pipeline.evalAggregation (withViewStore g eng) a (object.DeepCopy old)
                    = Ok objs
                  ∧ is_Err (pipeline.evalAggregation (delete_half_done eng obj old) a
                              (object.DeepCopy obj))
                  ∧ eng' = delete_half_done eng obj old).
    { intros t Ht Hres.
      by apply (evaluateAggregation_Updated_Err _ _ _ _ (storeOf eng g)) in Hres. }
    destruct (reclassify_cases eng delta obj Hobj) as [[Hne ->]|[(Hty & Habs & ->)|(Hty & Hpres & ->)]].
    + destruct (cache.Type_ delta) eqn:Hty; try done;
        rewrite (delta_eta delta _ obj Hty Hobj).
      * intros Hres. left. apply Hsame. apply (Hleaf cache.Added); auto.
      * intros Hres. left. apply Hsame. apply (Hleaf cache.Deleted); auto.
      * intros Hres. destruct (Hupd cache.Updated) as [->|Hr]; auto.
        right. split; [left; done|done].
      * intros Hres. destruct (Hupd cache.Replaced) as [->|Hr]; auto.
        right. split; [right; left; done|done].
    + intros Hres. left. apply Hsame. apply (Hleaf cache.Added); auto.
    + intros Hres. destruct (Hupd cache.Updated) as [->|Hr]; auto.
      right. split; [right; right; done|done].
  - (* join *)
    destruct (cache.Type_ delta) eqn:Hty.
    + rewrite (delta_eta delta _ obj Hty Hobj). unfold pipeline.EvaluateJoin.
      rewrite evaluateJoin_Added. fold g.
      destruct (duplicate eng obj); [done|].
      destruct (pipeline.evalJoin _ _ _); intros; left; apply Hsame; congruence.
    + rewrite (delta_eta delta _ obj Hty Hobj). unfold pipeline.EvaluateJoin.
      rewrite evaluateJoin_Deleted. fold g.
      destruct (stored eng g (key_of obj)); [|done].
      destruct (pipeline.evalJoin _ _ _); intros; left; apply Hsame; congruence.
    + destruct (duplicate eng obj) eqn:Hdup.
      { rewrite (EvaluateJoin_duplicate _ _ obj) by auto. done. }
      assert (Hul : update_like eng delta obj) by (by left).
      intros Hres. apply (EvaluateJoin_Updated_Err _ _ obj) in Hres; [|done..].
      destruct Hres as [->|Hr]; [left; by apply Hsame|right; split; [done|exact Hr]].
    + destruct (duplicate eng obj) eqn:Hdup.
      { rewrite (EvaluateJoin_duplicate _ _ obj) by auto. done. }
      assert (Hul : update_like eng delta obj) by (by right; left).
      intros Hres. apply (EvaluateJoin_Updated_Err _ _ obj) in Hres; [|done..].
      destruct Hres as [->|Hr]; [left; by apply Hsame|right; split; [done|exact Hr]].
    + destruct (duplicate eng obj) eqn:Hdup.
      { rewrite (EvaluateJoin_duplicate _ _ obj) by auto. done. }
      assert (Hcase : is_Some (stored eng g (key_of obj)) ∨ stored eng g (key_of obj) = None).
      { destruct (stored eng g (key_of obj)); [left; by eexists|by right]. }
      destruct Hcase as [Hold|Hold].
      * assert (Hul : update_like eng delta obj) by (by right; right).
        intros Hres. apply (EvaluateJoin_Updated_Err _ _ obj) in Hres; [|done..].
        destruct Hres as [->|Hr]; [left; by apply Hsame|right; split; [done|exact Hr]].
      * rewrite (delta_eta delta _ obj Hty Hobj), EvaluateJoin_Upserted_absent by done.
        unfold pipeline.EvaluateJoin. rewrite evaluateJoin_Added, Hdup. fold g.
        destruct (pipeline.evalJoin _ _ _); intros; left; apply Hsame; congruence.
    + by rewrite (EvaluateJoin_Unchanged _ _ obj).
Qed.


(** C2. An Updated or Replaced delta that passes the validity check is
    replayed through the join as a delete of the previously stored version
    [old] followed by an add of the new version [obj]; the outputs of the two
    halves are compared by identity (kind and name): the result lists, in this
    order, the outputs of the delete half absent from the add half as Deleted,
    the outputs of the add half present in the delete half as Updated (with
    the object of the add half), and the outputs of the add half absent from
    the delete half as Added. *)
Theorem C2_update_is_delete_add_diff j delta obj old eng dels adds :
  cache.Type_ delta = cache.Updated ∨ cache.Type_ delta = cache.Replaced →
  cache.Object delta = Some obj →
  stored eng (object.GroupVersionKind obj) (key_of obj) = Some old →
  object.DeepEqual obj old = false →
  pipeline.evalJoin (withViewStore (object.GroupVersionKind obj) eng) j old = Ok dels →
  pipeline.evalJoin
    (setStore (object.GroupVersionKind obj)
       (delete (cache.KeyFunc old) (storeOf eng (object.GroupVersionKind obj)))
       (withViewStore (object.GroupVersionKind obj) eng)) j obj = Ok adds →
  pipeline.EvaluateJoin j delta eng =
  (Ok (deltas cache.Deleted (filter (λ o, present adds o = false) dels)
       ++ deltas cache.Updated (filter (λ o, present dels o = true) adds)
       ++ deltas cache.Added (filter (λ o, present dels o = false) adds)),
   setStore (object.GroupVersionKind obj)
     (<[cache.KeyFunc obj := obj]>
        (delete (cache.KeyFunc old) (storeOf eng (object.GroupVersionKind obj))))
     (withViewStore (object.GroupVersionKind obj) eng)).
Proof.
  intros Hty Hobj Hold Hne Hdel Hadd.
  rewrite (evaluateJoin_Updated j delta obj);
    [|done|unfold update_like; tauto|unfold duplicate; by rewrite Hold, Hne].
  unfold_M.
  rewrite evaluateJoin_Deleted, stored_withViewStore, Hold, withViewStore_idem, Hdel.
  rewrite storeOf_withViewStore.
  rewrite evaluateJoin_Added, withViewStore_setStore, duplicate_after_delete by done.
  rewrite Hadd, storeOf_setStore, setStore_setStore.
  by rewrite diffDeltas_spec.
Qed.

(** C3. A delta without object is not a valid event. An Added, Updated,
    Upserted or Replaced delta whose object is deep-equal to the version
    stored under its key is not a valid event, and both evaluations return
    the empty list of deltas, no error, and the engine as it was. *)
Theorem C3_duplicate_event_ignored a j delta eng :
  (cache.Object delta = None → pipeline.IsValidEvent delta eng = (Ok false, eng))
  ∧ ∀ obj old,
      cache.Object delta = Some obj →
      cache.Type_ delta = cache.Added ∨ cache.Type_ delta = cache.Updated
      ∨ cache.Type_ delta = cache.Upserted ∨ cache.Type_ delta = cache.Replaced →
      stored eng (object.GroupVersionKind obj) (key_of obj) = Some old →
      object.DeepEqual obj old = true →
      pipeline.IsValidEvent delta eng = (Ok false, eng)
      ∧ pipeline.EvaluateAggregation a delta eng = (Ok [], eng)
      ∧ pipeline.EvaluateJoin j delta eng = (Ok [], eng).
Proof.
  split.
  - intros Hnil. unfold pipeline.IsValidEvent. by rewrite Hnil.
  - intros obj old Hobj Hty Hold Heq.
    assert (Hdup : duplicate eng obj = true) by (unfold duplicate; by rewrite Hold).
    pose proof (withViewStore_stored _ _ _ _ Hold) as Hs.
    split; [|split].
    + rewrite (IsValidEvent_run _ obj), Hs, Hold, Heq by done.
      by destruct Hty as [->|[->|[->| ->]]].
    + by rewrite (EvaluateAggregation_duplicate _ _ obj), Hs.
    + by rewrite (EvaluateJoin_duplicate _ _ obj), Hs.
Qed.

(** C4. An Upserted delta whose object is absent from the store of its kind
    is evaluated exactly as the Added delta of the same object (same outputs,
    same engine afterwards); when the object is stored and deep-equal to the
    stored version, the output is empty. *)
Theorem C4_upsert_of_absent_object_is_add a j obj eng :
  (stored eng (object.GroupVersionKind obj) (key_of obj) = None →
     pipeline.EvaluateAggregation a (cache.mkDelta cache.Upserted (Some obj)) eng
     = pipeline.EvaluateAggregation a (cache.mkDelta cache.Added (Some obj)) eng
     ∧ pipeline.EvaluateJoin j (cache.mkDelta cache.Upserted (Some obj)) eng
       = pipeline.EvaluateJoin j (cache.mkDelta cache.Added (Some obj)) eng)
  ∧ ∀ old,
      stored eng (object.GroupVersionKind obj) (key_of obj) = Some old →
      object.DeepEqual obj old = true →
      pipeline.EvaluateAggregation a (cache.mkDelta cache.Upserted (Some obj)) eng = (Ok [], eng)
      ∧ pipeline.EvaluateJoin j (cache.mkDelta cache.Upserted (Some obj)) eng = (Ok [], eng).
Proof.
  split.
  - intros Habs. split.
    + rewrite !(EvaluateAggregation_run _ _ obj) by done. simpl.
      unfold duplicate, reclassify. simpl. by rewrite Habs.
    + by apply EvaluateJoin_Upserted_absent.
  - intros old Hold Heq.
    assert (Hdup : duplicate eng obj = true) by (unfold duplicate; by rewrite Hold).
    pose proof (withViewStore_stored _ _ _ _ Hold) as Hs.
    split.
    + rewrite (EvaluateAggregation_duplicate _ _ obj), Hs; auto.
    + rewrite (EvaluateJoin_duplicate _ _ obj), Hs; auto.
Qed.

(** C7 (as amended). An Unchanged delta passes through [EvaluateAggregation]:
    the result is the list holding that very delta, with no error and the
    engine untouched. [EvaluateJoin] returns the empty list for an Unchanged
    delta that carries an object. *)
Theorem C7_unchanged_delta_passes_through a j delta eng :
  cache.Type_ delta = cache.Unchanged →
  pipeline.EvaluateAggregation a delta eng = (Ok [delta], eng)
  ∧ ∀ obj, cache.Object delta = Some obj →
           pipeline.EvaluateJoin j delta eng
           = (Ok [], withViewStore (object.GroupVersionKind obj) eng).
Proof.
  intros Hty. split.
  - unfold pipeline.EvaluateAggregation, cache.IsUnchanged.
    by rewrite bool_decide_eq_true_2.
  - intros obj Hobj. by apply EvaluateJoin_Unchanged.
Qed.

End EngineFacts.

(** ** The join *)

Section JoinFacts.
Context `{object.Pkg} `{expression.Pkg}.

Lemma foldlM_app {A B} (f : B → A → result B) acc l1 l2 :
  foldlM f acc (l1 ++ l2) = (acc' ← foldlM f acc l1; foldlM f acc' l2).
Proof.
  revert acc. induction l1 as [|x l1 IH]; intros acc; simpl; [done|].
  destruct (f acc x); simpl; [apply IH|done..].
Qed.

Lemma foldlM_fmap {A A' B} (f : B → A' → result B) (g : A → A') acc l :
  foldlM f acc (g <$> l) = foldlM (λ acc x, f acc (g x)) acc l.
Proof.
  revert acc. induction l as [|x l IH]; intros acc; simpl; [done|].
  destruct (f acc (g x)); simpl; [apply IH|done..].
Qed.

Lemma foldlM_bind {A A' B} (f : B → A' → result B) (g : A → list A') acc (l : list A) :
  foldlM f acc (l ≫= g) = foldlM (λ acc x, foldlM f acc (g x)) acc l.
Proof.
  revert acc. induction l as [|x l IH]; intros acc; [done|].
  rewrite bind_cons, foldlM_app. simpl.
  destruct (foldlM f acc (g x)); simpl; [apply IH|done..].
Qed.

Lemma foldlM_ext {A B} (f g : B → A → result B) acc l :
  (∀ acc x, f acc x = g acc x) → foldlM f acc l = foldlM g acc l.
Proof.
  intros Hfg. revert acc. induction l as [|x l IH]; intros acc; simpl; [done|].
  rewrite Hfg. destruct (g acc x); simpl; [apply IH|done..].
Qed.

(** [recurseProd] evaluates the combinations one after the other and stops
    at the first that fails. *)
Lemma recurseProd_spec eng obj eval views current ret :
  pipeline.recurseProd eng obj current ret eval views
  = foldlM (λ ret c, collect eval obj ret (current ++ c)) ret (combinations eng obj views).
Proof.
  revert current ret. induction views as [|view views IH]; intros current ret.
  - simpl. rewrite app_nil_r. unfold collect.
    destruct (eval obj current) as [[o|]| |]; done.
  - simpl. rewrite foldlM_bind. unfold slot.
    assert (Hstep : ∀ x ret, pipeline.recurseProd eng obj (current ++ [x]) ret eval views
              = foldlM (λ ret c, collect eval obj ret (current ++ c)) ret
                  ((λ c, x :: c) <$> combinations eng obj views)).
    { intros x ret'. rewrite IH, foldlM_fmap. apply foldlM_ext.
      intros acc c. by rewrite <- app_assoc. }
    destruct (decide (object.GroupVersionKind obj = view)).
    + simpl. rewrite Hstep.
      by destruct (foldlM _ _ _).
    + destruct (pipeline.baseViewStore eng !! view) as [store|].
      * rewrite foldlM_fmap. apply foldlM_ext. intros acc o. apply Hstep.
      * simpl. rewrite Hstep. by destruct (foldlM _ _ _).
Qed.




Lemma combinations_empty_store eng obj views view :
  view ∈ views →
  pipeline.baseViewStore eng !! view = Some ∅ →
  object.GroupVersionKind obj ≠ view →
  combinations eng obj views = [].
Proof.
  intros Hin Hempty Hne. induction views as [|v views IH]; [by apply elem_of_nil in Hin|].
  simpl. apply elem_of_cons in Hin as [<-|Hin].
  - unfold slot. rewrite decide_False, Hempty by done.
    unfold cache.List. by rewrite map_to_list_empty.
  - rewrite IH by done. clear. induction (slot eng obj v) as [|x l IHl]; [done|].
    by rewrite bind_cons, IHl.
Qed.


(** C6 (as amended). A stage [@select(cond)] keeps the object (returns it
    unchanged) when [cond] evaluates to true and drops it when [cond]
    evaluates to false; it fails when [cond] fails to evaluate or is no
    boolean. A stage [@filter(cond)] is no stage of the aggregation: it
    fails as an unknown aggregation stage. *)
Theorem C6_select_keeps_or_drops_and_filter_is_no_stage cond lit u :
  pipeline.evalStage (expression.mkExpression "@filter" (Some cond) lit) u
  = Err (pipeline.NewAggregationError (errors_New "unknown aggregation stage"))
  ∧ pipeline.evalStage (expression.mkExpression "@select" (Some cond) lit) u
    = match expression.Evaluate cond (expression.mkEvalCtx u None) with
      | Ok res =>
          match expression.AsBool res with
          | Ok true => Ok [u]
          | Ok false => Ok []
          | Err err =>
              Err (pipeline.NewAggregationError
                     (fmt_Errorf "expected conditional expression to evaluate to boolean: %w"
                                 [fmt_w err]))
          | Panic => Panic
          end
      | Err err => Err err
      | Panic => Panic
      end.
Proof.
  split; [done|].
  unfold pipeline.evalStage. simpl.
  destruct (expression.Evaluate cond _) as [res| |]; simpl; [|done..].
  by destruct (expression.AsBool res) as [[]| |].
Qed.

End JoinFacts.

(** ** Normalize *)

Section NormalizeFacts.
Context `{object.Pkg}.

(** The writes of [Normalize] into [metaMap] put back what it has read. *)
Lemma Normalize_content_unchanged (content : unstruct) (metaMap : unstruct) n :
  content !! "metadata" = Some (DMap metaMap) →
  metaMap !! "name" = Some (DString n) →
  <["metadata" := DMap (<["name" := DString n]> metaMap)]> content = content.
Proof.
  intros Hmeta Hname. rewrite (insert_id metaMap) by done. by apply insert_id.
Qed.

Lemma Normalize_run eng (content : unstruct) :
  pipeline.Normalize eng content =
  match metadata_name content with
  | Some n =>
      if bad_namespace content then pipeline.Normalize eng content
      else Ok (object.SetNamespace
                 (object.SetName (object.SetContent (object.NewViewObject (pipeline.View eng))
                                    content) n)
                 (metadata_namespace content))
  | None => pipeline.Normalize eng content
  end.
Proof.
  unfold metadata_name, bad_namespace, metadata_namespace.
  destruct (content !! "metadata") as [[| | | | | |metaMap]|] eqn:Hmeta; try done.
  destruct (metaMap !! "name") as [[| | | |n| |]|] eqn:Hname; try done.
  destruct (decide (n = "")) as [->|Hn]; [done|].
  destruct (metaMap !! "namespace") as [v|] eqn:Hns.
  - destruct v as [| | | |ns| |]; simpl; try done.
    unfold pipeline.Normalize. rewrite Hmeta, Hns.
    rewrite lookup_insert_ne, Hname by done. rewrite decide_False by done.
    rewrite (insert_id metaMap "namespace") by done.
    by rewrite (Normalize_content_unchanged content metaMap n).
  - simpl. unfold pipeline.Normalize. rewrite Hmeta, Hns, Hname.
    rewrite decide_False by done.
    by rewrite (Normalize_content_unchanged content metaMap n).
Qed.

Lemma Normalize_errors eng (content : unstruct) :
  match pipeline.Normalize eng content with
  | Ok _ => ∃ n, metadata_name content = Some n ∧ bad_namespace content = false
  | Err e => is_invalid_object_error e
               ∧ (metadata_name content = None ∨ bad_namespace content = true)
  | Panic => False
  end.
Proof.
  unfold pipeline.Normalize, metadata_name, bad_namespace, is_invalid_object_error.
  destruct (content !! "metadata") as [[| | | | | |metaMap]|] eqn:Hmeta;
    try (split; [by eexists|by left]).
  destruct (metaMap !! "namespace") as [v|] eqn:Hns.
  - destruct v as [| | | |ns| |]; try (split; [by eexists|by right]).
    rewrite lookup_insert_ne by done.
    destruct (metaMap !! "name") as [[| | | |n| |]|] eqn:Hname;
      try (split; [by eexists|by left]).
    destruct (decide (n = "")); [split; [by eexists|by left]|]. eauto.
  - destruct (metaMap !! "name") as [[| | | |n| |]|] eqn:Hname;
      try (split; [by eexists|by left]).
    destruct (decide (n = "")); [split; [by eexists|by left]|]. eauto.
Qed.

Lemma Normalize_earlier_run eng (content : unstruct) :
  match pipeline.Normalize_earlier eng content with
  | Ok obj => ∃ n, metadata_name content = Some n ∧ bad_namespace content = false
                   ∧ obj = object.SetContent
                             (object.SetNamespace
                                (object.SetName (object.NewViewObject (pipeline.View eng)) n)
                                (metadata_namespace content)) content
  | Err e => is_invalid_object_error e
               ∧ (metadata_name content = None ∨ bad_namespace content = true)
  | Panic => False
  end.
Proof.
  unfold pipeline.Normalize_earlier, metadata_name, bad_namespace, metadata_namespace,
    is_invalid_object_error.
  destruct (content !! "metadata") as [[| | | | | |metaMap]|] eqn:Hmeta;
    try (split; [by eexists|by left]).
  destruct (metaMap !! "name") as [[| | | |n| |]|] eqn:Hname;
    try (split; [by eexists|by left]).
  destruct (decide (n = "")); [split; [by eexists|by left]|].
  destruct (metaMap !! "namespace") as [v|] eqn:Hns.
  - destruct v as [| | | |ns| |]; try (split; [by eexists|by right]). eauto.
  - eauto.
Qed.

(** C8. [Normalize] returns an error exactly when the content has no
    [metadata] mapping holding a non-empty string name, or has a namespace
    that is not a string; every error it returns is an invalid-object error;
    otherwise it returns an object whose kind is the target view of the
    engine, whose name is [metadata.name] and whose namespace is
    [metadata.namespace], the empty string when there is none. *)
Theorem C8_Normalize_errors_and_identity `{!IdentityLaws} eng (content : unstruct) :
  (is_Err (pipeline.Normalize eng content)
   ↔ metadata_name content = None ∨ bad_namespace content = true)
  ∧ (∀ e, pipeline.Normalize eng content = Err e → is_invalid_object_error e)
  ∧ (∀ n, metadata_name content = Some n → bad_namespace content = false →
       ∃ obj, pipeline.Normalize eng content = Ok obj
              ∧ schema.Kind (object.GroupVersionKind obj) = pipeline.View eng
              ∧ object.GetName obj = n
              ∧ object.GetNamespace obj = metadata_namespace content).
Proof.
  pose proof (Normalize_errors eng content) as Herr.
  split_and!.
  - split.
    + intros [e He]. rewrite He in Herr. tauto.
    + intros Hbad. destruct (pipeline.Normalize eng content) as [obj|e|]; [|by eexists|done].
      destruct Herr as (n & Hn & Hns). destruct Hbad; congruence.
  - intros e He. rewrite He in Herr. tauto.
  - intros n Hn Hns. rewrite Normalize_run, Hn, Hns. eexists. split; [done|].
    rewrite GroupVersionKind_SetNamespace, GroupVersionKind_SetName,
      GroupVersionKind_SetContent, Kind_NewViewObject.
    by rewrite GetName_SetNamespace, GetName_SetName, GetNamespace_SetNamespace.
Qed.

(** X29. The earlier [Normalize] and the current one fail on the same
    contents: one returns an error exactly when the other does, each error is
    an invalid-object error, and neither panics. When they succeed, they
    return the view object of the target view after the same three setters on
    the same arguments; the earlier one sets the content last, the current
    one first. *)
Theorem X29_Normalize_versions_fail_on_the_same_contents eng (content : unstruct) :
  (is_Err (pipeline.Normalize_earlier eng content) ↔ is_Err (pipeline.Normalize eng content))
  ∧ (∀ e, pipeline.Normalize_earlier eng content = Err e → is_invalid_object_error e)
  ∧ pipeline.Normalize_earlier eng content ≠ Panic
  ∧ pipeline.Normalize eng content ≠ Panic
  ∧ (∀ o1 o2,
       pipeline.Normalize_earlier eng content = Ok o1 →
       pipeline.Normalize eng content = Ok o2 →
       ∃ n, metadata_name content = Some n
            ∧ o1 = object.SetContent
                     (object.SetNamespace
                        (object.SetName (object.NewViewObject (pipeline.View eng)) n)
                        (metadata_namespace content)) content
            ∧ o2 = object.SetNamespace
                     (object.SetName
                        (object.SetContent (object.NewViewObject (pipeline.View eng)) content)
                        n)
                     (metadata_namespace content)).
Proof.
  pose proof (Normalize_earlier_run eng content) as Hearlier.
  pose proof (Normalize_errors eng content) as Hnow.
  split_and!.
  - destruct (pipeline.Normalize_earlier eng content) as [o1|e1|],
      (pipeline.Normalize eng content) as [o2|e2|]; try done.
    + split; by intros [? ?].
    + destruct Hearlier as (n & Hn & Hns & _), Hnow as [_ Hbad].
      destruct Hbad; congruence.
    + destruct Hnow as (n & Hn & Hns), Hearlier as [_ Hbad].
      destruct Hbad; congruence.
    + split; intros _; by eexists.
  - intros e He. rewrite He in Hearlier. tauto.
  - intros Hp. by rewrite Hp in Hearlier.
  - intros Hp. by rewrite Hp in Hnow.
  - intros o1 o2 H1 H2. rewrite H1 in Hearlier. destruct Hearlier as (n & Hn & Hns & ->).
    exists n. split; [done|]. split; [done|].
    rewrite Normalize_run, Hn, Hns in H2. by simplify_eq.
Qed.

End NormalizeFacts.

(** ** The running example, and the setter of a dict literal *)

Section Closing.
Import scenario.
#[local] Existing Instance viewobject.pkg.
#[local] Existing Instance evaluator.pkg.

(** View objects satisfy the laws assumed of the object operations. *)
Lemma viewobject_identity_laws : IdentityLaws.
Proof. by split. Qed.

(** C1, as stated, fails: the update of the stored pod by a version on which
    the aggregation fails returns an error, and the pod that was stored at the
    start of the event is no longer stored after it. *)
Lemma C1_counterexample :
  failedUpdate.1 = Err failure
  ∧ stored running (view "pod") "default/a" = Some oldPod
  ∧ stored failedUpdate.2 (view "pod") "default/a" = None.
Proof. split_and!; reflexivity. Qed.

(** The amended C1 at that failed update. *)
Lemma C1_witness :
  failedUpdate.2 = withViewStore (view "pod") running ∧ same_contents running failedUpdate.2
  ∨ update_like running (updated newPod) newPod
    ∧ ∃ old objs,
        stored running (view "pod") (key_of newPod) = Some old
        ∧ pipeline.evalAggregation (withViewStore (view "pod") running) selectOk old = Ok objs
        ∧ is_Err (pipeline.evalAggregation (delete_half_done running newPod old) selectOk newPod)
        ∧ failedUpdate.2 = delete_half_done running newPod old.
Proof.
  apply (proj1 (C1_failed_event_and_stores selectOk sameApp (updated newPod) newPod running
                  failure failedUpdate.2 eq_refl)).
  reflexivity.
Defined.

(** C2 at the update of the stored pod from app [x] to app [y]: the pairing
    with [d1] is deleted, the pairing with [d2] is added. *)
Lemma C2_witness :
  pipeline.EvaluateJoin sameApp (updated newPod) running
  = (Ok (deltas cache.Deleted (filter (λ o, present addHalf o = false) deleteHalf)
         ++ deltas cache.Updated (filter (λ o, present deleteHalf o = true) addHalf)
         ++ deltas cache.Added (filter (λ o, present deleteHalf o = false) addHalf)),
     setStore (view "pod")
       (<[cache.KeyFunc newPod := newPod]>
          (delete (cache.KeyFunc oldPod) (storeOf running (view "pod"))))
       (withViewStore (view "pod") running))
  ∧ summary (pipeline.EvaluateJoin sameApp (updated newPod) running).1
    = [(cache.Deleted, Some "dep:default:d1--pod:default:a");
       (cache.Added, Some "dep:default:d2--pod:default:a")].
Proof.
  split.
  - apply (C2_update_is_delete_add_diff sameApp (updated newPod) newPod oldPod running);
      [by left|reflexivity..].
  - reflexivity.
Defined.

(** C3 at the stored pod sent again as Added. *)
Lemma C3_witness :
  pipeline.IsValidEvent (added oldPod) running = (Ok false, running)
  ∧ pipeline.EvaluateAggregation selectOk (added oldPod) running = (Ok [], running)
  ∧ pipeline.EvaluateJoin sameApp (added oldPod) running = (Ok [], running).
Proof.
  apply (proj2 (C3_duplicate_event_ignored selectOk sameApp (added oldPod) running)
               oldPod oldPod);
    [reflexivity|by left|reflexivity..].
Defined.

(** C4 at the upsert of a pod into an engine without stores. *)
Lemma C4_witness :
  pipeline.EvaluateAggregation selectOk (upserted oldPod) fresh
  = pipeline.EvaluateAggregation selectOk (added oldPod) fresh
  ∧ pipeline.EvaluateJoin sameApp (upserted oldPod) fresh
    = pipeline.EvaluateJoin sameApp (added oldPod) fresh.
Proof.
  apply (proj1 (C4_upsert_of_absent_object_is_add (H := viewobject.pkg) (H0 := evaluator.pkg)
                  selectOk sameApp oldPod fresh)).
  reflexivity.
Defined.



(** C6, as stated, fails: on an object whose [spec.ok] is true, [@select]
    keeps the object and [@filter] fails. *)
Lemma C6_counterexample :
  expression.Evaluate (path "$.spec.ok")
    (expression.mkEvalCtx (object.UnstructuredContent oldPod) None) = Ok (DBool true)
  ∧ pipeline.evalStage (stage "@select" (path "$.spec.ok")) (object.UnstructuredContent oldPod)
    = Ok [object.UnstructuredContent oldPod]
  ∧ pipeline.evalStage (stage "@filter" (path "$.spec.ok")) (object.UnstructuredContent oldPod)
    = Err (pipeline.NewAggregationError (errors_New "unknown aggregation stage")).
Proof. split_and!; reflexivity. Qed.

(** C7, as stated, fails: the aggregation of the nil delta, which is
    Unchanged, returns that delta and not the empty list. *)
Lemma C7_counterexample :
  ¬ (∀ a (delta : cache.Delta) eng,
       cache.Type_ delta = cache.Unchanged →
       (pipeline.EvaluateAggregation a delta eng).1 = Ok []).
Proof.
  intros Hclaim. specialize (Hclaim selectOk cache.NilDelta fresh eq_refl).
  discriminate Hclaim.
Qed.

(** The amended C7 at the Unchanged delta of the stored pod. *)
Lemma C7_witness :
  pipeline.EvaluateAggregation selectOk (unchanged oldPod) running
  = (Ok [unchanged oldPod], running)
  ∧ ∀ obj, cache.Object (unchanged oldPod) = Some obj →
           pipeline.EvaluateJoin sameApp (unchanged oldPod) running
           = (Ok [], withViewStore (object.GroupVersionKind obj) running).
Proof.
  apply (C7_unchanged_delta_passes_through selectOk sameApp (unchanged oldPod) running).
  reflexivity.
Defined.

(** C8 for view objects, at a content with a name and no namespace. *)
Lemma C8_witness :
  (is_Err (pipeline.Normalize fresh named)
   ↔ metadata_name named = None ∨ bad_namespace named = true)
  ∧ (∀ e, pipeline.Normalize fresh named = Err e → is_invalid_object_error e)
  ∧ (∀ n, metadata_name named = Some n → bad_namespace named = false →
       ∃ obj, pipeline.Normalize fresh named = Ok obj
              ∧ schema.Kind (object.GroupVersionKind obj) = pipeline.View fresh
              ∧ object.GetName obj = n
              ∧ object.GetNamespace obj = metadata_namespace named).
Proof.
  exact (@C8_Normalize_errors_and_identity viewobject.pkg viewobject_identity_laws
           fresh named).
Defined.

(** Writing at index [i] of a list of [i + 1] nulls. *)
Lemma insert_padding (i : nat) (v : Doc) :
  <[i := v]> (DNull :: replicate i DNull) = replicate i DNull ++ [v].
Proof. induction i as [|i IH]; simpl; [done|]. by rewrite <- IH. Qed.

Lemma SetJSONPath_index_pads (key : string) (i : nat) (v : Doc) :
  evaluator.SetJSONPath [evaluator.Field key; evaluator.Index i] v (DMap ∅)
  = Ok (DMap {[ key := DList (replicate i DNull ++ [v]) ]}).
Proof.
  simpl. rewrite lookup_empty. simpl. unfold evaluator.pad. simpl.
  by rewrite insert_padding, insert_empty.
Qed.

(** C9. On every context, the dict literal [{"$.y[3]": 12}] evaluates to
    [{y: [null, null, null, 12]}]; in general a setter whose path ends in the
    numeric step [i] under a missing key creates a list of [i] nulls followed
    by the written value. *)
Theorem C9_setter_with_index_pads_with_null (ctx : expression.EvalCtx) :
  evaluator.Unmarshal setterDoc = Ok setter
  ∧ evaluator.Evaluate setter ctx = Ok (DMap {[ "y" := DList [DNull; DNull; DNull; DInt 12] ]})
  ∧ ∀ (key : string) (i : nat) (v : Doc),
      evaluator.SetJSONPath [evaluator.Field key; evaluator.Index i] v (DMap ∅)
      = Ok (DMap {[ key := DList (replicate i DNull ++ [v]) ]}).
Proof.
  split_and!; [vm_compute; reflexivity|reflexivity|apply SetJSONPath_index_pads].
Qed.

End Closing.

(** * Further properties of the engine *)

Section EngineMore.
Context `{object.Pkg} `{expression.Pkg}.
Implicit Types (eng : pipeline.defaultEngine) (delta : cache.Delta) (obj : object.Object).

Ltac unfold_M :=
  unfold mbind, mret, pipeline.M_bind, pipeline.M_ret, pipeline.lift, pipeline.ask,
    pipeline.wrap in *.

Lemma stored_setStore g s eng g' key :
  stored (setStore g s eng) g' key
  = if decide (g' = g) then s !! key else stored eng g' key.
Proof.
  unfold stored, storeOf, setStore, pipeline.putStore. simpl.
  destruct (decide (g' = g)) as [->|Hne].
  - by rewrite lookup_insert_eq.
  - by rewrite lookup_insert_ne.
Qed.

Lemma same_contents_withViewStore g eng : same_contents eng (withViewStore g eng).
Proof. intros g' key. apply stored_withViewStore. Qed.

Lemma duplicate_absent eng obj :
  stored eng (object.GroupVersionKind obj) (key_of obj) = None → duplicate eng obj = false.
Proof. unfold duplicate. by intros ->. Qed.

Lemma EvaluateAggregation_Deleted_absent a obj eng :
  stored eng (object.GroupVersionKind obj) (key_of obj) = None →
  pipeline.EvaluateAggregation a (cache.mkDelta cache.Deleted (Some obj)) eng
  = (Ok [], withViewStore (object.GroupVersionKind obj) eng).
Proof.
  intros Habs. rewrite (EvaluateAggregation_run a _ obj) by done. simpl.
  unfold reclassify. simpl.
  rewrite (evaluateAggregation_Deleted a obj _ (storeOf eng (object.GroupVersionKind obj)))
    by apply baseViewStore_withViewStore.
  unfold stored in Habs. by rewrite Habs.
Qed.

Lemma EvaluateJoin_Deleted_absent j obj eng :
  stored eng (object.GroupVersionKind obj) (key_of obj) = None →
  pipeline.EvaluateJoin j (cache.mkDelta cache.Deleted (Some obj)) eng
  = (Ok [], withViewStore (object.GroupVersionKind obj) eng).
Proof.
  intros Habs. unfold pipeline.EvaluateJoin. rewrite evaluateJoin_Deleted. by rewrite Habs.
Qed.

(** X3. A Deleted event for an object that is not stored returns no delta
    and no error, from the aggregation and from the join, and leaves the
    contents of the stores as they were. *)
Theorem X3_delete_of_unknown_object a j obj eng :
  stored eng (object.GroupVersionKind obj) (key_of obj) = None →
  pipeline.EvaluateAggregation a (cache.mkDelta cache.Deleted (Some obj)) eng
  = (Ok [], withViewStore (object.GroupVersionKind obj) eng)
  ∧ pipeline.EvaluateJoin j (cache.mkDelta cache.Deleted (Some obj)) eng
    = (Ok [], withViewStore (object.GroupVersionKind obj) eng)
  ∧ same_contents eng (withViewStore (object.GroupVersionKind obj) eng).
Proof.
  intros Habs. split_and!.
  - by apply EvaluateAggregation_Deleted_absent.
  - by apply EvaluateJoin_Deleted_absent.
  - apply same_contents_withViewStore.
Qed.

(** *** The join and the store of the object's own kind *)

Lemma baseViewStore_setStore_ne g s eng view :
  g ≠ view → pipeline.baseViewStore (setStore g s eng) !! view = pipeline.baseViewStore eng !! view.
Proof. intros Hne. unfold setStore, pipeline.putStore. simpl. by rewrite lookup_insert_ne. Qed.

Lemma recurseProd_setStore_own eng obj s eval views current ret :
  pipeline.recurseProd (setStore (object.GroupVersionKind obj) s eng) obj current ret eval views
  = pipeline.recurseProd eng obj current ret eval views.
Proof.
  revert current ret. induction views as [|view views IH]; intros current ret; [done|].
  cbn [pipeline.recurseProd].
  destruct (decide (object.GroupVersionKind obj = view)) as [Heq|Hne]; [apply IH|].
  rewrite baseViewStore_setStore_ne by done.
  destruct (pipeline.baseViewStore eng !! view) as [store|]; [|apply IH].
  apply foldlM_ext. intros acc o. apply IH.
Qed.

Lemma evalJoin_setStore_own eng j obj s :
  pipeline.evalJoin (setStore (object.GroupVersionKind obj) s eng) j obj
  = pipeline.evalJoin eng j obj.
Proof.
  unfold pipeline.evalJoin, pipeline.product. cbn [pipeline.baseviews setStore].
  assert (Hviews : pipeline.baseviews (setStore (object.GroupVersionKind obj) s eng)
                   = pipeline.baseviews eng) by done.
  rewrite Hviews. by rewrite recurseProd_setStore_own.
Qed.

Lemma withViewStore_cases g eng :
  withViewStore g eng = eng ∨ withViewStore g eng = setStore g cache.NewStore eng.
Proof.
  unfold withViewStore, pipeline.initViewStore, setStore.
  destruct (pipeline.baseViewStore eng !! g); [by left|by right].
Qed.

Lemma evalJoin_withViewStore_own eng j obj :
  pipeline.evalJoin (withViewStore (object.GroupVersionKind obj) eng) j obj
  = pipeline.evalJoin eng j obj.
Proof.
  destruct (withViewStore_cases (object.GroupVersionKind obj) eng) as [-> | ->]; [done|].
  apply evalJoin_setStore_own.
Qed.

(** X16. The join of an object does not read the store of the object's own
    kind: replacing or creating that store does not change the result. *)
Theorem X16_join_ignores_store_of_own_kind j obj s eng :
  pipeline.evalJoin (setStore (object.GroupVersionKind obj) s eng) j obj
  = pipeline.evalJoin eng j obj
  ∧ pipeline.evalJoin (withViewStore (object.GroupVersionKind obj) eng) j obj
    = pipeline.evalJoin eng j obj.
Proof. split; [apply evalJoin_setStore_own|apply evalJoin_withViewStore_own]. Qed.

(** *** What a successful event leaves in the store *)

Lemma evalAggregation_View eng eng' a obj :
  pipeline.View eng = pipeline.View eng' →
  pipeline.evalAggregation eng a obj = pipeline.evalAggregation eng' a obj.
Proof.
  intros HV. unfold pipeline.evalAggregation.
  destruct (foldlM _ _ (pipeline.Expressions a)) as [args| |]; [|done..]. simpl.
  apply foldlM_ext. intros ret u. unfold pipeline.Normalize. by rewrite HV.
Qed.

Lemma evalAggregation_setStore g s eng a obj :
  pipeline.evalAggregation (setStore g s eng) a obj = pipeline.evalAggregation eng a obj.
Proof. by apply evalAggregation_View. Qed.

Lemma evalAggregation_withViewStore g eng a obj :
  pipeline.evalAggregation (withViewStore g eng) a obj = pipeline.evalAggregation eng a obj.
Proof.
  destruct (withViewStore_cases g eng) as [-> | ->]; [done|apply evalAggregation_setStore].
Qed.

Lemma EvaluateAggregation_Added a obj eng :
  pipeline.EvaluateAggregation a (cache.mkDelta cache.Added (Some obj)) eng =
  if duplicate eng obj then (Ok [], withViewStore (object.GroupVersionKind obj) eng)
  else
    match pipeline.evalAggregation eng a (object.DeepCopy obj) with
    | Ok objs =>
        (Ok (deltas cache.Added objs),
         setStore (object.GroupVersionKind obj)
           (<[cache.KeyFunc obj := obj]> (storeOf eng (object.GroupVersionKind obj)))
           (withViewStore (object.GroupVersionKind obj) eng))
    | Err err =>
        (Err (pipeline.NewAggregationError
                (fmt_Errorf
                   "processing event %q: could not evaluate aggregation for new object %s: %w"
                   [fmt_s "Added"; fmt_s (key_of obj); fmt_w err])),
         withViewStore (object.GroupVersionKind obj) eng)
    | Panic => (Panic, withViewStore (object.GroupVersionKind obj) eng)
    end.
Proof.
  rewrite (EvaluateAggregation_run a _ obj) by done. cbn [cache.Type_].
  destruct (duplicate eng obj); [done|].
  unfold reclassify. cbn [cache.Type_]. rewrite decide_False by done.
  rewrite (evaluateAggregation_Added a obj _ (storeOf eng (object.GroupVersionKind obj)))
    by apply baseViewStore_withViewStore.
  by rewrite evalAggregation_withViewStore.
Qed.

Lemma EvaluateJoin_Added j obj eng :
  pipeline.EvaluateJoin j (cache.mkDelta cache.Added (Some obj)) eng =
  if duplicate eng obj then (Ok [], withViewStore (object.GroupVersionKind obj) eng)
  else
    match pipeline.evalJoin eng j obj with
    | Ok os =>
        (Ok (deltas cache.Added os),
         setStore (object.GroupVersionKind obj)
           (<[cache.KeyFunc obj := obj]> (storeOf eng (object.GroupVersionKind obj)))
           (withViewStore (object.GroupVersionKind obj) eng))
    | Err err =>
        (Err (pipeline.NewJoinError
                (fmt_Errorf
                   "processing event %q: could not evaluate join for new object %s: %w"
                   [fmt_s "Added"; fmt_s (key_of obj); fmt_w err])),
         withViewStore (object.GroupVersionKind obj) eng)
    | Panic => (Panic, withViewStore (object.GroupVersionKind obj) eng)
    end.
Proof.
  unfold pipeline.EvaluateJoin. rewrite evaluateJoin_Added.
  by rewrite evalJoin_withViewStore_own.
Qed.

Lemma stored_after_add g obj eng g' key :
  g = object.GroupVersionKind obj →
  stored (setStore g (<[cache.KeyFunc obj := obj]> (storeOf eng g)) (withViewStore g eng)) g' key
  = if decide ((g', key) = (g, key_of obj)) then Some obj else stored eng g' key.
Proof.
  intros ->. rewrite stored_setStore, stored_withViewStore.
  destruct (decide (g' = _)) as [->|Hg].
  - destruct (decide (key = key_of obj)) as [->|Hk].
    + rewrite decide_True by done. apply lookup_insert_eq.
    + rewrite decide_False by congruence. by rewrite lookup_insert_ne.
  - by rewrite decide_False by congruence.
Qed.

(** X1. After an Added event that was evaluated (aggregation or join), the
    object of the event is the version stored under its key in the store of
    its kind, and no other entry of any store has changed. *)
Theorem X1_added_object_is_stored a j obj eng ds eng' :
  duplicate eng obj = false →
  pipeline.EvaluateAggregation a (cache.mkDelta cache.Added (Some obj)) eng = (Ok ds, eng')
  ∨ pipeline.EvaluateJoin j (cache.mkDelta cache.Added (Some obj)) eng = (Ok ds, eng') →
  stored eng' (object.GroupVersionKind obj) (key_of obj) = Some obj
  ∧ ∀ g key, (g, key) ≠ (object.GroupVersionKind obj, key_of obj) →
             stored eng' g key = stored eng g key.
Proof.
  intros Hdup Hrun.
  assert (Heng : eng' = setStore (object.GroupVersionKind obj)
           (<[cache.KeyFunc obj := obj]> (storeOf eng (object.GroupVersionKind obj)))
           (withViewStore (object.GroupVersionKind obj) eng)).
  { destruct Hrun as [Hrun|Hrun].
    - rewrite EvaluateAggregation_Added, Hdup in Hrun.
      destruct (pipeline.evalAggregation eng a _); by simplify_eq.
    - rewrite EvaluateJoin_Added, Hdup in Hrun.
      destruct (pipeline.evalJoin eng j _); by simplify_eq. }
  subst eng'. split.
  - rewrite stored_after_add by done. by rewrite decide_True.
  - intros g key Hne. rewrite stored_after_add by done. by rewrite decide_False.
Qed.


(** *** The outputs of an aggregation *)

Lemma foldlM_invariant {A B} (P : B → Prop) (f : B → A → result B) acc l r :
  P acc →
  (∀ acc x acc', P acc → x ∈ l → f acc x = Ok acc' → P acc') →
  foldlM f acc l = Ok r → P r.
Proof.
  revert acc. induction l as [|x l IH]; intros acc Hacc Hstep Hrun; simpl in Hrun.
  - by simplify_eq.
  - destruct (f acc x) as [acc'| |] eqn:Hf; [|done..].
    apply (IH acc'); [|intros; eapply Hstep; [done|by right|done]|done].
    eapply Hstep; [done|by left|done].
Qed.

Lemma evalStage_length e u l :
  pipeline.evalStage e u = Ok l → (length l ≤ 1)%nat.
Proof.
  unfold pipeline.evalStage.
  destruct (expression.Arg e) as [arg|]; [|done].
  repeat case_decide; [| |done].
  - destruct (expression.Evaluate arg _) as [res| |]; [|done..]. simpl.
    destruct (expression.AsBool res) as [[]| |]; simpl; intros; simplify_eq; simpl; lia.
  - destruct (expression.Evaluate arg _) as [res| |]; [|done..]. simpl.
    destruct (expression.AsObject res) as [v| |]; simpl; intros; simplify_eq; simpl; lia.
Qed.

Lemma stage_loop_length s args sres :
  (length args ≤ 1)%nat →
  foldlM (λ sres u, ret ← pipeline.evalStage s u; Ok (sres ++ ret)) [] args = Ok sres →
  (length sres ≤ 1)%nat.
Proof.
  destruct args as [|u [|u' args]]; simpl; [intros; simplify_eq; simpl; lia| |lia].
  intros _. destruct (pipeline.evalStage s u) as [ret| |] eqn:Hs; simpl; [|done..].
  intros; simplify_eq. by apply evalStage_length in Hs.
Qed.

Lemma normalize_loop_length eng args ret objs :
  foldlM (λ ret u, obj ← pipeline.Normalize eng u; Ok (ret ++ [obj])) ret args = Ok objs →
  length objs = (length ret + length args)%nat.
Proof.
  revert ret. induction args as [|u args IH]; intros ret; simpl.
  - intros; simplify_eq. lia.
  - destruct (pipeline.Normalize eng u) as [obj| |]; simpl; [|done..].
    intros Hrun. apply IH in Hrun. rewrite length_app in Hrun. simpl in Hrun. lia.
Qed.

Lemma evalAggregation_length eng a obj objs :
  pipeline.evalAggregation eng a obj = Ok objs → (length objs ≤ 1)%nat.
Proof.
  unfold pipeline.evalAggregation.
  destruct (foldlM _ _ (pipeline.Expressions a)) as [args| |] eqn:Hstages; [|done..]. simpl.
  intros Hnorm. apply normalize_loop_length in Hnorm. simpl in Hnorm.
  enough (length args ≤ 1)%nat by lia.
  revert Hstages. apply (foldlM_invariant (λ args, (length args ≤ 1)%nat)); [simpl; lia|].
  intros acc s acc' Hacc _. by apply stage_loop_length.
Qed.

(** X9. An aggregation maps an object to at most one object, each of its
    stages keeping, dropping or rewriting the object: an Added event gives at
    most one delta. *)
Theorem X9_aggregation_emits_at_most_one_object a obj eng :
  (∀ objs, pipeline.evalAggregation eng a obj = Ok objs → (length objs ≤ 1)%nat)
  ∧ ∀ ds eng', pipeline.EvaluateAggregation a (cache.mkDelta cache.Added (Some obj)) eng
               = (Ok ds, eng') → (length ds ≤ 1)%nat.
Proof.
  split; [apply evalAggregation_length|].
  intros ds eng'. rewrite EvaluateAggregation_Added.
  destruct (duplicate eng obj); [intros; simplify_eq; simpl; lia|].
  destruct (pipeline.evalAggregation eng a _) as [objs| |] eqn:Hagg; intros; simplify_eq.
  unfold deltas. rewrite length_fmap. by eapply evalAggregation_length.
Qed.


(** *** An update through an aggregation *)

Lemma baseViewStore_setStore g s eng :
  pipeline.baseViewStore (setStore g s eng) !! g = Some s.
Proof. unfold setStore, pipeline.putStore. simpl. by rewrite lookup_insert_eq. Qed.

(** The deltas an update is consolidated to, from the outputs of its delete
    half and of its add half. *)
Lemma evaluateAggregation_Updated_Ok a t obj eng s dels adds :
  t = cache.Updated ∨ t = cache.Replaced →
  pipeline.baseViewStore eng !! object.GroupVersionKind obj = Some s →
  match s !! key_of obj with
  | Some old => pipeline.evalAggregation eng a (object.DeepCopy old) = Ok dels
  | None => dels = []
  end →
  pipeline.evalAggregation eng a (object.DeepCopy obj) = Ok adds →
  pipeline.evaluateAggregation a (cache.mkDelta t (Some obj)) eng =
  (Ok (match dels, adds with
       | [o], [n] =>
           if decide (pipeline.ObjectKey o = pipeline.ObjectKey n)
           then [cache.mkDelta cache.Updated (Some n)]
           else [cache.mkDelta cache.Deleted (Some o); cache.mkDelta cache.Added (Some n)]
       | [o], _ => [cache.mkDelta cache.Deleted (Some o)]
       | _, [n] => [cache.mkDelta cache.Added (Some n)]
       | _, _ => []
       end),
   setStore (object.GroupVersionKind obj)
     (<[cache.KeyFunc obj := obj]>
        (match s !! key_of obj with
         | Some old => delete (cache.KeyFunc old) s
         | None => s
         end)) eng).
Proof.
  intros Ht Hs Hdel Hadd.
  rewrite evaluateAggregation_unfold. unfold pipeline.evaluateAggregation_body.
  destruct Ht as [-> | ->]; simpl; unfold_M;
    rewrite (evaluateAggregation_Deleted _ _ _ s) by done;
    (destruct (s !! key_of obj) as [old|] eqn:Hold;
     [rewrite Hdel;
      rewrite (evaluateAggregation_Added _ _ _ (delete (cache.KeyFunc old) s))
        by apply baseViewStore_setStore;
      rewrite evalAggregation_setStore, Hadd, setStore_setStore;
      destruct dels as [|o [|o' dels]], adds as [|n [|n' adds]]
     |subst dels;
      rewrite (evaluateAggregation_Added _ _ _ s) by done;
      rewrite Hadd;
      destruct adds as [|n [|n' adds]]]);
    simpl; try done;
    by destruct (decide (pipeline.ObjectKey o = pipeline.ObjectKey n)).
Qed.

(** X8. An update through an aggregation. With [dels] the outputs for the
    stored version and [adds] the outputs for the new one: no output on either
    side gives no delta; an output for the new version alone is Added; an
    output for the stored version alone is Deleted; an output on both sides is
    one Updated delta with the new output when the two have the same
    namespace and name, and a Deleted followed by an Added otherwise. The new
    version replaces the stored one. *)
Theorem X8_aggregation_update_consolidation a delta obj old eng dels adds :
  cache.Type_ delta = cache.Updated ∨ cache.Type_ delta = cache.Replaced →
  cache.Object delta = Some obj →
  stored eng (object.GroupVersionKind obj) (key_of obj) = Some old →
  object.DeepEqual obj old = false →
  pipeline.evalAggregation eng a (object.DeepCopy old) = Ok dels →
  pipeline.evalAggregation eng a (object.DeepCopy obj) = Ok adds →
  pipeline.EvaluateAggregation a delta eng =
  (Ok (match dels, adds with
       | [o], [n] =>
           if decide (pipeline.ObjectKey o = pipeline.ObjectKey n)
           then [cache.mkDelta cache.Updated (Some n)]
           else [cache.mkDelta cache.Deleted (Some o); cache.mkDelta cache.Added (Some n)]
       | [o], [] => [cache.mkDelta cache.Deleted (Some o)]
       | [], [n] => [cache.mkDelta cache.Added (Some n)]
       | _, _ => []
       end),
   setStore (object.GroupVersionKind obj)
     (<[cache.KeyFunc obj := obj]>
        (delete (cache.KeyFunc old) (storeOf eng (object.GroupVersionKind obj))))
     (withViewStore (object.GroupVersionKind obj) eng)).
Proof.
  intros Ht Hobj Hold Hne Hdel Hadd.
  rewrite (EvaluateAggregation_run a _ obj) by (try done; destruct Ht as [Ht|Ht]; by rewrite Ht).
  cbv zeta.
  assert (Hdup : duplicate eng obj = false) by (unfold duplicate; by rewrite Hold).
  rewrite Hdup.
  assert (Hre : reclassify eng delta obj = cache.mkDelta (cache.Type_ delta) (Some obj)).
  { unfold reclassify. rewrite decide_False by (destruct Ht as [Ht|Ht]; by rewrite Ht).
    by apply delta_eta. }
  rewrite Hre.
  assert (Hif : match cache.Type_ delta with
                | cache.Added | cache.Updated | cache.Upserted | cache.Replaced => false
                | _ => false
                end = false) by by destruct (cache.Type_ delta).
  rewrite Hif.
  rewrite (evaluateAggregation_Updated_Ok a _ obj _
             (storeOf eng (object.GroupVersionKind obj)) dels adds);
    [|done|apply baseViewStore_withViewStore| |by rewrite evalAggregation_withViewStore].
  - unfold stored in Hold. rewrite Hold.
    pose proof (evalAggregation_length _ _ _ _ Hdel) as Hld.
    pose proof (evalAggregation_length _ _ _ _ Hadd) as Hla.
    destruct dels as [|o [|o' dels]], adds as [|n [|n' adds]]; simpl in *; try done; lia.
  - unfold stored in Hold. rewrite Hold. by rewrite evalAggregation_withViewStore.
Qed.


(** *** Upserts and updates as the other events *)

(** X6. An Upserted delta whose object is stored (in any version) is
    evaluated exactly as the Updated delta of that object, by the aggregation
    and by the join. *)
Theorem X6_upsert_of_stored_object_is_update a j obj old eng :
  stored eng (object.GroupVersionKind obj) (key_of obj) = Some old →
  pipeline.EvaluateAggregation a (cache.mkDelta cache.Upserted (Some obj)) eng
  = pipeline.EvaluateAggregation a (cache.mkDelta cache.Updated (Some obj)) eng
  ∧ pipeline.EvaluateJoin j (cache.mkDelta cache.Upserted (Some obj)) eng
    = pipeline.EvaluateJoin j (cache.mkDelta cache.Updated (Some obj)) eng.
Proof.
  intros Hold. split.
  - rewrite !(EvaluateAggregation_run a _ obj) by done. cbn [cache.Type_].
    destruct (duplicate eng obj); [done|].
    unfold reclassify. cbn [cache.Type_]. rewrite Hold.
    rewrite decide_True by done. by rewrite decide_False by done.
  - destruct (duplicate eng obj) eqn:Hdup.
    + rewrite !(EvaluateJoin_duplicate j _ obj) by (first [done|by right; right; left|by right; left]).
      done.
    + rewrite (evaluateJoin_Updated j _ obj); [|done|by right; right|done].
      by rewrite (evaluateJoin_Updated j (cache.mkDelta cache.Updated (Some obj)) obj);
        [|done|by left|done].
Qed.

Lemma present_nil o : present [] o = false.
Proof. done. Qed.

Lemma filter_all {A} (p : A → bool) (l : list A) :
  (∀ x, p x = false) → filter (λ x, p x = false) l = l ∧ filter (λ x, p x = true) l = [].
Proof.
  intros Hp. induction l as [|x l [IH1 IH2]]; [done|].
  rewrite !filter_cons. rewrite decide_True by done. rewrite decide_False by (by rewrite Hp).
  by rewrite IH1, IH2.
Qed.

Lemma deltas_singleton_or_nil t objs :
  (length objs ≤ 1)%nat →
  match objs return list cache.Delta with
  | [n] => [cache.mkDelta t (Some n)]
  | _ => []
  end = deltas t objs.
Proof. destruct objs as [|n [|n' objs]]; simpl; [done|done|lia]. Qed.

(** X7. An Updated or Replaced delta whose object is not stored is evaluated
    as the Added delta of that object, whenever the pipeline evaluates on the
    object without error. *)
Theorem X7_update_of_unknown_object_is_add a j t obj eng :
  t = cache.Updated ∨ t = cache.Replaced →
  stored eng (object.GroupVersionKind obj) (key_of obj) = None →
  (∀ objs, pipeline.evalAggregation eng a (object.DeepCopy obj) = Ok objs →
     pipeline.EvaluateAggregation a (cache.mkDelta t (Some obj)) eng
     = pipeline.EvaluateAggregation a (cache.mkDelta cache.Added (Some obj)) eng)
  ∧ (∀ os, pipeline.evalJoin eng j obj = Ok os →
       pipeline.EvaluateJoin j (cache.mkDelta t (Some obj)) eng
       = pipeline.EvaluateJoin j (cache.mkDelta cache.Added (Some obj)) eng).
Proof.
  intros Ht Habs.
  pose proof (duplicate_absent _ _ Habs) as Hdup.
  split.
  - intros objs Hadd.
    rewrite EvaluateAggregation_Added, Hdup, Hadd.
    rewrite (EvaluateAggregation_run a _ obj)
      by (try done; destruct Ht as [-> | ->]; done).
    cbv zeta. cbn [cache.Type_ cache.Object].
    assert (Hif : match t with
                  | cache.Added | cache.Updated | cache.Upserted | cache.Replaced =>
                      duplicate eng obj
                  | _ => false
                  end = false) by (rewrite Hdup; by destruct t).
    rewrite Hif. unfold reclassify. cbn [cache.Type_].
    rewrite decide_False by (destruct Ht as [-> | ->]; done).
    rewrite (evaluateAggregation_Updated_Ok a t obj _
               (storeOf eng (object.GroupVersionKind obj)) [] objs);
      [|done|apply baseViewStore_withViewStore| |by rewrite evalAggregation_withViewStore].
    + unfold stored in Habs. rewrite Habs. f_equal. f_equal.
      apply deltas_singleton_or_nil. by eapply evalAggregation_length.
    + unfold stored in Habs. by rewrite Habs.
  - intros os Hadd.
    rewrite EvaluateJoin_Added, Hdup, Hadd.
    rewrite (evaluateJoin_Updated j _ obj);
      [|done|destruct Ht as [-> | ->]; [by left|by right; left]|done].
    unfold_M. rewrite evaluateJoin_Deleted.
    rewrite stored_withViewStore, Habs, withViewStore_idem.
    rewrite evaluateJoin_Added, duplicate_withViewStore, Hdup.
    rewrite withViewStore_idem, evalJoin_withViewStore_own, Hadd.
    rewrite storeOf_withViewStore.
    change (@nil cache.Delta) with (deltas cache.Deleted []).
    rewrite diffDeltas_spec.
    destruct (filter_all (present []) os present_nil) as [-> ->]. simpl.
    done.
Qed.


(** *** The engine after an event that was evaluated *)

Lemma evaluateAggregation_Ok_engine a t obj eng s ds eng' :
  t = cache.Added ∨ t = cache.Updated ∨ t = cache.Replaced →
  pipeline.baseViewStore eng !! object.GroupVersionKind obj = Some s →
  pipeline.evaluateAggregation a (cache.mkDelta t (Some obj)) eng = (Ok ds, eng') →
  ∃ s', eng' = setStore (object.GroupVersionKind obj) (<[cache.KeyFunc obj := obj]> s') eng.
Proof.
  intros Ht Hs.
  destruct Ht as [->|Ht].
  { rewrite (evaluateAggregation_Added _ _ _ s) by done.
    destruct (pipeline.evalAggregation eng a _); intros; simplify_eq. by eexists. }
  destruct (pipeline.evalAggregation eng a (object.DeepCopy obj)) as [adds|err|] eqn:Hadd.
  - destruct (s !! key_of obj) as [old|] eqn:Hold.
    + destruct (pipeline.evalAggregation eng a (object.DeepCopy old)) as [dels|err|] eqn:Hdel.
      * rewrite (evaluateAggregation_Updated_Ok a t obj eng s dels adds)
          by (try done; by rewrite Hold).
        intros; simplify_eq. by eexists.
      * rewrite evaluateAggregation_unfold. unfold pipeline.evaluateAggregation_body.
        destruct Ht as [-> | ->]; simpl; unfold_M;
          rewrite (evaluateAggregation_Deleted _ _ _ s), Hold, Hdel by done; done.
      * rewrite evaluateAggregation_unfold. unfold pipeline.evaluateAggregation_body.
        destruct Ht as [-> | ->]; simpl; unfold_M;
          rewrite (evaluateAggregation_Deleted _ _ _ s), Hold, Hdel by done; done.
    + rewrite (evaluateAggregation_Updated_Ok a t obj eng s [] adds)
        by (try done; by rewrite Hold).
      intros; simplify_eq. by eexists.
  - rewrite evaluateAggregation_unfold. unfold pipeline.evaluateAggregation_body.
    destruct Ht as [-> | ->]; simpl; unfold_M;
      rewrite (evaluateAggregation_Deleted _ _ _ s) by done;
      (destruct (s !! key_of obj) as [old|] eqn:Hold;
       [destruct (pipeline.evalAggregation eng a (object.DeepCopy old)) as [dels| |];
        [rewrite (evaluateAggregation_Added _ _ _ (delete (cache.KeyFunc old) s))
           by apply baseViewStore_setStore;
         rewrite evalAggregation_setStore, Hadd|..]
       |rewrite (evaluateAggregation_Added _ _ _ s), Hadd by done]); done.
  - rewrite evaluateAggregation_unfold. unfold pipeline.evaluateAggregation_body.
    destruct Ht as [-> | ->]; simpl; unfold_M;
      rewrite (evaluateAggregation_Deleted _ _ _ s) by done;
      (destruct (s !! key_of obj) as [old|] eqn:Hold;
       [destruct (pipeline.evalAggregation eng a (object.DeepCopy old)) as [dels| |];
        [rewrite (evaluateAggregation_Added _ _ _ (delete (cache.KeyFunc old) s))
           by apply baseViewStore_setStore;
         rewrite evalAggregation_setStore, Hadd|..]
       |rewrite (evaluateAggregation_Added _ _ _ s), Hadd by done]); done.
Qed.

Lemma duplicate_false_stored eng obj old :
  duplicate eng obj = false →
  stored eng (object.GroupVersionKind obj) (key_of obj) = Some old →
  object.DeepEqual obj old = false.
Proof. unfold duplicate. intros Hdup Hold. by rewrite Hold in Hdup. Qed.

Lemma EvaluateJoin_update_Ok_engine j delta obj eng ds eng' :
  cache.Object delta = Some obj →
  update_like eng delta obj →
  duplicate eng obj = false →
  pipeline.EvaluateJoin j delta eng = (Ok ds, eng') →
  ∃ s', eng' = setStore (object.GroupVersionKind obj) (<[cache.KeyFunc obj := obj]> s')
                 (withViewStore (object.GroupVersionKind obj) eng).
Proof.
  intros Hobj Hup Hdup. rewrite (evaluateJoin_Updated j _ obj) by done.
  unfold_M. rewrite evaluateJoin_Deleted.
  rewrite stored_withViewStore, withViewStore_idem, storeOf_withViewStore.
  destruct (stored eng _ _) as [old|] eqn:Hold.
  - destruct (pipeline.evalJoin _ j old) as [dels| |]; [|done..].
    rewrite evaluateJoin_Added.
    pose proof (duplicate_after_delete _ obj old eng eq_refl Hold
                  (duplicate_false_stored _ _ _ Hdup Hold)) as Hdup'.
    rewrite Hdup'. rewrite withViewStore_setStore, evalJoin_setStore_own,
      evalJoin_withViewStore_own, storeOf_setStore, setStore_setStore.
    destruct (pipeline.evalJoin eng j obj) as [adds| |]; [|done..].
    destruct (pipeline.diffDeltas _ _) as [[x y] z]. intros; simplify_eq. by eexists.
  - rewrite evaluateJoin_Added, duplicate_withViewStore, Hdup.
    rewrite withViewStore_idem, evalJoin_withViewStore_own.
    destruct (pipeline.evalJoin eng j obj) as [adds| |]; [|done..].
    destruct (pipeline.diffDeltas _ _) as [[x y] z]. intros; simplify_eq. by eexists.
Qed.

Lemma duplicate_after_insert obj s eng :
  object.DeepEqual obj obj = true →
  duplicate (setStore (object.GroupVersionKind obj) (<[cache.KeyFunc obj := obj]> s) eng) obj
  = true.
Proof.
  intros Hrefl. unfold duplicate. rewrite stored_setStore, decide_True by done.
  change (key_of obj) with (cache.KeyFunc obj). by rewrite lookup_insert_eq.
Qed.

Lemma duplicate_true_withViewStore eng obj :
  duplicate eng obj = true → withViewStore (object.GroupVersionKind obj) eng = eng.
Proof.
  unfold duplicate.
  destruct (stored eng _ _) as [old|] eqn:Hold; [|done].
  intros _. by eapply withViewStore_stored.
Qed.

(** X2. An event evaluated twice: when the evaluation of an Added, Updated,
    Upserted or Replaced delta has returned without error, evaluating the same
    delta again on the engine it left returns no delta and leaves the engine
    as it is (the object being deep-equal to itself). *)
Theorem X2_repeated_event_is_ignored a j delta obj eng ds eng' :
  cache.Object delta = Some obj →
  cache.Type_ delta = cache.Added ∨ cache.Type_ delta = cache.Updated
  ∨ cache.Type_ delta = cache.Upserted ∨ cache.Type_ delta = cache.Replaced →
  object.DeepEqual obj obj = true →
  (pipeline.EvaluateAggregation a delta eng = (Ok ds, eng') →
     pipeline.EvaluateAggregation a delta eng' = (Ok [], eng'))
  ∧ (pipeline.EvaluateJoin j delta eng = (Ok ds, eng') →
       pipeline.EvaluateJoin j delta eng' = (Ok [], eng')).
Proof.
  intros Hobj Ht Hrefl.
  assert (Hdone : ∀ eng1, duplicate eng1 obj = true →
            pipeline.EvaluateAggregation a delta eng1 = (Ok [], eng1)
            ∧ pipeline.EvaluateJoin j delta eng1 = (Ok [], eng1)).
  { intros eng1 Hdup1.
    rewrite (EvaluateAggregation_duplicate a _ obj), (EvaluateJoin_duplicate j _ obj) by done.
    by rewrite duplicate_true_withViewStore. }
  split; intros Hrun.
  - enough (duplicate eng' obj = true) by by apply Hdone.
    rewrite (EvaluateAggregation_run a _ obj) in Hrun
      by (try done; destruct Ht as [Ht|[Ht|[Ht|Ht]]]; by rewrite Ht).
    cbv zeta in Hrun.
    assert (Hif : match cache.Type_ delta with
                  | cache.Added | cache.Updated | cache.Upserted | cache.Replaced =>
                      duplicate eng obj
                  | _ => false
                  end = duplicate eng obj)
      by (destruct Ht as [Ht|[Ht|[Ht|Ht]]]; by rewrite Ht).
    rewrite Hif in Hrun. destruct (duplicate eng obj) eqn:Hdup.
    + simplify_eq. by rewrite duplicate_withViewStore.
    + assert (∃ t, (t = cache.Added ∨ t = cache.Updated ∨ t = cache.Replaced)
                   ∧ reclassify eng delta obj = cache.mkDelta t (Some obj)) as (t & Ht' & Hre).
      { destruct (reclassify_cases eng delta obj Hobj) as [[Hn ->]|[(_&_&->)|(_&_&->)]].
        - exists (cache.Type_ delta). split; [|by apply delta_eta].
          destruct Ht as [Ht|[Ht|[Ht|Ht]]]; auto. done.
        - exists cache.Added. auto.
        - exists cache.Updated. auto. }
      rewrite Hre in Hrun.
      apply (evaluateAggregation_Ok_engine _ _ _ _ (storeOf eng (object.GroupVersionKind obj)))
        in Hrun as [s' ->]; [|done|apply baseViewStore_withViewStore].
      by apply duplicate_after_insert.
  - enough (duplicate eng' obj = true) by by apply Hdone.
    destruct (duplicate eng obj) eqn:Hdup.
    + rewrite (EvaluateJoin_duplicate j _ obj) in Hrun by done.
      simplify_eq. by rewrite duplicate_withViewStore.
    + destruct (reclassify_cases eng delta obj Hobj) as [[Hn _]|[(Hu&Habs&_)|(Hu&Hsome&_)]].
      * destruct Ht as [Ht|[Ht|[Ht|Ht]]]; [|..|done| ].
        -- rewrite (delta_eta delta _ obj Ht Hobj), EvaluateJoin_Added, Hdup in Hrun.
           destruct (pipeline.evalJoin eng j obj); simplify_eq.
           by apply duplicate_after_insert.
        -- apply (EvaluateJoin_update_Ok_engine j _ obj) in Hrun as [s' ->];
             [|done|by left|done].
           by apply duplicate_after_insert.
        -- apply (EvaluateJoin_update_Ok_engine j _ obj) in Hrun as [s' ->];
             [|done|by right; left|done].
           by apply duplicate_after_insert.
      * rewrite (delta_eta delta _ obj Hu Hobj), EvaluateJoin_Upserted_absent,
          EvaluateJoin_Added, Hdup in Hrun by done.
        destruct (pipeline.evalJoin eng j obj); simplify_eq.
        by apply duplicate_after_insert.
      * apply (EvaluateJoin_update_Ok_engine j _ obj) in Hrun as [s' ->];
          [|done|by right; right|done].
        by apply duplicate_after_insert.
Qed.


(** *** Adding and deleting an object *)

Lemma same_contents_add_delete obj eng :
  stored eng (object.GroupVersionKind obj) (key_of obj) = None →
  same_contents eng
    (setStore (object.GroupVersionKind obj)
       (delete (cache.KeyFunc obj)
          (<[cache.KeyFunc obj := obj]> (storeOf eng (object.GroupVersionKind obj))))
       (setStore (object.GroupVersionKind obj)
          (<[cache.KeyFunc obj := obj]> (storeOf eng (object.GroupVersionKind obj)))
          (withViewStore (object.GroupVersionKind obj) eng))).
Proof.
  intros Habs g key. rewrite setStore_setStore, stored_setStore, stored_withViewStore.
  destruct (decide (g = _)) as [->|]; [|done].
  rewrite delete_insert_id by done. done.
Qed.

(** X5. An object that was not stored, added and then deleted: the delete
    emits as Deleted the objects the add emitted as Added, and the stores hold
    again what they held before the add. *)
Theorem X5_add_then_delete_restores_the_stores a j obj eng ds eng1 :
  stored eng (object.GroupVersionKind obj) (key_of obj) = None →
  (pipeline.EvaluateAggregation a (cache.mkDelta cache.Added (Some obj)) eng = (Ok ds, eng1) →
     ∃ objs eng2,
       ds = deltas cache.Added objs
       ∧ pipeline.EvaluateAggregation a (cache.mkDelta cache.Deleted (Some obj)) eng1
         = (Ok (deltas cache.Deleted objs), eng2)
       ∧ same_contents eng eng2)
  ∧ (pipeline.EvaluateJoin j (cache.mkDelta cache.Added (Some obj)) eng = (Ok ds, eng1) →
       ∃ os eng2,
         ds = deltas cache.Added os
         ∧ pipeline.EvaluateJoin j (cache.mkDelta cache.Deleted (Some obj)) eng1
           = (Ok (deltas cache.Deleted os), eng2)
         ∧ same_contents eng eng2).
Proof.
  intros Habs. pose proof (duplicate_absent _ _ Habs) as Hdup. split.
  - rewrite EvaluateAggregation_Added, Hdup.
    destruct (pipeline.evalAggregation eng a (object.DeepCopy obj)) as [objs| |] eqn:Hagg;
      intros; simplify_eq.
    eexists objs, _. split; [done|]. split; [|by apply same_contents_add_delete].
    rewrite (EvaluateAggregation_run a _ obj) by done. cbn [cache.Type_]. cbv zeta.
    unfold reclassify. cbn [cache.Type_]. rewrite decide_False by done.
    rewrite withViewStore_setStore.
    rewrite (evaluateAggregation_Deleted a obj _ _ (baseViewStore_setStore _ _ _)).
    change (key_of obj) with (cache.KeyFunc obj). rewrite lookup_insert_eq.
    by rewrite evalAggregation_setStore, evalAggregation_withViewStore, Hagg.
  - rewrite EvaluateJoin_Added, Hdup.
    destruct (pipeline.evalJoin eng j obj) as [os| |] eqn:Hjoin; intros; simplify_eq.
    eexists os, _. split; [done|]. split; [|by apply same_contents_add_delete].
    unfold pipeline.EvaluateJoin. rewrite evaluateJoin_Deleted.
    rewrite stored_setStore, decide_True by done.
    change (key_of obj) with (cache.KeyFunc obj). rewrite lookup_insert_eq.
    rewrite withViewStore_setStore, evalJoin_setStore_own, evalJoin_withViewStore_own, Hjoin.
    by rewrite storeOf_setStore.
Qed.

(** X4. After a Deleted event that was evaluated for a stored object (stored
    under its own key), no version of the object is stored, the other entries
    are unchanged, and a second Deleted event for it is ignored. *)
Theorem X4_deleted_object_is_gone a j obj old eng ds eng' :
  stored eng (object.GroupVersionKind obj) (key_of obj) = Some old →
  cache.KeyFunc old = key_of obj →
  pipeline.EvaluateAggregation a (cache.mkDelta cache.Deleted (Some obj)) eng = (Ok ds, eng')
  ∨ pipeline.EvaluateJoin j (cache.mkDelta cache.Deleted (Some obj)) eng = (Ok ds, eng') →
  stored eng' (object.GroupVersionKind obj) (key_of obj) = None
  ∧ (∀ g key, (g, key) ≠ (object.GroupVersionKind obj, key_of obj) →
              stored eng' g key = stored eng g key)
  ∧ pipeline.EvaluateAggregation a (cache.mkDelta cache.Deleted (Some obj)) eng' = (Ok [], eng')
  ∧ pipeline.EvaluateJoin j (cache.mkDelta cache.Deleted (Some obj)) eng' = (Ok [], eng').
Proof.
  intros Hold Hkey Hrun.
  assert (Heng : eng' = setStore (object.GroupVersionKind obj)
            (delete (key_of obj) (storeOf eng (object.GroupVersionKind obj)))
            (withViewStore (object.GroupVersionKind obj) eng)).
  { destruct Hrun as [Hrun|Hrun].
    - rewrite (EvaluateAggregation_run a _ obj) in Hrun by done.
      cbn [cache.Type_] in Hrun. cbv zeta in Hrun.
      unfold reclassify in Hrun. cbn [cache.Type_] in Hrun.
      rewrite decide_False in Hrun by done.
      rewrite (evaluateAggregation_Deleted a obj _ _ (baseViewStore_withViewStore _ _)) in Hrun.
      unfold stored in Hold. rewrite Hold, Hkey in Hrun.
      destruct (pipeline.evalAggregation _ a _); by simplify_eq.
    - unfold pipeline.EvaluateJoin in Hrun. rewrite evaluateJoin_Deleted, Hold, Hkey in Hrun.
      destruct (pipeline.evalJoin _ j _); by simplify_eq. }
  subst eng'.
  assert (Hgone : stored (setStore (object.GroupVersionKind obj)
            (delete (key_of obj) (storeOf eng (object.GroupVersionKind obj)))
            (withViewStore (object.GroupVersionKind obj) eng))
            (object.GroupVersionKind obj) (key_of obj) = None).
  { rewrite stored_setStore, decide_True by done. apply lookup_delete_eq. }
  split_and!; [done| | |].
  - intros g key Hne. rewrite stored_setStore, stored_withViewStore.
    destruct (decide (g = _)) as [->|]; [|done].
    rewrite lookup_delete_ne by congruence. done.
  - rewrite EvaluateAggregation_Deleted_absent by done. by rewrite withViewStore_setStore.
  - rewrite EvaluateJoin_Deleted_absent by done. by rewrite withViewStore_setStore.
Qed.


(** *** The events that are not evaluated *)

(** X12. [IsValidEvent] returns without error and without changing the
    contents of the stores, and it rejects an event exactly when the event
    carries no object or is an Added, Updated, Upserted or Replaced delta whose
    object is deep-equal to the stored version. *)
Theorem X12_event_is_rejected_only_as_a_duplicate delta eng :
  ∃ valid eng',
    pipeline.IsValidEvent delta eng = (Ok valid, eng')
    ∧ same_contents eng eng'
    ∧ (valid = false ↔
       cache.Object delta = None
       ∨ ∃ obj old,
           cache.Object delta = Some obj
           ∧ (cache.Type_ delta = cache.Added ∨ cache.Type_ delta = cache.Updated
              ∨ cache.Type_ delta = cache.Upserted ∨ cache.Type_ delta = cache.Replaced)
           ∧ stored eng (object.GroupVersionKind obj) (key_of obj) = Some old
           ∧ object.DeepEqual obj old = true).
Proof.
  destruct (cache.Object delta) as [obj|] eqn:Hobj.
  - rewrite (IsValidEvent_run _ obj) by done.
    eexists _, _. split; [done|]. split; [apply same_contents_withViewStore|].
    split.
    + intros Hv. right. exists obj.
      destruct (cache.Type_ delta) eqn:Ht; try done;
        (destruct (stored eng _ _) as [old|] eqn:Hold; [|done]);
        exists old; split_and!; auto; by destruct (object.DeepEqual obj old).
    + intros [?|(obj' & old & ? & Ht & Hold & Heq)]; [done|]. simplify_eq.
      rewrite Hold, Heq. by destruct Ht as [->|[->|[->| ->]]].
  - exists false, eng. split; [|split; [done|]; split; [by left|done]].
    unfold pipeline.IsValidEvent. by rewrite Hobj.
Qed.

(** *** The join: views and stores *)

(** X17. With fewer than two base views the join fails with the error
    [at least two views required], and an Added event that is not a duplicate
    returns an error and stores nothing. *)
Theorem X17_join_needs_two_base_views j obj eng :
  (length (pipeline.baseviews eng) < 2)%nat →
  pipeline.evalJoin eng j obj
  = Err (expression.NewExpressionError (pipeline.Expression j)
           (errors_New "at least two views required"))
  ∧ (duplicate eng obj = false →
     ∃ e, pipeline.EvaluateJoin j (cache.mkDelta cache.Added (Some obj)) eng
          = (Err e, withViewStore (object.GroupVersionKind obj) eng)).
Proof.
  intros Hlen.
  assert (Hjoin : pipeline.evalJoin eng j obj
    = Err (expression.NewExpressionError (pipeline.Expression j)
             (errors_New "at least two views required"))).
  { unfold pipeline.evalJoin, pipeline.product. by rewrite decide_True. }
  split; [done|]. intros Hdup. rewrite EvaluateJoin_Added, Hdup, Hjoin. by eexists.
Qed.

(** X18. On an engine with at least two base views, a base view of another
    kind whose store exists and is empty leaves the join without any
    combination: the result is empty, with no error, whatever the condition
    is. *)
Theorem X18_empty_store_silences_the_join j obj eng view :
  (2 ≤ length (pipeline.baseviews eng))%nat →
  view ∈ pipeline.baseviews eng →
  pipeline.baseViewStore eng !! view = Some ∅ →
  object.GroupVersionKind obj ≠ view →
  pipeline.evalJoin eng j obj = Ok [].
Proof.
  intros Hlen Hin Hempty Hne.
  unfold pipeline.evalJoin, pipeline.product. rewrite decide_False by lia.
  rewrite recurseProd_spec.
  by rewrite (combinations_empty_store eng obj _ view).
Qed.


(** *** The difference of two lists of deltas *)

Lemma diffDeltas_filter (dels adds : list cache.Delta) :
  pipeline.diffDeltas dels adds
  = ((λ δ, cache.mkDelta cache.Added (cache.Object δ))
       <$> filter (λ δ, pipeline.containsDelta dels δ = false) adds,
     (λ δ, cache.mkDelta cache.Updated (cache.Object δ))
       <$> filter (λ δ, pipeline.containsDelta dels δ = true) adds,
     (λ δ, cache.mkDelta cache.Deleted (cache.Object δ))
       <$> filter (λ δ, pipeline.containsDelta adds δ = false) dels).
Proof.
  unfold pipeline.diffDeltas.
  rewrite (foldl_snoc_filter (pipeline.containsDelta adds)
             (λ δ, cache.mkDelta cache.Deleted (cache.Object δ))).
  by rewrite (foldl_split_filter (pipeline.containsDelta dels)
                (λ δ, cache.mkDelta cache.Added (cache.Object δ))
                (λ δ, cache.mkDelta cache.Updated (cache.Object δ))).
Qed.

Lemma filter_partition {A} (p : A → bool) (l : list A) :
  filter (λ x, p x = true) l ++ filter (λ x, p x = false) l ≡ₚ l.
Proof.
  induction l as [|x l IH]; [done|]. rewrite !filter_cons.
  destruct (p x); simpl.
  - by f_equiv.
  - rewrite <- Permutation_middle. by f_equiv.
Qed.

(** X20. [diffDeltas] classifies every delta of the add half, as Updated when
    the delete half holds a delta of its identity and as Added otherwise, and
    keeps as Deleted only deltas of the delete half that the add half has no
    delta of the identity of. *)
Theorem X20_diffDeltas_classifies_the_add_half (dels adds a m d : list cache.Delta) :
  pipeline.diffDeltas dels adds = (a, m, d) →
  cache.Object <$> (m ++ a) ≡ₚ cache.Object <$> adds
  ∧ cache.Object <$> d ⊆ cache.Object <$> dels
  ∧ Forall (λ δ, cache.Type_ δ = cache.Added ∧ pipeline.containsDelta dels δ = false) a
  ∧ Forall (λ δ, cache.Type_ δ = cache.Updated ∧ pipeline.containsDelta dels δ = true) m
  ∧ Forall (λ δ, cache.Type_ δ = cache.Deleted ∧ pipeline.containsDelta adds δ = false) d.
Proof.
  rewrite diffDeltas_filter. intros; simplify_eq. split_and!.
  - rewrite fmap_app, <- !list_fmap_compose.
    rewrite <- (filter_partition (pipeline.containsDelta dels) adds) at 3.
    by rewrite fmap_app.
  - rewrite <- list_fmap_compose. intros o.
    rewrite !list_elem_of_fmap. intros (δ & -> & Hin%list_elem_of_filter). exists δ. tauto.
  - apply Forall_fmap, Forall_forall. by intros δ [? ?]%list_elem_of_filter.
  - apply Forall_fmap, Forall_forall. by intros δ [? ?]%list_elem_of_filter.
  - apply Forall_fmap, Forall_forall. by intros δ [? ?]%list_elem_of_filter.
Qed.

Lemma filter_all_true {A} (p : A → bool) (l : list A) :
  (∀ x, x ∈ l → p x = true) →
  filter (λ x, p x = true) l = l ∧ filter (λ x, p x = false) l = [].
Proof.
  induction l as [|x l IH]; intros Hp; [done|].
  destruct IH as [IH1 IH2]; [intros; apply Hp; by right|].
  rewrite !filter_cons. rewrite (Hp x) by by left.
  rewrite decide_True by done. rewrite decide_False by done. by rewrite IH1, IH2.
Qed.

Lemma containsDelta_elem_of (ds : list cache.Delta) δ :
  δ ∈ ds → is_Some (cache.Object δ) → pipeline.containsDelta ds δ = true.
Proof.
  intros Hin [o Ho]. unfold pipeline.containsDelta.
  apply existsb_exists. exists δ. split; [by apply list_elem_of_In|].
  rewrite Ho. by rewrite !bool_decide_eq_true_2.
Qed.

(** X21. The difference of a list of deltas with itself: when every delta
    carries an object, each one is Updated and nothing is Added or Deleted. *)
Theorem X21_diffDeltas_of_a_list_with_itself (ds : list cache.Delta) :
  Forall (λ δ, is_Some (cache.Object δ)) ds →
  pipeline.diffDeltas ds ds
  = ([], (λ δ, cache.mkDelta cache.Updated (cache.Object δ)) <$> ds, []).
Proof.
  intros Hobj. rewrite diffDeltas_filter.
  assert (Hall : ∀ δ, δ ∈ ds → pipeline.containsDelta ds δ = true).
  { intros δ Hin. apply containsDelta_elem_of; [done|].
    by eapply (proj1 (Forall_forall _ _) Hobj). }
  destruct (filter_all_true (pipeline.containsDelta ds) ds Hall) as [Htrue Hfalse].
  by rewrite Hfalse, Htrue.
Qed.


(** *** The stages of an aggregation *)

Lemma stages_of_nothing (stages : list expression.Expression) :
  foldlM (λ args s, foldlM (λ sres u, ret ← pipeline.evalStage s u; Ok (sres ++ ret)) [] args)
         [] stages = Ok [].
Proof. by induction stages. Qed.

(** X11. Once a stage has dropped the object, the later stages are not
    evaluated: the aggregation returns no object and no error, whatever the
    later stages are. *)
Theorem X11_dropped_object_skips_the_later_stages eng s rest obj :
  pipeline.evalStage s (object.UnstructuredContent obj) = Ok [] →
  pipeline.evalAggregation eng (pipeline.mkAggregation (s :: rest)) obj = Ok [].
Proof.
  intros Hdrop. unfold pipeline.evalAggregation. cbn [pipeline.Expressions foldlM].
  rewrite Hdrop. cbn [mbind result_bind app]. by rewrite stages_of_nothing.
Qed.

Lemma metadata_name_nonempty (content : unstruct) n :
  metadata_name content = Some n → n ≠ "".
Proof.
  unfold metadata_name. intros Hn. repeat case_match; by simplify_eq.
Qed.

Lemma Normalize_Ok_identity `{!IdentityLaws} eng (content : unstruct) obj :
  pipeline.Normalize eng content = Ok obj →
  schema.Kind (object.GroupVersionKind obj) = pipeline.View eng
  ∧ object.GetName obj ≠ ""
  ∧ metadata_name content = Some (object.GetName obj)
  ∧ object.GetNamespace obj = metadata_namespace content.
Proof.
  intros Hrun. pose proof (Normalize_errors eng content) as Herr.
  rewrite Hrun in Herr. destruct Herr as (n & Hn & Hns).
  rewrite Normalize_run, Hn, Hns in Hrun. simplify_eq.
  rewrite GroupVersionKind_SetNamespace, GroupVersionKind_SetName,
    GroupVersionKind_SetContent, Kind_NewViewObject.
  rewrite GetName_SetNamespace, GetName_SetName, GetNamespace_SetNamespace.
  split_and!; try done. by eapply metadata_name_nonempty.
Qed.

(** X10. Every object an aggregation returns is an object of the target view
    of the engine and has a non-empty name. *)
Theorem X10_aggregation_outputs_belong_to_the_target_view `{!IdentityLaws} a obj eng objs :
  pipeline.evalAggregation eng a obj = Ok objs →
  Forall (λ o, schema.Kind (object.GroupVersionKind o) = pipeline.View eng
               ∧ object.GetName o ≠ "") objs.
Proof.
  unfold pipeline.evalAggregation.
  destruct (foldlM _ _ (pipeline.Expressions a)) as [args| |]; [|done..]. simpl.
  apply (foldlM_invariant
           (Forall (λ o, schema.Kind (object.GroupVersionKind o) = pipeline.View eng
                         ∧ object.GetName o ≠ ""))); [done|].
  intros ret u ret' Hret _.
  destruct (pipeline.Normalize eng u) as [o| |] eqn:Hnorm; simpl; intros; simplify_eq.
  apply Forall_app. split; [done|]. apply Forall_singleton.
  apply Normalize_Ok_identity in Hnorm. tauto.
Qed.

(** *** Objects given to the engine beforehand *)

Lemma WithObjects_cons o objs eng :
  pipeline.WithObjects (o :: objs) eng
  = pipeline.WithObjects objs
      (setStore (object.GroupVersionKind o)
         (<[cache.KeyFunc o := o]> (storeOf eng (object.GroupVersionKind o)))
         (withViewStore (object.GroupVersionKind o) eng)).
Proof.
  cbn [pipeline.WithObjects]. unfold_M.
  by rewrite initViewStore_run, getStore_withViewStore.
Qed.

Lemma WithObjects_Ok objs eng : (pipeline.WithObjects objs eng).1 = Ok ().
Proof.
  revert eng. induction objs as [|o objs IH]; intros eng; [done|].
  rewrite WithObjects_cons. apply IH.
Qed.

Lemma WithObjects_other objs eng g key :
  (∀ o, o ∈ objs → (object.GroupVersionKind o, cache.KeyFunc o) ≠ (g, key)) →
  stored (pipeline.WithObjects objs eng).2 g key = stored eng g key.
Proof.
  revert eng. induction objs as [|o objs IH]; intros eng Hother; [done|].
  rewrite WithObjects_cons, IH by (intros o' Hin; apply Hother; by right).
  rewrite stored_after_add by done. rewrite decide_False; [done|].
  intros Heq. apply (Hother o); [by left|]. by simplify_eq.
Qed.

Lemma WithObjects_last before o after eng :
  (∀ o', o' ∈ after →
     (object.GroupVersionKind o', cache.KeyFunc o')
     ≠ (object.GroupVersionKind o, cache.KeyFunc o)) →
  stored (pipeline.WithObjects (before ++ o :: after) eng).2
    (object.GroupVersionKind o) (key_of o) = Some o.
Proof.
  intros Hafter. revert eng. induction before as [|o' before IH]; intros eng.
  - cbn [app]. rewrite WithObjects_cons, WithObjects_other by done.
    rewrite stored_after_add by done. by rewrite decide_True.
  - rewrite <- app_comm_cons, WithObjects_cons. apply IH.
Qed.

(** X15. [WithObjects] stores the objects it is given: each one is found
    under its key in the store of its kind unless a later one of the list
    takes that key, and the entries of other keys are unchanged. *)
Theorem X15_WithObjects_stores_the_objects objs eng :
  (pipeline.WithObjects objs eng).1 = Ok ()
  ∧ (∀ before o after,
       objs = before ++ o :: after →
       (∀ o', o' ∈ after →
          (object.GroupVersionKind o', cache.KeyFunc o')
          ≠ (object.GroupVersionKind o, cache.KeyFunc o)) →
       stored (pipeline.WithObjects objs eng).2 (object.GroupVersionKind o) (key_of o) = Some o)
  ∧ (∀ g key,
       (∀ o, o ∈ objs → (object.GroupVersionKind o, cache.KeyFunc o) ≠ (g, key)) →
       stored (pipeline.WithObjects objs eng).2 g key = stored eng g key).
Proof.
  split_and!.
  - apply WithObjects_Ok.
  - intros before o after -> Hafter. by apply WithObjects_last.
  - intros g key Hother. by apply WithObjects_other.
Qed.


(** *** What an event changes in the stores *)

Lemma touches_only_refl o eng : touches_only o eng eng.
Proof. intros g key x Hx. by left. Qed.

Lemma touches_only_trans o eng1 eng2 eng3 :
  touches_only o eng1 eng2 → touches_only o eng2 eng3 → touches_only o eng1 eng3.
Proof.
  intros H12 H23 g key x Hx. destruct (H23 _ _ _ Hx) as [Hx2|?]; [|by right].
  by apply H12.
Qed.

Lemma touches_only_withViewStore o g eng : touches_only o eng (withViewStore g eng).
Proof. intros g' key x. rewrite stored_withViewStore. by left. Qed.

Lemma touches_only_insert obj eng :
  touches_only (Some obj) eng
    (setStore (object.GroupVersionKind obj)
       (<[cache.KeyFunc obj := obj]> (storeOf eng (object.GroupVersionKind obj))) eng).
Proof.
  intros g key x. rewrite stored_setStore.
  destruct (decide (g = _)) as [->|]; [|by left].
  destruct (decide (key = cache.KeyFunc obj)) as [->|Hk].
  - rewrite lookup_insert_eq. intros; simplify_eq. by right.
  - rewrite lookup_insert_ne by done. by left.
Qed.

Lemma touches_only_delete o g key eng :
  touches_only o eng (setStore g (delete key (storeOf eng g)) eng).
Proof.
  intros g' key' x. rewrite stored_setStore.
  destruct (decide (g' = g)) as [->|]; [|by left].
  intros [_ Hx]%lookup_delete_Some. by left.
Qed.

Lemma evaluateAggregation_Added_touches a obj eng s :
  pipeline.baseViewStore eng !! object.GroupVersionKind obj = Some s →
  touches_only (Some obj) eng
    (pipeline.evaluateAggregation a (cache.mkDelta cache.Added (Some obj)) eng).2
  ∧ is_Some (pipeline.baseViewStore
       (pipeline.evaluateAggregation a (cache.mkDelta cache.Added (Some obj)) eng).2
       !! object.GroupVersionKind obj).
Proof.
  intros Hs. rewrite (evaluateAggregation_Added _ _ _ s) by done.
  destruct (pipeline.evalAggregation eng a _); cbn [snd];
    try (split; [apply touches_only_refl|by eexists]).
  split; [|rewrite baseViewStore_setStore; by eexists].
  rewrite <- (storeOf_Some eng _ s Hs). apply touches_only_insert.
Qed.

Lemma evaluateAggregation_Deleted_touches a obj eng s :
  pipeline.baseViewStore eng !! object.GroupVersionKind obj = Some s →
  touches_only (Some obj) eng
    (pipeline.evaluateAggregation a (cache.mkDelta cache.Deleted (Some obj)) eng).2
  ∧ is_Some (pipeline.baseViewStore
       (pipeline.evaluateAggregation a (cache.mkDelta cache.Deleted (Some obj)) eng).2
       !! object.GroupVersionKind obj).
Proof.
  intros Hs. rewrite (evaluateAggregation_Deleted _ _ _ s) by done.
  destruct (s !! key_of obj) as [old|]; [|split; [apply touches_only_refl|by eexists]].
  destruct (pipeline.evalAggregation eng a _); cbn [snd];
    try (split; [apply touches_only_refl|by eexists]).
  split; [|rewrite baseViewStore_setStore; by eexists].
  rewrite <- (storeOf_Some eng _ s Hs). apply touches_only_delete.
Qed.

Lemma evaluateAggregation_Updated_engine a t obj eng :
  t = cache.Updated ∨ t = cache.Replaced →
  (pipeline.evaluateAggregation a (cache.mkDelta t (Some obj)) eng).2
  = match pipeline.evaluateAggregation a (cache.mkDelta cache.Deleted (Some obj)) eng with
    | (Ok _, eng1) =>
        (pipeline.evaluateAggregation a (cache.mkDelta cache.Added (Some obj)) eng1).2
    | (_, eng1) => eng1
    end.
Proof.
  intros Ht. rewrite evaluateAggregation_unfold. unfold pipeline.evaluateAggregation_body.
  destruct Ht as [-> | ->]; simpl; unfold_M;
    (destruct (pipeline.evaluateAggregation a (cache.mkDelta cache.Deleted (Some obj)) eng)
       as [[dd| |] eng1]; [|done..]);
    (destruct (pipeline.evaluateAggregation a (cache.mkDelta cache.Added (Some obj)) eng1)
       as [[ad| |] eng2]; [|done..]);
    simpl; repeat case_match; done.
Qed.

Lemma evaluateAggregation_touches a t obj eng s :
  t ≠ cache.Upserted →
  pipeline.baseViewStore eng !! object.GroupVersionKind obj = Some s →
  touches_only (Some obj) eng (pipeline.evaluateAggregation a (cache.mkDelta t (Some obj)) eng).2.
Proof.
  intros Ht Hs. destruct t; try done.
  - by apply (evaluateAggregation_Added_touches a obj eng s).
  - by apply (evaluateAggregation_Deleted_touches a obj eng s).
  - rewrite evaluateAggregation_Updated_engine by by left.
    destruct (evaluateAggregation_Deleted_touches a obj eng s Hs) as [Hdel [s1 Hs1]].
    destruct (pipeline.evaluateAggregation a (cache.mkDelta cache.Deleted _) eng)
      as [[dd| |] eng1]; try done.
    eapply touches_only_trans; [done|].
    by apply (evaluateAggregation_Added_touches a obj eng1 s1).
  - rewrite evaluateAggregation_Updated_engine by by right.
    destruct (evaluateAggregation_Deleted_touches a obj eng s Hs) as [Hdel [s1 Hs1]].
    destruct (pipeline.evaluateAggregation a (cache.mkDelta cache.Deleted _) eng)
      as [[dd| |] eng1]; try done.
    eapply touches_only_trans; [done|].
    by apply (evaluateAggregation_Added_touches a obj eng1 s1).
  - rewrite evaluateAggregation_unfold. apply touches_only_refl.
Qed.

Lemma EvaluateAggregation_touches a delta eng :
  touches_only (cache.Object delta) eng (pipeline.EvaluateAggregation a delta eng).2.
Proof.
  destruct (decide (cache.Type_ delta = cache.Unchanged)) as [Hu|Hu].
  { unfold pipeline.EvaluateAggregation, cache.IsUnchanged.
    rewrite bool_decide_eq_true_2 by done. apply touches_only_refl. }
  destruct (cache.Object delta) as [obj|] eqn:Hobj.
  - rewrite (EvaluateAggregation_run a _ obj) by done. cbv zeta.
    destruct (match cache.Type_ delta with
              | cache.Added | cache.Updated | cache.Upserted | cache.Replaced =>
                  duplicate eng obj
              | _ => false
              end); [apply touches_only_withViewStore|].
    eapply touches_only_trans; [apply (touches_only_withViewStore _ (object.GroupVersionKind obj))|].
    assert (∃ t, t ≠ cache.Upserted ∧ reclassify eng delta obj = cache.mkDelta t (Some obj))
      as (t & Ht & ->).
    { destruct (reclassify_cases eng delta obj Hobj) as [[Hn ->]|[(_&_&->)|(_&_&->)]].
      - exists (cache.Type_ delta). split; [done|by apply delta_eta].
      - by exists cache.Added.
      - by exists cache.Updated. }
    apply (evaluateAggregation_touches a t obj _ (storeOf eng (object.GroupVersionKind obj)));
      [done|apply baseViewStore_withViewStore].
  - unfold pipeline.EvaluateAggregation, cache.IsUnchanged.
    rewrite bool_decide_eq_false_2 by done. rewrite Hobj. apply touches_only_refl.
Qed.


Lemma evaluateJoin_Added_touches j obj eng :
  touches_only (Some obj) eng
    (pipeline.evaluateJoin j (cache.mkDelta cache.Added (Some obj)) eng).2.
Proof.
  rewrite evaluateJoin_Added.
  destruct (duplicate eng obj); [apply touches_only_withViewStore|].
  destruct (pipeline.evalJoin _ j obj); cbn [snd]; try apply touches_only_withViewStore.
  eapply touches_only_trans; [apply (touches_only_withViewStore _ (object.GroupVersionKind obj))|].
  rewrite <- (storeOf_withViewStore (object.GroupVersionKind obj)).
  apply touches_only_insert.
Qed.

Lemma evaluateJoin_Deleted_touches j obj eng :
  touches_only (Some obj) eng
    (pipeline.evaluateJoin j (cache.mkDelta cache.Deleted (Some obj)) eng).2.
Proof.
  rewrite evaluateJoin_Deleted.
  destruct (stored eng _ _) as [old|]; [|apply touches_only_withViewStore].
  destruct (pipeline.evalJoin _ j old); cbn [snd]; try apply touches_only_withViewStore.
  eapply touches_only_trans; [apply (touches_only_withViewStore _ (object.GroupVersionKind obj))|].
  rewrite <- (storeOf_withViewStore (object.GroupVersionKind obj)).
  apply touches_only_delete.
Qed.

Lemma EvaluateJoin_update_touches j delta obj eng :
  cache.Object delta = Some obj →
  update_like eng delta obj →
  duplicate eng obj = false →
  touches_only (Some obj) eng (pipeline.EvaluateJoin j delta eng).2.
Proof.
  intros Hobj Hup Hdup. rewrite (evaluateJoin_Updated j _ obj) by done. unfold_M.
  pose proof (evaluateJoin_Deleted_touches j obj
                (withViewStore (object.GroupVersionKind obj) eng)) as Hdel.
  destruct (pipeline.evaluateJoin j (cache.mkDelta cache.Deleted _) _) as [r1 eng1].
  cbn [snd] in Hdel.
  assert (H01 : touches_only (Some obj) eng eng1).
  { eapply touches_only_trans; [apply touches_only_withViewStore|done]. }
  destruct r1 as [dd| |]; [|done..].
  pose proof (evaluateJoin_Added_touches j obj eng1) as Hadd.
  destruct (pipeline.evaluateJoin j (cache.mkDelta cache.Added _) eng1) as [r2 eng2].
  cbn [snd] in Hadd.
  assert (H02 : touches_only (Some obj) eng eng2) by by eapply touches_only_trans.
  destruct r2 as [ad| |]; [|done..].
  by destruct (pipeline.diffDeltas dd ad) as [[x y] z].
Qed.

Lemma EvaluateJoin_touches j delta eng :
  touches_only (cache.Object delta) eng (pipeline.EvaluateJoin j delta eng).2.
Proof.
  destruct (cache.Object delta) as [obj|] eqn:Hobj.
  - destruct (duplicate eng obj) eqn:Hdup.
    + destruct (cache.Type_ delta) eqn:Ht.
      * rewrite (EvaluateJoin_duplicate j _ obj) by auto. apply touches_only_withViewStore.
      * rewrite (delta_eta delta _ obj Ht Hobj). apply evaluateJoin_Deleted_touches.
      * rewrite (EvaluateJoin_duplicate j _ obj) by auto. apply touches_only_withViewStore.
      * rewrite (EvaluateJoin_duplicate j _ obj) by auto. apply touches_only_withViewStore.
      * rewrite (EvaluateJoin_duplicate j _ obj) by auto. apply touches_only_withViewStore.
      * rewrite (EvaluateJoin_Unchanged j _ obj) by done. apply touches_only_withViewStore.
    + destruct (cache.Type_ delta) eqn:Ht.
      * rewrite (delta_eta delta _ obj Ht Hobj). apply evaluateJoin_Added_touches.
      * rewrite (delta_eta delta _ obj Ht Hobj). apply evaluateJoin_Deleted_touches.
      * apply EvaluateJoin_update_touches; [done|by left|done].
      * apply EvaluateJoin_update_touches; [done|by right; left|done].
      * destruct (stored eng (object.GroupVersionKind obj) (key_of obj)) as [old|] eqn:Hold.
        -- apply EvaluateJoin_update_touches; [done| |done].
           right; right. rewrite Hold. split; [done|by eexists].
        -- rewrite (delta_eta delta _ obj Ht Hobj), EvaluateJoin_Upserted_absent by done.
           apply evaluateJoin_Added_touches.
      * rewrite (EvaluateJoin_Unchanged j _ obj) by done. apply touches_only_withViewStore.
  - unfold pipeline.EvaluateJoin, pipeline.evaluateJoin, pipeline.evaluateJoin_body.
    rewrite Hobj. apply touches_only_refl.
Qed.

(** X13. Whatever its outcome, the evaluation of an event changes nothing but
    the entry of its own object: an object stored after the event was stored
    before it under the same key, or is the object of the event, under its own
    key in the store of its kind. *)
Theorem X13_event_touches_only_its_own_entry a j delta eng :
  touches_only (cache.Object delta) eng (pipeline.EvaluateAggregation a delta eng).2
  ∧ touches_only (cache.Object delta) eng (pipeline.EvaluateJoin j delta eng).2.
Proof. split; [apply EvaluateAggregation_touches|apply EvaluateJoin_touches]. Qed.

Lemma touches_only_consistent o eng eng' :
  touches_only o eng eng' → consistent eng → consistent eng'.
Proof.
  intros Ht Hc g key x Hx. destruct (Ht _ _ _ Hx) as [Hx0|(_ & -> & ->)]; [|done].
  by apply Hc.
Qed.

Lemma WithObjects_consistent objs eng :
  consistent eng → consistent (pipeline.WithObjects objs eng).2.
Proof.
  revert eng. induction objs as [|o objs IH]; intros eng Hc; [done|].
  rewrite WithObjects_cons. apply IH.
  eapply touches_only_consistent; [|done].
  eapply touches_only_trans; [apply (touches_only_withViewStore (Some o) (object.GroupVersionKind o))|].
  rewrite <- (storeOf_withViewStore (object.GroupVersionKind o)).
  apply touches_only_insert.
Qed.

(** X14. The stores keep every object in the store of its kind and under its
    own key: this holds of a new engine, and [WithObjects] and the evaluation
    of any event preserve it, whatever the outcome. *)
Theorem X14_stores_stay_consistent a j delta objs targetView baseviews eng :
  consistent (pipeline.NewDefaultEngine targetView baseviews)
  ∧ (consistent eng →
     consistent (pipeline.WithObjects objs eng).2
     ∧ consistent (pipeline.EvaluateAggregation a delta eng).2
     ∧ consistent (pipeline.EvaluateJoin j delta eng).2).
Proof.
  split.
  - intros g key o. unfold stored, storeOf, pipeline.NewDefaultEngine. simpl.
    rewrite lookup_empty. simpl. unfold cache.NewStore. by rewrite lookup_empty.
  - intros Hc. split_and!.
    + by apply WithObjects_consistent.
    + eapply touches_only_consistent; [apply EvaluateAggregation_touches|done].
    + eapply touches_only_consistent; [apply EvaluateJoin_touches|done].
Qed.

End EngineMore.

(** ** The names of joined objects *)

Section JoinNames.
Context `{object.Pkg} `{expression.Pkg}.

#[local] Instance leb_total : Total (λ a b : string, Is_true (String.leb a b)).
Proof.
  intros a b. destruct (String.leb_total a b) as [H1|H1]; rewrite H1; [by left|by right].
Qed.

#[local] Instance leb_antisymm : AntiSymm (=) (λ a b : string, Is_true (String.leb a b)).
Proof.
  intros a b Hab%Is_true_true Hba%Is_true_true. by apply String.leb_antisym.
Qed.

Lemma leb_cases (a b : string) :
  Is_true (String.leb a b) ↔ a = b ∨ String_as_OT.lt a b.
Proof.
  unfold String.leb. rewrite <- String_as_OT.cmp_lt. unfold String_as_OT.cmp.
  destruct (String.compare a b) eqn:Hc; simpl.
  - apply String.compare_eq_iff in Hc. split; [by left|done].
  - split; [by right|done].
  - split; [done|]. intros [->|?]; [|done].
    assert (Hrefl : String.compare b b = Eq).
    { pose proof (String.compare_antisym b b) as Ha. destruct (String.compare b b); done. }
    congruence.
Qed.

#[local] Instance leb_trans : Transitive (λ a b : string, Is_true (String.leb a b)).
Proof.
  intros a b c. rewrite !leb_cases. intros [->|Hab] [->|Hbc]; auto.
  right. by eapply String_as_OT.lt_trans.
Qed.

Lemma slices_Sort_Permutation (ids1 ids2 : list string) :
  ids1 ≡ₚ ids2 → slices_Sort ids1 = slices_Sort ids2.
Proof.
  intros Hp. unfold slices_Sort.
  apply (Sorted_unique (λ a b : string, Is_true (String.leb a b)));
    [apply (Sorted_merge_sort _)..|].
  by rewrite !merge_sort_Permutation.
Qed.

Lemma joinInput_loop (current : list (option object.Object)) (input : unstruct) ids :
  ∃ input',
    foldl (λ '(input, ids) v,
           match v with
           | None => (input, ids)
           | Some v =>
               let kind := schema.Kind (object.GroupVersionKind v) in
               (<[kind := DMap (object.UnstructuredContent v)]> input,
                ids ++ [kind +:+ ":" +:+ object.GetNamespace v +:+ ":" +:+ object.GetName v])
           end) (input, ids) current
    = (input',
       ids ++ omap (λ v, (λ v, schema.Kind (object.GroupVersionKind v) +:+ ":"
                               +:+ object.GetNamespace v +:+ ":" +:+ object.GetName v)
                           <$> v) current).
Proof.
  revert input ids. induction current as [|[v|] current IH]; intros input ids.
  - exists input. by rewrite app_nil_r.
  - destruct (IH (<[schema.Kind (object.GroupVersionKind v) :=
                      DMap (object.UnstructuredContent v)]> input)
                 (ids ++ [schema.Kind (object.GroupVersionKind v) +:+ ":"
                          +:+ object.GetNamespace v +:+ ":" +:+ object.GetName v]))
      as [input' Hloop].
    exists input'. rewrite <- app_assoc in Hloop. exact Hloop.
  - apply IH.
Qed.

Lemma joinInput_metadata (current : list (option object.Object)) :
  pipeline.joinInput current !! "metadata"
  = Some (DMap {[ "name" :=
       DString (strings_Join
         (slices_Sort
            (omap (λ v, (λ v, schema.Kind (object.GroupVersionKind v) +:+ ":"
                              +:+ object.GetNamespace v +:+ ":" +:+ object.GetName v)
                          <$> v) current)) "--") ]}).
Proof.
  destruct (joinInput_loop current
              (object.UnstructuredContent (object.NewViewObject "__tmp_join_view")) [])
    as [input' Hloop].
  unfold pipeline.joinInput. cbv zeta in Hloop |- *. rewrite Hloop.
  by rewrite lookup_insert_eq.
Qed.

(** X19. The name that the join gives to the input of its condition, hence to
    the joined object, does not depend on the order of the objects in the
    combination. *)
Theorem X19_join_name_ignores_the_order (c1 c2 : list (option object.Object)) :
  c1 ≡ₚ c2 →
  pipeline.joinInput c1 !! "metadata" = pipeline.joinInput c2 !! "metadata".
Proof.
  intros Hp. rewrite !joinInput_metadata. do 5 f_equal.
  apply slices_Sort_Permutation. by rewrite Hp.
Qed.

End JoinNames.

(** * Copying and merging values *)

Section DocFacts.

Lemma Doc_size_lookup (m : gmap string Doc) k x :
  m !! k = Some x → (Doc_size x < Doc_size (DMap m))%nat.
Proof.
  intros Hk. cbn [Doc_size].
  rewrite (map_fold_delete_L _ _ k (Doc_size x)); [lia|intros; lia|].
  by rewrite lookup_fmap, Hk.
Qed.

Lemma Doc_size_elem_of (l : list Doc) x :
  x ∈ l → (Doc_size x < Doc_size (DList l))%nat.
Proof.
  cbn [Doc_size]. induction 1 as [x l|x y l Hin IH]; rewrite fmap_cons; simpl; lia.
Qed.

(** Induction on documents, through the elements of lists and the values of maps. *)
Lemma Doc_ind' (P : Doc → Prop) :
  P DNull → (∀ b, P (DBool b)) → (∀ z, P (DInt z)) → (∀ f, P (DFloat f)) →
  (∀ s, P (DString s)) →
  (∀ l, Forall P l → P (DList l)) →
  (∀ m, map_Forall (λ _, P) m → P (DMap m)) →
  ∀ d, P d.
Proof.
  intros Hnull Hbool Hint Hfloat Hstring Hlist Hmap d.
  remember (Doc_size d) as n eqn:Hn. revert d Hn.
  induction n as [n IH] using lt_wf_ind. intros d ->.
  destruct d as [| | | | |l|m]; auto.
  - apply Hlist, Forall_forall. intros x Hx.
    by apply (IH _ (Doc_size_elem_of l x Hx)).
  - apply Hmap. intros k x Hk. by apply (IH _ (Doc_size_lookup m k x Hk)).
Qed.

Lemma DeepCopyAny_id (value : Doc) : objectutil.DeepCopyAny value = value.
Proof.
  induction value as [| | | | |l IH|m IH] using Doc_ind'; try done.
  - cbn [objectutil.DeepCopyAny]. f_equal.
    induction IH as [|x l Hx _ IHl]; [done|]. rewrite fmap_cons. by rewrite Hx, IHl.
  - cbn [objectutil.DeepCopyAny]. f_equal. apply map_eq. intros k.
    rewrite lookup_fmap. destruct (m !! k) as [x|] eqn:Hk; [|done]. simpl.
    by rewrite (IH k x Hk).
Qed.


(** *** MergeAny *)

(** The two loops of the mapping case. *)
Lemma MergeAny_maps_unfold (va vb : gmap string Doc) :
  objectutil.MergeAny (DMap va) (DMap vb)
  = (ret ← foldlM (λ ret kv,
               match vb !! kv.1 with
               | Some mvb => x ← objectutil.MergeAny kv.2 mvb; Ok (<[kv.1 := x]> ret)
               | None => Ok (<[kv.1 := kv.2]> ret)
               end) va (map_to_list va);
     Ok (DMap (foldl (λ ret kv,
                      match va !! kv.1 with
                      | None => <[kv.1 := kv.2]> ret
                      | Some _ => ret
                      end) ret (map_to_list vb)))).
Proof.
  cbn [objectutil.MergeAny]. rewrite DeepCopyAny_id.
  f_equal. apply foldlM_ext. intros ret [k x]. cbn [fst snd].
  rewrite lookup_fmap. by destruct (vb !! k).
Qed.


Lemma foldlM_not_Ok {A B} (f : B → A → result B) acc l :
  match foldlM f acc l with
  | Ok _ => True
  | r => ∃ acc' x, x ∈ l ∧ match r with
                           | Err e => f acc' x = Err e
                           | _ => f acc' x = Panic
                           end
  end.
Proof.
  revert acc. induction l as [|x l IH]; intros acc; simpl; [done|].
  destruct (f acc x) as [acc'|e|] eqn:Hf.
  - specialize (IH acc'). destruct (foldlM f acc' l); [done|..];
      destruct IH as (acc'' & y & Hy & Hfy); exists acc'', y; split; try done; by right.
  - exists acc, x. split; [by left|done].
  - exists acc, x. split; [by left|done].
Qed.

Lemma merge_loop_Ok (vb : gmap string Doc) (l : list (string * Doc))
    (ret0 ret : gmap string Doc) :
  NoDup l.*1 →
  foldlM (λ ret kv,
          match vb !! kv.1 with
          | Some mvb => x ← objectutil.MergeAny kv.2 mvb; Ok (<[kv.1 := x]> ret)
          | None => Ok (<[kv.1 := kv.2]> ret)
          end) ret0 l = Ok ret →
  ∀ k,
    (k ∉ l.*1 → ret !! k = ret0 !! k)
    ∧ (∀ x, (k, x) ∈ l →
         match vb !! k with
         | Some y => ∃ z, objectutil.MergeAny x y = Ok z ∧ ret !! k = Some z
         | None => ret !! k = Some x
         end).
Proof.
  revert ret0. induction l as [|[k0 x0] l IH]; intros ret0 Hnd Hrun k.
  { simpl in Hrun. simplify_eq. split; [done|]. by intros x ?%elem_of_nil. }
  rewrite fmap_cons in Hnd. apply NoDup_cons in Hnd as [Hk0 Hnd].
  cbn [foldlM fst snd] in Hrun.
  assert (∃ v0, (match vb !! k0 with
                 | Some y => objectutil.MergeAny x0 y = Ok v0
                 | None => v0 = x0
                 end)
                ∧ foldlM (λ ret kv,
                     match vb !! kv.1 with
                     | Some mvb => x ← objectutil.MergeAny kv.2 mvb; Ok (<[kv.1 := x]> ret)
                     | None => Ok (<[kv.1 := kv.2]> ret)
                     end) (<[k0 := v0]> ret0) l = Ok ret) as (v0 & Hv0 & Hrest).
  { destruct (vb !! k0) as [y|].
    - destruct (objectutil.MergeAny x0 y) as [z| |]; simpl in Hrun; [|done..]. by exists z.
    - by exists x0. }
  destruct (IH _ Hnd Hrest k) as [IHa IHb]. split.
  - rewrite fmap_cons. cbn [fst]. intros [Hne Hnin]%not_elem_of_cons.
    rewrite IHa by done. by rewrite lookup_insert_ne.
  - intros x [Heq|Hin]%elem_of_cons; [|by apply IHb].
    simplify_eq. rewrite IHa by done. rewrite lookup_insert_eq.
    destruct (vb !! k0) as [y|]; [by exists v0|by subst].
Qed.

Lemma overlay_loop (va : gmap string Doc) (l : list (string * Doc))
    (ret : gmap string Doc) k :
  NoDup l.*1 →
  let ret' := foldl (λ ret kv,
                     match va !! kv.1 with
                     | None => <[kv.1 := kv.2]> ret
                     | Some _ => ret
                     end) ret l in
  (k ∉ l.*1 ∨ is_Some (va !! k) → ret' !! k = ret !! k)
  ∧ (∀ y, (k, y) ∈ l → va !! k = None → ret' !! k = Some y).
Proof.
  revert ret. induction l as [|[k0 y0] l IH]; intros ret Hnd; cbn zeta.
  { split; [done|]. by intros y ?%elem_of_nil. }
  rewrite fmap_cons in Hnd. apply NoDup_cons in Hnd as [Hk0 Hnd].
  cbn [foldl fst snd].
  destruct (IH (match va !! k0 with
                | None => <[k0 := y0]> ret
                | Some _ => ret
                end) Hnd) as [IHa IHb]. cbn zeta in IHa, IHb.
  split.
  - intros Hk. rewrite IHa.
    + destruct (va !! k0) eqn:Hva; [done|]. rewrite lookup_insert_ne; [done|].
      intros ->. destruct Hk as [Hk|[? Hk]]; [|congruence].
      apply Hk. rewrite fmap_cons. by left.
    + destruct Hk as [Hk|Hk]; [left|by right].
      intros Hin. apply Hk. rewrite fmap_cons. by right.
  - intros y [Heq|Hin]%elem_of_cons Hva; [|by apply IHb].
    simplify_eq. rewrite IHa by by left. rewrite Hva. by rewrite lookup_insert_eq.
Qed.

Lemma MergeAny_maps_Ok (va vb : gmap string Doc) r :
  objectutil.MergeAny (DMap va) (DMap vb) = Ok r →
  ∃ m, r = DMap m
       ∧ ∀ k, match va !! k, vb !! k with
              | Some x, Some y => ∃ z, objectutil.MergeAny x y = Ok z ∧ m !! k = Some z
              | Some x, None => m !! k = Some x
              | None, Some y => m !! k = Some y
              | None, None => m !! k = None
              end.
Proof.
  rewrite MergeAny_maps_unfold.
  destruct (foldlM _ va (map_to_list va)) as [ret| |] eqn:Hloop; [|done..]. simpl.
  intros; simplify_eq. eexists. split; [done|]. intros k.
  pose proof (merge_loop_Ok vb (map_to_list va) va ret (NoDup_fst_map_to_list va) Hloop k)
    as [Ha Hb].
  pose proof (overlay_loop va (map_to_list vb) ret k (NoDup_fst_map_to_list vb)) as [Hc Hd].
  cbn zeta in Hc, Hd.
  destruct (va !! k) as [x|] eqn:Hva.
  - rewrite Hc by (right; by eexists).
    apply elem_of_map_to_list in Hva. apply Hb in Hva.
    by destruct (vb !! k).
  - assert (Hnin : k ∉ (map_to_list va).*1).
    { intros (kv & -> & Hin)%list_elem_of_fmap. destruct kv as [k' x].
      apply elem_of_map_to_list in Hin. simpl in Hva. congruence. }
    destruct (vb !! k) as [y|] eqn:Hvb.
    + apply Hd; [|done]. by apply elem_of_map_to_list.
    + rewrite Hc, Ha by (try done; left;
        intros (kv & -> & Hin)%list_elem_of_fmap; destruct kv as [k' y];
        apply elem_of_map_to_list in Hin; simpl in Hvb; congruence).
      done.
Qed.


Lemma MergeAny_not_Ok (a b : Doc) :
  match objectutil.MergeAny a b with
  | Ok _ => True
  | Err e => ∃ a', a' ≠ DNull
                   ∧ e = fmt_Errorf "could not merge argument %q and %q" [fmt_v a'; fmt_v DNull]
  | Panic => False
  end.
Proof.
  revert a. induction b as [| | | | |l _|vb IH] using Doc_ind'; intros a;
    try (by destruct a).
  - destruct a; try done; (eexists; split; [|reflexivity]; done).
  - destruct a as [| | | | | |va]; try done.
    rewrite MergeAny_maps_unfold.
    pose proof (foldlM_not_Ok (λ (ret : gmap string Doc) (kv : string * Doc),
                  match vb !! kv.1 with
                  | Some mvb => x ← objectutil.MergeAny kv.2 mvb; Ok (<[kv.1 := x]> ret)
                  | None => Ok (<[kv.1 := kv.2]> ret)
                  end) va (map_to_list va)) as Hloop.
    destruct (foldlM _ va (map_to_list va)) as [ret|e|]; [done|..]; simpl;
      destruct Hloop as (acc & [k x] & _ & Hstep); cbn [fst snd] in Hstep;
      (destruct (vb !! k) as [y|] eqn:Hvb; [|done]);
      specialize (IH k y Hvb x);
      destruct (objectutil.MergeAny x y); simpl in Hstep; by simplify_eq.
Qed.

Lemma has_nil_lookup (m : gmap string Doc) k y :
  has_nil (DMap m) = false → m !! k = Some y → has_nil y = false.
Proof.
  cbn [has_nil]. intros Hm Hk.
  rewrite (map_fold_delete_L _ _ k (has_nil y)) in Hm.
  - by apply orb_false_elim in Hm as [? _].
  - intros. by destruct z1, z2, y0.
  - by rewrite lookup_fmap, Hk.
Qed.

Lemma MergeAny_nil_free (a b : Doc) :
  has_nil b = false → ∃ r, objectutil.MergeAny a b = Ok r.
Proof.
  revert a. induction b as [| | | | |l _|vb IH] using Doc_ind'; intros a Hnil.
  - done.
  - destruct a; by eexists.
  - destruct a; by eexists.
  - destruct a; by eexists.
  - destruct a; by eexists.
  - destruct a; by eexists.
  - destruct a as [| | | | | |va]; try by eexists.
    rewrite MergeAny_maps_unfold.
    pose proof (foldlM_not_Ok (λ (ret : gmap string Doc) (kv : string * Doc),
                  match vb !! kv.1 with
                  | Some mvb => x ← objectutil.MergeAny kv.2 mvb; Ok (<[kv.1 := x]> ret)
                  | None => Ok (<[kv.1 := kv.2]> ret)
                  end) va (map_to_list va)) as Hloop.
    destruct (foldlM _ va (map_to_list va)) as [ret|e|]; [by eexists|..];
      destruct Hloop as (acc & [k x] & _ & Hstep); cbn [fst snd] in Hstep;
      (destruct (vb !! k) as [y|] eqn:Hvb; [|done]);
      destruct (IH k y Hvb x (has_nil_lookup vb k y Hnil Hvb)) as [z Hz];
      rewrite Hz in Hstep; done.
Qed.

(** X22. [DeepCopyAny] returns a value equal to its argument, at every depth
    of lists and mappings. *)
Theorem X22_DeepCopyAny_returns_an_equal_value (value : Doc) :
  objectutil.DeepCopyAny value = value.
Proof. apply DeepCopyAny_id. Qed.

(** X23. The merge of two mappings holds exactly the keys of both: a key of
    one side alone keeps its value, and a key of both holds the merge of the
    two values. *)
Theorem X23_MergeAny_of_two_mappings (va vb : gmap string Doc) r :
  objectutil.MergeAny (DMap va) (DMap vb) = Ok r →
  ∃ m, r = DMap m
       ∧ dom m = dom va ∪ dom vb
       ∧ ∀ k, match va !! k, vb !! k with
              | Some x, Some y => ∃ z, objectutil.MergeAny x y = Ok z ∧ m !! k = Some z
              | Some x, None => m !! k = Some x
              | None, Some y => m !! k = Some y
              | None, None => m !! k = None
              end.
Proof.
  intros (m & -> & Hm)%MergeAny_maps_Ok. exists m. split; [done|]. split; [|done].
  apply set_eq. intros k. rewrite elem_of_union, !elem_of_dom. specialize (Hm k).
  destruct (va !! k) as [x|], (vb !! k) as [y|];
    try destruct Hm as (z & _ & Hm); rewrite Hm.
  - split; [left|]; by eexists.
  - split; [left|]; by eexists.
  - split; [right|]; by eexists.
  - split; [by intros [? ?]|by intros [[? ?]|[? ?]]].
Qed.

(** X24. [MergeAny] does not panic; it succeeds whenever its second argument
    holds no nil under its mappings; the only error it returns is that of a
    nil merged into a value that is not nil, which it does return for nil as
    second argument. *)
Theorem X24_MergeAny_fails_only_on_nil (a b : Doc) :
  (has_nil b = false → ∃ r, objectutil.MergeAny a b = Ok r)
  ∧ objectutil.MergeAny a b ≠ Panic
  ∧ (∀ e, objectutil.MergeAny a b = Err e →
       ∃ a', a' ≠ DNull
             ∧ e = fmt_Errorf "could not merge argument %q and %q" [fmt_v a'; fmt_v DNull])
  ∧ (a ≠ DNull → is_Err (objectutil.MergeAny a DNull)).
Proof.
  pose proof (MergeAny_not_Ok a b) as Hno. split_and!.
  - apply MergeAny_nil_free.
  - intros Hp. by rewrite Hp in Hno.
  - intros e He. by rewrite He in Hno.
  - intros Ha. destruct a; try done; by eexists.
Qed.

(** X25. The merge of two mappings without a common key is their union. *)
Theorem X25_MergeAny_of_disjoint_mappings (va vb : gmap string Doc) :
  va ##ₘ vb →
  objectutil.MergeAny (DMap va) (DMap vb) = Ok (DMap (va ∪ vb)).
Proof.
  intros Hdisj.
  destruct (objectutil.MergeAny (DMap va) (DMap vb)) as [r|e|] eqn:Hrun.
  - apply MergeAny_maps_Ok in Hrun as (m & -> & Hm). do 2 f_equal.
    apply map_eq. intros k. specialize (Hm k).
    destruct (va !! k) as [x|] eqn:Hva, (vb !! k) as [y|] eqn:Hvb.
    + by destruct (map_disjoint_spec va vb) as [Hsp _]; destruct (Hsp Hdisj k x y).
    + rewrite Hm. symmetry. by apply lookup_union_Some_l.
    + rewrite Hm. symmetry. by apply lookup_union_Some_raw; right.
    + rewrite Hm. symmetry. by apply lookup_union_None.
  - exfalso. rewrite MergeAny_maps_unfold in Hrun.
    pose proof (foldlM_not_Ok (λ (ret : gmap string Doc) (kv : string * Doc),
                  match vb !! kv.1 with
                  | Some mvb => x ← objectutil.MergeAny kv.2 mvb; Ok (<[kv.1 := x]> ret)
                  | None => Ok (<[kv.1 := kv.2]> ret)
                  end) va (map_to_list va)) as Hloop.
    destruct (foldlM _ va (map_to_list va)) as [ret|e'|]; [done|..];
      destruct Hloop as (acc & [k x] & Hin%elem_of_map_to_list & Hstep);
      cbn [fst snd] in Hstep;
      by rewrite (map_disjoint_Some_l va vb k x Hdisj Hin) in Hstep.
  - pose proof (MergeAny_not_Ok (DMap va) (DMap vb)) as Hno. by rewrite Hrun in Hno.
Qed.

End DocFacts.

(** * The resources of a controller *)

Section ResourceFacts.
Variable GroupVersion : schema.GroupVersion.
Variable KindFor : schema.GroupVersionResource → result gvk.
Variable Stringify : reconciler.Resource → string.

#[local] Abbreviation GetGVK := (reconciler.GetGVK GroupVersion KindFor Stringify).
#[local] Abbreviation String := (reconciler.String GroupVersion KindFor Stringify).

Lemma getGVKByGroupKind_view kind :
  reconciler.getGVKByGroupKind GroupVersion KindFor
    (schema.mkGK (schema.gvGroup GroupVersion) kind)
  = Ok (schema.mkGVK (schema.gvGroup GroupVersion) (schema.gvVersion GroupVersion) kind).
Proof. unfold reconciler.getGVKByGroupKind. simpl. by rewrite decide_True. Qed.

(** X26. A resource without group or of the view group resolves to the view
    group and the view version, whatever version it names; a resource of
    another group that names its version resolves to what it names. The REST
    mapper plays no part in either. *)
Theorem X26_GetGVK_without_the_mapper (r : reconciler.Resource) :
  reconciler.Kind r ≠ "" →
  (reconciler.Group r = None ∨ reconciler.Group r = Some (schema.gvGroup GroupVersion) →
   GetGVK r = Ok (schema.mkGVK (schema.gvGroup GroupVersion) (schema.gvVersion GroupVersion)
                    (reconciler.Kind r)))
  ∧ (∀ group version,
       reconciler.Group r = Some group → group ≠ schema.gvGroup GroupVersion →
       reconciler.Version r = Some version →
       GetGVK r = Ok (schema.mkGVK group version (reconciler.Kind r))).
Proof.
  intros Hkind. unfold reconciler.GetGVK. rewrite decide_False by done. split.
  - intros [-> | ->]; [|rewrite decide_True by done]; apply getGVKByGroupKind_view.
  - intros group version -> Hne ->. by rewrite decide_False.
Qed.

(** X27. [GetGVK] fails exactly for an empty kind and for a resource of a
    group other than the view group that names no version and whose kind the
    REST mapper cannot find. *)
Theorem X27_GetGVK_fails_exactly_when (r : reconciler.Resource) :
  is_Err (GetGVK r)
  ↔ reconciler.Kind r = ""
    ∨ ∃ group, reconciler.Group r = Some group
               ∧ group ≠ schema.gvGroup GroupVersion
               ∧ reconciler.Version r = None
               ∧ is_Err (KindFor (schema.mkGVR group "" (reconciler.Kind r))).
Proof.
  unfold reconciler.GetGVK.
  destruct (decide (reconciler.Kind r = "")) as [Hk|Hk].
  { split; [by left|]. intros _. by eexists. }
  destruct (reconciler.Group r) as [group|] eqn:Hg.
  - destruct (decide (group = schema.gvGroup GroupVersion)) as [->|Hne].
    + rewrite getGVKByGroupKind_view. split; [by intros [? ?]|].
      intros [?|(g & ? & ? & _)]; [done|congruence].
    + destruct (reconciler.Version r) as [version|] eqn:Hv.
      * split; [by intros [? ?]|]. intros [?|(g & ? & ? & ? & _)]; [done|congruence].
      * unfold reconciler.getGVKByGroupKind. simpl. rewrite decide_False by done.
        split.
        -- intros [e He]. right. exists group. split_and!; try done.
           destruct (KindFor _); simpl in He; try done. by eexists.
        -- intros [?|(g & ? & ? & ? & [e He])]; [done|]. simplify_eq.
           rewrite He. by eexists.
  - rewrite getGVKByGroupKind_view. split; [by intros [? ?]|].
    intros [?|(g & ? & _)]; [done|congruence].
Qed.

Lemma append_nonempty (s t : string) : s ≠ "" → s +:+ t ≠ "".
Proof. by destruct s. Qed.

(** X28. The text of a resource is empty exactly when its kind cannot be
    resolved; a kind resolved in the empty group is shown under [core]. *)
Theorem X28_resource_String_is_empty_exactly_on_failure (r : reconciler.Resource) :
  (String r = Ok "" ↔ is_Err (GetGVK r))
  ∧ (∀ version kind,
       GetGVK r = Ok (schema.mkGVK "" version kind) →
       String r = Ok ("core/" +:+ version +:+ ":" +:+ kind)).
Proof.
  unfold reconciler.String. split.
  - destruct (GetGVK r) as [g|e|]; [|split; [by eexists|done]|split; [done|by intros [? ?]]].
    split; [|by intros [? ?]]. intros Hs. exfalso. simplify_eq.
    revert Hs. apply append_nonempty. by case_decide.
  - by intros version kind ->.
Qed.

End ResourceFacts.

(** * The further properties on the running example *)

Section ClosingMore.
Import scenario.
#[local] Existing Instance viewobject.pkg.
#[local] Existing Instance evaluator.pkg.

(** The delete of a pod on an engine that stores nothing. *)
Lemma X3_witness :
  pipeline.EvaluateAggregation selectOk (deleted oldPod) fresh
  = (Ok [], withViewStore (view "pod") fresh)
  ∧ pipeline.EvaluateJoin sameApp (deleted oldPod) fresh
    = (Ok [], withViewStore (view "pod") fresh)
  ∧ same_contents fresh (withViewStore (view "pod") fresh).
Proof. apply (@X3_delete_of_unknown_object viewobject.pkg evaluator.pkg selectOk sameApp oldPod fresh). reflexivity. Defined.

(** The pod added to an engine that stores nothing is stored. *)
Lemma X1_witness :
  stored addedOld.2 (view "pod") "default/a" = Some oldPod.
Proof.
  apply (@X1_added_object_is_stored viewobject.pkg evaluator.pkg selectOk sameApp oldPod fresh (out addedOld) addedOld.2).
  - reflexivity.
  - left. reflexivity.
Defined.

(** The update of the stored pod by a version that is selected as well: one Updated delta. *)
Lemma X8_witness :
  summary (pipeline.EvaluateAggregation selectOk (updated okPod) running).1
  = [(cache.Updated, Some "a")].
Proof.
  rewrite (@X8_aggregation_update_consolidation viewobject.pkg evaluator.pkg selectOk (updated okPod) okPod oldPod running
             (aggregated oldPod) (aggregated okPod));
    [reflexivity|by left|reflexivity..].
Defined.


(** The upsert of another version of the stored pod. *)
Lemma X6_witness :
  pipeline.EvaluateAggregation selectOk (upserted okPod) running
  = pipeline.EvaluateAggregation selectOk (updated okPod) running
  ∧ pipeline.EvaluateJoin sameApp (upserted okPod) running
    = pipeline.EvaluateJoin sameApp (updated okPod) running.
Proof.
  apply (@X6_upsert_of_stored_object_is_update viewobject.pkg evaluator.pkg
           selectOk sameApp okPod oldPod running).
  reflexivity.
Defined.

(** The update of a pod on an engine that stores nothing. *)
Lemma X7_witness :
  pipeline.EvaluateJoin sameApp (updated oldPod) fresh
  = pipeline.EvaluateJoin sameApp (added oldPod) fresh.
Proof.
  apply (proj2 (@X7_update_of_unknown_object_is_add viewobject.pkg evaluator.pkg
                  selectOk sameApp cache.Updated oldPod fresh (or_introl eq_refl) eq_refl) []).
  reflexivity.
Defined.

(** The pod added a second time. *)
Lemma X2_witness :
  pipeline.EvaluateAggregation selectOk (added oldPod) addedOld.2 = (Ok [], addedOld.2).
Proof.
  apply (proj1 (@X2_repeated_event_is_ignored viewobject.pkg evaluator.pkg
                  selectOk sameApp (added oldPod) oldPod fresh (out addedOld) addedOld.2
                  eq_refl (or_introl eq_refl) eq_refl)).
  reflexivity.
Defined.

(** The pod added to an engine that stores nothing, then deleted. *)
Lemma X5_witness :
  ∃ objs eng2,
    out addedOld = deltas cache.Added objs
    ∧ pipeline.EvaluateAggregation selectOk (deleted oldPod) addedOld.2
      = (Ok (deltas cache.Deleted objs), eng2)
    ∧ same_contents fresh eng2.
Proof.
  apply (proj1 (@X5_add_then_delete_restores_the_stores viewobject.pkg evaluator.pkg
                  selectOk sameApp oldPod fresh (out addedOld) addedOld.2 eq_refl)).
  reflexivity.
Defined.

(** The stored pod deleted through the join. *)
Lemma X4_witness :
  stored (pipeline.EvaluateJoin sameApp (deleted oldPod) running).2 (view "pod") "default/a"
  = None.
Proof.
  apply (@X4_deleted_object_is_gone viewobject.pkg evaluator.pkg selectOk sameApp
           oldPod oldPod running
           (out (pipeline.EvaluateJoin sameApp (deleted oldPod) running))
           (pipeline.EvaluateJoin sameApp (deleted oldPod) running).2);
    [reflexivity|reflexivity|right; reflexivity].
Defined.

(** A join on an engine with the single base view [pod]. *)
Lemma X17_witness :
  pipeline.evalJoin lonely sameApp oldPod
  = Err (expression.NewExpressionError (pipeline.Expression sameApp)
           (errors_New "at least two views required")).
Proof.
  apply (@X17_join_needs_two_base_views viewobject.pkg evaluator.pkg sameApp oldPod lonely).
  simpl. lia.
Defined.

(** A pod joined while the store of deployments is empty: the condition [notPaused], which fails on a nil deployment, is not evaluated. *)
Lemma X18_witness :
  pipeline.evalJoin drained notPaused oldPod = Ok [].
Proof.
  apply (@X18_empty_store_silences_the_join viewobject.pkg evaluator.pkg
           notPaused oldPod drained (view "dep"));
    [simpl; lia|repeat constructor|reflexivity|done].
Defined.

(** A pod deleted and added under the same name. *)
Lemma X20_witness :
  cache.Object <$> ([updated newPod] ++ []) ≡ₚ cache.Object <$> [added newPod].
Proof.
  apply (@X20_diffDeltas_classifies_the_add_half viewobject.pkg
           [deleted oldPod] [added newPod] [] [updated newPod] []).
  reflexivity.
Defined.

(** Two deltas against themselves. *)
Lemma X21_witness :
  pipeline.diffDeltas [added oldPod; added dep1] [added oldPod; added dep1]
  = ([], [updated oldPod; updated dep1], []).
Proof.
  apply (@X21_diffDeltas_of_a_list_with_itself viewobject.pkg
           [added oldPod; added dep1]).
  repeat constructor; by eexists.
Defined.

(** A pod dropped by [@select], before a stage [@filter] that no aggregation knows. *)
Lemma X11_witness :
  pipeline.evalAggregation running
    (pipeline.mkAggregation [stage "@select" (path "$.spec.ok");
                             stage "@filter" (path "$.spec.ok")]) offPod
  = Ok [].
Proof.
  apply (@X11_dropped_object_skips_the_later_stages viewobject.pkg evaluator.pkg running).
  reflexivity.
Defined.

(** The output for the stored pod, for view objects. *)
Lemma X10_witness :
  Forall (λ o, schema.Kind (object.GroupVersionKind o) = "view" ∧ object.GetName o ≠ "")
         (aggregated oldPod).
Proof.
  apply (@X10_aggregation_outputs_belong_to_the_target_view viewobject.pkg evaluator.pkg
           viewobject_identity_laws selectOk oldPod running).
  reflexivity.
Defined.

(** Two mappings with the key [a] in common. *)
Lemma X23_witness :
  ∃ m, DMap rightMap = DMap m
       ∧ dom m = dom leftMap ∪ dom rightMap
       ∧ ∀ k, match leftMap !! k, rightMap !! k with
              | Some x, Some y => ∃ z, objectutil.MergeAny x y = Ok z ∧ m !! k = Some z
              | Some x, None => m !! k = Some x
              | None, Some y => m !! k = Some y
              | None, None => m !! k = None
              end.
Proof. apply (X23_MergeAny_of_two_mappings leftMap rightMap). reflexivity. Defined.

(** Two mappings without a common key. *)
Lemma X25_witness :
  objectutil.MergeAny (DMap leftMap) (DMap otherMap) = Ok (DMap (leftMap ∪ otherMap)).
Proof.
  apply (X25_MergeAny_of_disjoint_mappings leftMap otherMap).
  by apply map_disjoint_singleton_l_2.
Defined.

(** A resource without group that names the version [v9]. *)
Lemma X26_witness :
  reconciler.GetGVK viewGroupVersion noMapper reconciler.Kind podResource
  = Ok (view "pod").
Proof.
  apply (proj1 (X26_GetGVK_without_the_mapper viewGroupVersion noMapper reconciler.Kind
                  podResource ltac:(done))).
  by left.
Defined.

(** A pod and a deployment, in both orders. *)
Lemma X19_witness :
  pipeline.joinInput [Some oldPod; Some dep1] !! "metadata"
  = pipeline.joinInput [Some dep1; Some oldPod] !! "metadata".
Proof.
  apply (@X19_join_name_ignores_the_order viewobject.pkg).
  apply perm_swap.
Defined.

End ClosingMore.
